(** * ApiExampleGenerator: a shallow embedding of the example generator

    The development follows [src/ApiExampleGenerator.js].  The AMF model
    handed to the generator is a JSON-LD document, so graph nodes are
    JavaScript values.  Objects are association lists, in key insertion
    order (the order of [Object.keys]).  Every function that can raise a
    [TypeError] in the source returns in the [Res] monad. *)

From Stdlib Require Import String Ascii List ZArith Bool Arith Lia.
Import ListNotations.
Local Open Scope string_scope.
Local Open Scope Z_scope.
Set Warnings "-register-all".

(** ** JavaScript values

    The numbers are the integers and [NaN]: the generator makes [0] and
    what [Number] reads from the text of a literal, and a literal with a
    fraction is outside the values that are modelled. *)

Inductive JsVal : Type :=
| JUndef : JsVal
| JNull : JsVal
| JBool (b : bool) : JsVal
| JNum (z : Z) : JsVal
| JNaN : JsVal
| JStr (s : string) : JsVal
| JArr (l : list JsVal) : JsVal
| JObj (fields : list (string * JsVal)) : JsVal.

(** The result of [typeof]. *)
Inductive JsType : Type :=
| TUndefined | TObject | TBoolean | TNumber | TString.

Definition typeof (v : JsVal) : JsType :=
  match v with
  | JUndef => TUndefined
  | JNull => TObject
  | JBool _ => TBoolean
  | JNum _ => TNumber
  | JNaN => TNumber
  | JStr _ => TString
  | JArr _ => TObject
  | JObj _ => TObject
  end.

(** Truthiness, as tested by [if (v)] and [!v]. *)
Definition truthy (v : JsVal) : bool :=
  match v with
  | JUndef => false
  | JNull => false
  | JBool b => b
  | JNum z => negb (z =? 0)
  | JNaN => false
  | JStr s => negb (s =? "")%string
  | JArr _ => true
  | JObj _ => true
  end.

Definition isArray (v : JsVal) : bool :=
  match v with JArr _ => true | _ => false end.

(** [a || b] on values. *)
Definition js_or (a b : JsVal) : JsVal := if truthy a then a else b.

(** Nesting depth of a value; it bounds every recursive walk. *)
Fixpoint depth (v : JsVal) : nat :=
  match v with
  | JArr l => S (fold_right (fun x n => Nat.max (depth x) n) 0%nat l)
  | JObj fs => S (fold_right (fun p n => Nat.max (depth (snd p)) n) 0%nat fs)
  | _ => 0%nat
  end.

(** [a === b]: primitives compare by value; two separately built arrays
    or objects are never identical. *)
Definition strict_eq (a b : JsVal) : bool :=
  match a, b with
  | JUndef, JUndef => true
  | JNull, JNull => true
  | JBool x, JBool y => Bool.eqb x y
  | JNum x, JNum y => (x =? y)
  | JStr x, JStr y => (x =? y)%string
  | _, _ => false
  end.

(** [a === s] for a string [s]. *)
Definition strict_eq_str (a : JsVal) (s : string) : bool :=
  match a with JStr x => (x =? s)%string | _ => false end.

(** ** Strings *)

Module Str.

Definition chars (s : string) : list ascii := list_ascii_of_string s.
Definition of_chars (l : list ascii) : string := string_of_list_ascii l.

(** [s.indexOf(pat)], [None] for [-1]. *)
Fixpoint indexOf_from (pat s : string) (i : nat) : option nat :=
  if String.prefix pat s then Some i
  else match s with
       | EmptyString => None
       | String _ s' => indexOf_from pat s' (S i)
       end.

Definition indexOf (s pat : string) : option nat := indexOf_from pat s 0.

Definition contains (s pat : string) : bool :=
  match indexOf s pat with Some _ => true | None => false end.

Definition startsWith (s pat : string) : bool :=
  match indexOf s pat with Some O => true | _ => false end.

(** [s.substr(n)] for a non-negative [n]. *)
Fixpoint substr (n : nat) (s : string) : string :=
  match n, s with
  | O, _ => s
  | S n', String _ s' => substr n' s'
  | S _, EmptyString => EmptyString
  end.

(** [s.substr(0, n)]. *)
Fixpoint take (n : nat) (s : string) : string :=
  match n, s with
  | S n', String c s' => String c (take n' s')
  | _, _ => EmptyString
  end.

(** [s.substr(-n)]: the last [n] characters. *)
Definition last (n : nat) (s : string) : string :=
  substr (String.length s - n) s.

(** [s[0]], [None] when the string is empty. *)
Definition head (s : string) : option ascii :=
  match s with String c _ => Some c | EmptyString => None end.

(** [s.replace(pat, rep)] with a string pattern: the first occurrence only. *)
Definition replace_first (pat rep s : string) : string :=
  match indexOf s pat with
  | Some i => take i s ++ rep ++ substr (i + String.length pat) s
  | None => s
  end.

(** [s.split(sep)] for a one character separator. *)
Fixpoint split_chars (sep : ascii) (cur : list ascii) (l : list ascii) : list string :=
  match l with
  | [] => [of_chars (rev cur)]
  | c :: l' =>
      if Ascii.eqb c sep then of_chars (rev cur) :: split_chars sep [] l'
      else split_chars sep (c :: cur) l'
  end.

Definition split (sep : ascii) (s : string) : list string :=
  split_chars sep [] (chars s).

Definition is_space (c : ascii) : bool :=
  let n := nat_of_ascii c in
  (n =? 32)%nat || ((9 <=? n)%nat && (n <=? 13)%nat).

Fixpoint trim_left (l : list ascii) : list ascii :=
  match l with
  | c :: l' => if is_space c then trim_left l' else l
  | [] => []
  end.

(** [s.trim()]. *)
Definition trim (s : string) : string :=
  of_chars (rev (trim_left (rev (trim_left (chars s))))).

Definition is_lower (c : ascii) : bool :=
  let n := nat_of_ascii c in (97 <=? n)%nat && (n <=? 122)%nat.
Definition is_upper (c : ascii) : bool :=
  let n := nat_of_ascii c in (65 <=? n)%nat && (n <=? 90)%nat.
Definition is_digit (c : ascii) : bool :=
  let n := nat_of_ascii c in (48 <=? n)%nat && (n <=? 57)%nat.

(** [c.toUpperCase()] on one character. *)
Definition upper (c : ascii) : ascii :=
  if is_lower c then ascii_of_nat (nat_of_ascii c - 32) else c.

Definition filter (f : ascii -> bool) (s : string) : string :=
  of_chars (List.filter f (chars s)).

(** Decimal text of an integer, as [String(n)] prints it. *)
Fixpoint digits (fuel : nat) (n : N) (acc : list ascii) : list ascii :=
  match fuel with
  | O => acc
  | S fuel' =>
      let d := ascii_of_N (48 + N.modulo n 10) in
      if (n <? 10)%N then d :: acc else digits fuel' (N.div n 10) (d :: acc)
  end.

Definition of_Z (z : Z) : string :=
  let n := Z.abs_N z in
  let body := of_chars (digits (S (N.to_nat (N.log2 n))) n []) in
  if z <? 0 then "-" ++ body else body.

Definition of_nat (n : nat) : string := of_Z (Z.of_nat n).

End Str.

(** [String(v)], the text of a value in a concatenation or a text node. *)
Fixpoint js_to_string (v : JsVal) : string :=
  match v with
  | JUndef => "undefined"
  | JNull => "null"
  | JBool true => "true"
  | JBool false => "false"
  | JNum z => Str.of_Z z
  | JNaN => "NaN"
  | JStr s => s
  | JArr l =>
      (fix join (l : list JsVal) : string :=
         match l with
         | [] => ""
         | [x] => match x with JUndef | JNull => "" | _ => js_to_string x end
         | x :: l' =>
             (match x with JUndef | JNull => "" | _ => js_to_string x end)
               ++ "," ++ join l'
         end) l
  | JObj _ => "[object Object]"
  end.

(** ** Results of a call *)

(** A call returns, throws, or (in the bounded model of a recursive walk)
    uses up its recursion budget. *)
Inductive Res (A : Type) : Type :=
| Ok (a : A) : Res A
| Throw : Res A
| OutOfFuel : Res A.
Arguments Ok {A} a.
Arguments Throw {A}.
Arguments OutOfFuel {A}.

Definition bind {A B : Type} (m : Res A) (k : A -> Res B) : Res B :=
  match m with
  | Ok a => k a
  | Throw => Throw
  | OutOfFuel => OutOfFuel
  end.

Notation "x <- m ;; k" := (bind m (fun x => k))
  (at level 61, m at next level, right associativity).
Notation "' p <- m ;; k" := (bind m (fun x => match x with p => k end))
  (at level 61, p pattern, m at next level, right associativity).

(** [for] loop over a list with an accumulator. *)
Fixpoint foldM {A S : Type} (f : S -> A -> Res S) (s : S) (l : list A) : Res S :=
  match l with
  | [] => Ok s
  | x :: l' => s' <- f s x ;; foldM f s' l'
  end.

(** ** Property access *)

Fixpoint assoc (k : string) (fs : list (string * JsVal)) : option JsVal :=
  match fs with
  | [] => None
  | (k', v) :: fs' => if (k =? k')%string then Some v else assoc k fs'
  end.

(** [o[k]] once [o] is known not to be [undefined] or [null]; primitives
    and arrays have no property named by a vocabulary key. *)
Definition prop (o : JsVal) (k : string) : JsVal :=
  match o with
  | JObj fs => match assoc k fs with Some v => v | None => JUndef end
  | _ => JUndef
  end.

(** [o[k]]: a [TypeError] on [undefined] and [null]. *)
Definition js_get (o : JsVal) (k : string) : Res JsVal :=
  match o with
  | JUndef | JNull => Throw
  | _ => Ok (prop o k)
  end.

(** [a[0]] on an array. *)
Definition first (l : list JsVal) : JsVal := nth 0 l JUndef.

(** [if (v instanceof Array) { v = v[0]; }]. *)
Definition unwrap (v : JsVal) : JsVal :=
  match v with JArr l => first l | _ => v end.

(** [o[k] = v]: an existing key keeps its place. *)
Fixpoint set_field (k : string) (v : JsVal) (fs : list (string * JsVal))
  : list (string * JsVal) :=
  match fs with
  | [] => [(k, v)]
  | (k', v') :: fs' =>
      if (k =? k')%string then (k, v) :: fs' else (k', v') :: set_field k v fs'
  end.

(** ** The host platform

    Built-ins of the JavaScript host that the generator calls: the JSON
    codec, number conversion, URI decoding, the regular expression engine
    used by the pretty printer and the DOM serializer.  They are not code
    of the generator; the development is parametric in them. *)

(** The DOM tree built for a tree-markup example. *)
Inductive XmlNode : Type :=
| XElement (name : string) (attrs : list (string * string)) (children : list XmlNode)
| XText (data : string).

Record Platform : Type := mkPlatform {
  (** [_getAmfKey]: a vocabulary IRI as it is spelled in the document
      (compacted with the document's context, unchanged for an expanded
      document). *)
  amfKey : string -> string;
  (** [typeof JSON.parse(text)], [None] when [JSON.parse] throws. *)
  JSON_parse_typeof : string -> option JsType;
  (** [JSON.stringify(value, null, 2)] on an object or array. *)
  JSON_stringify : JsVal -> string;
  (** [Number(text)], [None] for [NaN]. *)
  Number_of : string -> option Z;
  (** [decodeURIComponent(text)], [None] when it throws. *)
  decodeURIComponent : string -> option string;
  (** [new XMLSerializer().serializeToString(doc)], the document given by
      its root element ([None] for a document without one). *)
  serializeToString : option XmlNode -> string;
  (** [text.replace(/re/g, by)], the expression given by its source. *)
  regex_replace : string -> string -> string -> string;
  (** [Boolean(text.match(/re/))]. *)
  regex_test : string -> string -> bool
}.

(** ** Vocabulary

    The namespace table [this.ns] of the AMF helper, as published with the
    AMF vocabularies. *)
Module ns.
Definition document := "http://a.ml/vocabularies/document#".
Definition core := "http://a.ml/vocabularies/core#".
Definition apiContract := "http://a.ml/vocabularies/apiContract#".
Definition shapes := "http://a.ml/vocabularies/shapes#".
Definition data := "http://a.ml/vocabularies/data#".
Definition docSourceMaps := "http://a.ml/vocabularies/document-source-maps#".
Definition shacl := "http://www.w3.org/ns/shacl#".
Definition xmlSchema := "http://www.w3.org/2001/XMLSchema#".
Definition rdfSchema := "http://www.w3.org/2000/01/rdf-schema#".

Definition document_raw := document ++ "raw".
Definition document_structuredValue := document ++ "structuredValue".
Definition document_NamedExamples := document ++ "NamedExamples".
Definition core_name := core ++ "name".
Definition core_mediaType := core ++ "mediaType".
Definition apiContract_examples := apiContract ++ "examples".
Definition apiContract_Example := apiContract ++ "Example".
Definition apiContract_Payload := apiContract ++ "Payload".
Definition shapes_schema := shapes ++ "schema".
Definition shapes_ScalarShape := shapes ++ "ScalarShape".
Definition shapes_ArrayShape := shapes ++ "ArrayShape".
Definition shapes_UnionShape := shapes ++ "UnionShape".
Definition shapes_NilShape := shapes ++ "NilShape".
Definition shapes_items := shapes ++ "items".
Definition shapes_anyOf := shapes ++ "anyOf".
Definition shapes_range := shapes ++ "range".
Definition shapes_xmlSerialization := shapes ++ "xmlSerialization".
Definition shapes_xmlName := shapes ++ "xmlName".
Definition shapes_xmlAttribute := shapes ++ "xmlAttribute".
Definition shapes_xmlWrapped := shapes ++ "xmlWrapped".
Definition shapes_boolean := shapes ++ "boolean".
Definition shapes_nil := shapes ++ "nil".
Definition shapes_integer := shapes ++ "integer".
Definition shapes_number := shapes ++ "number".
Definition shapes_long := shapes ++ "long".
Definition shapes_double := shapes ++ "double".
Definition shapes_float := shapes ++ "float".
Definition data_Scalar := data ++ "Scalar".
Definition data_Object := data ++ "Object".
Definition data_Array := data ++ "Array".
Definition data_value := data ++ "value".
Definition docSourceMaps_sources := docSourceMaps ++ "sources".
Definition docSourceMaps_parsedJsonSchema := docSourceMaps ++ "parsed-json-schema".
Definition docSourceMaps_trackedElement := docSourceMaps ++ "tracked-element".
Definition docSourceMaps_value := docSourceMaps ++ "value".
Definition shacl_name := shacl ++ "name".
Definition shacl_raw := shacl ++ "raw".
Definition shacl_property := shacl ++ "property".
Definition shacl_datatype := shacl ++ "datatype".
Definition shacl_defaultValue := shacl ++ "defaultValue".
Definition shacl_defaultValueStr := shacl ++ "defaultValueStr".
Definition shacl_NodeShape := shacl ++ "NodeShape".
Definition xmlSchema_boolean := xmlSchema ++ "boolean".
Definition xmlSchema_nil := xmlSchema ++ "nil".
Definition xmlSchema_integer := xmlSchema ++ "integer".
Definition xmlSchema_number := xmlSchema ++ "number".
Definition xmlSchema_long := xmlSchema ++ "long".
Definition xmlSchema_double := xmlSchema ++ "double".
Definition xmlSchema_float := xmlSchema ++ "float".
Definition rdfSchema_member := rdfSchema ++ "member".
End ns.

Definition UNKNOWN_TYPE := "unknown-type".

(** ** The output model *)

(** An example view model.  A property that was never assigned, or was
    assigned [undefined], reads [JUndef] (the source tells the two apart
    nowhere); [hasRaw] and [isScalar] are [None] until assigned. *)
Inductive Example : Type := mkExample {
  hasRaw : option bool;
  hasTitle : bool;
  hasUnion : bool;
  value : JsVal;
  title : JsVal;
  raw : JsVal;
  values : option (list Example);
  isScalar : option bool
}.

Definition set_value (v : JsVal) (e : Example) : Example :=
  mkExample (hasRaw e) (hasTitle e) (hasUnion e) v (title e) (raw e) (values e) (isScalar e).
Definition set_isScalar (b : bool) (e : Example) : Example :=
  mkExample (hasRaw e) (hasTitle e) (hasUnion e) (value e) (title e) (raw e) (values e) (Some b).
Definition set_hasRaw (b : bool) (e : Example) : Example :=
  mkExample (Some b) (hasTitle e) (hasUnion e) (value e) (title e) (raw e) (values e) (isScalar e).
Definition set_raw (v : JsVal) (e : Example) : Example :=
  mkExample (hasRaw e) (hasTitle e) (hasUnion e) (value e) (title e) v (values e) (isScalar e).
Definition set_title (b : bool) (t : JsVal) (e : Example) : Example :=
  mkExample (hasRaw e) b (hasUnion e) (value e) t (raw e) (values e) (isScalar e).
Definition set_values (l : list Example) (e : Example) : Example :=
  mkExample (hasRaw e) (hasTitle e) (hasUnion e) (value e) (title e) (raw e) (Some l) (isScalar e).

(** ** Generation options

    The options object is shared by every nested call and is updated in
    place; the model threads it through the calls that write it. *)
Record Opts : Type := mkOpts {
  rawOnly : bool;
  noAuto : bool;
  typeName : JsVal;
  parentName : JsVal;
  typeId : JsVal
}.

Definition no_opts : Opts := mkOpts false false JUndef JUndef JUndef.

Definition with_typeName (t : JsVal) (o : Opts) : Opts :=
  mkOpts (rawOnly o) (noAuto o) t (parentName o) (typeId o).
Definition with_parentName (t : JsVal) (o : Opts) : Opts :=
  mkOpts (rawOnly o) (noAuto o) (typeName o) t (typeId o).
Definition with_typeId (t : JsVal) (o : Opts) : Opts :=
  mkOpts (rawOnly o) (noAuto o) (typeName o) (parentName o) t.

(** A string option read as a condition: absent and empty are falsy. *)
Definition str_truthy (s : option string) : bool :=
  match s with Some x => negb (x =? "")%string | None => false end.

(** * The generator *)

Section Generator.

Variable P : Platform.

(** ** The model accessor

    The helpers inherited from the AMF helper mixin.  [_resolve] looks the
    target of a link up in the AMF document that the accessor holds and
    copies it into the shape; on a shape without open link, and when the
    accessor holds no document, it returns its argument as it is.  The
    development takes the shapes with their links resolved: what generation
    does on a shape with an open link, a recursive type among them, is
    outside of it. *)

Definition _getAmfKey (property : string) : string := amfKey P property.

Definition _resolve (shape : JsVal) : JsVal := shape.

Definition _ensureArray (v : JsVal) : option (list JsVal) :=
  if negb (truthy v) then None
  else match v with
       | JArr l => Some l
       | _ => Some [v]
       end.

Definition _getValue (model : JsVal) (key : string) : JsVal :=
  let key := _getAmfKey key in
  let data := if truthy model then prop model key else model in
  if negb (truthy data) then data
  else
    let data := unwrap data in
    if negb (truthy data) then JUndef
    else match data with
         | JStr _ | JNum _ | JNaN | JBool _ | JUndef => data
         | _ => prop data "@value"
         end.

(** [_hasType]: the [@type] of the model, a single value standing for the
    list of it, holds the key. *)
Definition _hasType (model : JsVal) (type : string) : bool :=
  match _ensureArray (if truthy model then prop model "@type" else model) with
  | None => false
  | Some types =>
      let key := _getAmfKey type in
      existsb (fun t => strict_eq_str t key) types
  end.

Definition _hasProperty (shape : JsVal) (key : string) : bool :=
  let key := _getAmfKey key in
  match shape with
  | JObj fs =>
      negb (key =? "")%string
      && match assoc key fs with Some _ => true | None => false end
  | _ => false
  end.

(** ** Reading a shape *)

Definition _readJsonSchema (schema : JsVal) : Res JsVal :=
  let sourceKey := _getAmfKey ns.docSourceMaps_sources in
  let trackedKey := _getAmfKey ns.docSourceMaps_parsedJsonSchema in
  let valueKey := _getAmfKey ns.docSourceMaps_value in
  sm <- js_get schema sourceKey ;;
  if negb (truthy sm) then Ok JUndef
  else
    let sm := unwrap sm in
    tracked <- js_get sm trackedKey ;;
    if negb (truthy tracked) then Ok JUndef
    else
      let tracked := unwrap tracked in
      Ok (_getValue tracked valueKey).

Definition _processExamples (examples : JsVal) : Res (option (list JsVal)) :=
  let key := _getAmfKey ns.apiContract_examples in
  match examples with
  | JArr l =>
      if (length l =? 1)%nat && _hasType (first l) ns.document_NamedExamples
      then Ok (_ensureArray (prop (first l) key))
      else Ok (Some l)
  | _ =>
      if _hasType examples ns.document_NamedExamples
      then Ok (_ensureArray (prop examples key))
      else Ok None
  end.

(** [list.indexOf(x) !== -1] on a list of strings. *)
Definition ids_include (ids : list string) (x : JsVal) : bool :=
  existsb (fun id => strict_eq_str x id) ids.

Definition _listTypeExamples (examples : option (list JsVal)) (typeId : JsVal)
  : Res (option (list JsVal)) :=
  if negb (truthy typeId) then Ok examples
  else
    let sourceKey := _getAmfKey ns.docSourceMaps_sources in
    let trackedKey := _getAmfKey ns.docSourceMaps_trackedElement in
    let valueKey := _getAmfKey ns.docSourceMaps_value in
    longId <-
      match typeId with
      | JStr s =>
          Ok (if Str.contains s "amf" then typeId else JStr ("amf://id" ++ s))
      | JArr l =>
          Ok (if existsb (fun x => strict_eq_str x "amf") l then typeId
              else JStr ("amf://id" ++ js_to_string typeId))
      | _ => Throw
      end ;;
    match examples with
    | None => Throw
    | Some l =>
        result <-
          foldM (fun (result : list JsVal) (example : JsVal) =>
                   let example := unwrap example in
                   sm <- js_get example sourceKey ;;
                   if negb (truthy sm) then Ok (result ++ [example])%list
                   else
                     let sm := unwrap sm in
                     tracked <- js_get sm trackedKey ;;
                     if negb (truthy tracked) then Ok (result ++ [example])%list
                     else
                       let tracked := unwrap tracked in
                       let value := _getValue tracked valueKey in
                       if negb (truthy value) then Ok result
                       else
                         match value with
                         | JStr v =>
                             let ids := Str.split "," v in
                             if ids_include ids longId || ids_include ids typeId
                             then Ok (result ++ [example])%list
                             else Ok result
                         | _ => Throw
                         end)
                [] l ;;
        Ok (match result with [] => None | _ => Some result end)
    end.

(** ** Value coercion *)

(** The number a value converts to, [None] for [NaN]. *)
Definition js_to_number (v : JsVal) : option Z :=
  match v with
  | JUndef => None
  | JNull => Some 0
  | JBool b => Some (if b then 1 else 0)
  | JNum z => Some z
  | JNaN => None
  | JStr s => Number_of P s
  | JArr _ => Number_of P (js_to_string v)
  | JObj _ => None
  end.

Definition _typeToValue (value : JsVal) (type : JsVal) : JsVal :=
  let ty k := strict_eq_str type k in
  if ty (_getAmfKey ns.xmlSchema_boolean) || ty (_getAmfKey ns.shapes_boolean)
     || ty ns.xmlSchema_boolean || ty ns.shapes_boolean
  then match value with
       | JUndef => value
       | _ => JBool (strict_eq_str value "true")
       end
  else if ty (_getAmfKey ns.xmlSchema_nil) || ty (_getAmfKey ns.shapes_nil)
          || ty ns.xmlSchema_nil || ty ns.shapes_nil
  then JNull
  else if ty (_getAmfKey ns.xmlSchema_integer) || ty (_getAmfKey ns.shapes_integer)
          || ty ns.xmlSchema_integer || ty ns.shapes_integer
          || ty ns.xmlSchema_number
          || ty (_getAmfKey ns.shapes_number) || ty ns.shapes_number
          || ty (_getAmfKey ns.xmlSchema_long) || ty ns.xmlSchema_long
          || ty (_getAmfKey ns.shapes_long) || ty ns.shapes_long
          || ty (_getAmfKey ns.xmlSchema_double) || ty ns.xmlSchema_double
          || ty (_getAmfKey ns.shapes_double) || ty ns.shapes_double
          || ty (_getAmfKey ns.xmlSchema_float) || ty ns.xmlSchema_float
          || ty (_getAmfKey ns.shapes_float) || ty ns.shapes_float
  then if truthy value
       then match js_to_number value with
            | None => JNum 0
            | Some z => JNum z
            end
       else JNum 0
  else js_or value (JStr "").

Definition _getTypedValue (structure : JsVal) : Res JsVal :=
  let key := _getAmfKey ns.data_value in
  let shape := prop structure key in
  if negb (truthy shape) then Ok JUndef
  else
    let shape := unwrap shape in
    value <- match typeof shape with
             | TObject => js_get shape "@value"
             | _ => Ok shape
             end ;;
    if negb (truthy value) then Ok value
    else
      let dt := prop shape "@type" in
      dt <- (if negb (truthy dt)
             then
               let dtKey := _getAmfKey ns.shacl_datatype in
               match _ensureArray (prop structure dtKey) with
               | Some l => js_get (first l) "@id"
               | None => Ok JUndef
               end
             else Ok dt) ;;
      if negb (truthy dt) then Ok (js_or value (JStr ""))
      else Ok (_typeToValue value (unwrap dt)).

(** ** Scalar synthesis *)

Definition _computeScalarType (shape : JsVal) : Res (option string) :=
  let dtKey := _getAmfKey ns.shacl_datatype in
  let dt := prop shape dtKey in
  if negb (truthy dt) then Ok None
  else
    let dt := unwrap dt in
    i <- js_get dt "@id" ;;
    match (if truthy i then i else dt) with
    | JStr id =>
        let id := match Str.indexOf id ns.xmlSchema with
                  | Some _ => Str.substr (String.length ns.xmlSchema) id
                  | None => id
                  end in
        let id := match Str.indexOf id ns.shapes with
                  | Some _ => Str.substr (String.length ns.shapes) id
                  | None => id
                  end in
        let id := match Str.indexOf id ":" with
                  | Some index => Str.substr index id
                  | None => id
                  end in
        match id with
        | String c rest => Ok (Some (String (Str.upper c) rest))
        | EmptyString => Throw
        end
    | _ => Throw
    end.

Definition _extractExampleRawValue (example : JsVal) : JsVal :=
  let example := unwrap example in
  let example :=
    if _hasType example ns.document_NamedExamples
    then unwrap (prop example (_getAmfKey ns.apiContract_examples))
    else example in
  _getValue example ns.document_raw.

Definition _getTypeScalarValue (range : JsVal) : JsVal :=
  let dv := prop range (_getAmfKey ns.shacl_defaultValue) in
  if truthy dv then _getValue (unwrap dv) ns.data_value
  else
    let ex := prop range (_getAmfKey ns.apiContract_examples) in
    if truthy ex then _extractExampleRawValue ex else JUndef.

(** The [switch (type)] of [_computeJsonScalarValue]. *)
Definition zero_of_type (type : option string) : JsVal :=
  match type with
  | Some t =>
      if (t =? "Number") || (t =? "Integer") || (t =? "Long")
         || (t =? "Float") || (t =? "Double")
      then JNum 0
      else if (t =? "Boolean") then JBool false
      else if (t =? "Nil") || (t =? "Null") then JNull
      else JStr ""
  | None => JStr ""
  end%string.

Definition _computeJsonScalarValue (range : JsVal) : Res JsVal :=
  let value := _getTypeScalarValue range in
  if negb (truthy value)
  then
    type <- _computeScalarType range ;;
    Ok (zero_of_type type)
  else
    let dt := prop range (_getAmfKey ns.shacl_datatype) in
    if negb (truthy dt) then Ok (js_or value (JStr ""))
    else
      i <- js_get (unwrap dt) "@id" ;;
      Ok (_typeToValue value i).

Definition _dataNameFromKey (key : string) : string :=
  match Str.indexOf key "#" with
  | Some index => Str.substr (index + 1) key
  | None =>
      match Str.indexOf key ":" with
      | Some index => Str.substr (index + 1) key
      | None => key
      end
  end.

Definition _readDataType (shape : JsVal) : Res JsVal :=
  let dataType := prop shape (_getAmfKey ns.shacl_datatype) in
  if negb (truthy dataType) then Ok JUndef
  else
    i <- js_get (unwrap dataType) "@id" ;;
    match i with
    | JStr s => Ok (JStr (_dataNameFromKey s))
    | JArr l =>
        (* an array answers [indexOf] and has no [substr] *)
        if existsb (fun x => strict_eq_str x "#" || strict_eq_str x ":") l
        then Throw else Ok i
    | _ => Throw
    end.

(** ** JSON from a structured value *)

(** The elements visited by [for (i = 0; i < items.length; i++)]. *)
Definition indexed_items (items : JsVal) : Res (list JsVal) :=
  match items with
  | JUndef | JNull => Throw
  | JArr l => Ok l
  | JStr s => Ok (map (fun c => JStr (String c EmptyString)) (Str.chars s))
  | _ => Ok []
  end.

(** [Object.keys(o)]. *)
Definition object_keys (o : JsVal) : list string :=
  match o with
  | JObj fs => map fst fs
  | _ => []
  end.

(** [obj[obj.length] = v] on an array, [obj[key] = v] on an object. *)
Definition js_push (obj : JsVal) (v : JsVal) : JsVal :=
  match obj with
  | JArr l => JArr (l ++ [v])%list
  | _ => obj
  end.

Definition js_set (obj : JsVal) (key : string) (v : JsVal) : JsVal :=
  match obj with
  | JObj fs => JObj (set_field key v fs)
  | _ => obj
  end.

Definition _jsonFromStructureValue (jsonFromStructure : JsVal -> Res JsVal)
    (value : JsVal) (obj : JsVal) (isArray : bool)
    (key : string) (resolvedPrefix : string) : Res JsVal :=
  let value := unwrap value in
  tmp <- jsonFromStructure value ;;
  match tmp with
  | JUndef => Ok obj
  | _ =>
      if isArray then Ok (js_push obj tmp)
      else
        let key := Str.replace_first resolvedPrefix "" key in
        let key := match key with
                   | String ":" rest => rest
                   | _ => key
                   end in
        let key := match decodeURIComponent P key with
                   | Some k => k
                   | None => key
                   end in
        Ok (js_set obj key tmp)
  end.

Fixpoint _jsonFromStructure_fuel (fuel : nat) (structure : JsVal) : Res JsVal :=
  match fuel with
  | O => OutOfFuel
  | S fuel' =>
      if negb (truthy structure) then Ok JUndef
      else if _hasType structure ns.data_Scalar then _getTypedValue structure
      else
        let shape :=
          if _hasType structure ns.data_Object then Some (JObj [], false)
          else if _hasType structure ns.data_Array then Some (JArr [], true)
          else None in
        match shape with
        | None => Ok JUndef
        | Some (obj, isArray) =>
            if isArray && _hasProperty structure ns.rdfSchema_member
            then
              let key := _getAmfKey ns.rdfSchema_member in
              items <- indexed_items (prop structure key) ;;
              foldM (fun obj item =>
                       _jsonFromStructureValue (_jsonFromStructure_fuel fuel')
                         item obj isArray "" "")
                    obj items
            else
              let resolvedPrefix := _getAmfKey ns.data in
              foldM (fun obj key =>
                       if negb (Str.startsWith key resolvedPrefix) then Ok obj
                       else
                         _jsonFromStructureValue (_jsonFromStructure_fuel fuel')
                           (prop structure key) obj isArray key resolvedPrefix)
                    obj (object_keys structure)
        end
  end.

Definition _jsonFromStructure (structure : JsVal) : Res JsVal :=
  _jsonFromStructure_fuel (S (depth structure)) structure.

(** ** JSON from the properties of a type *)

Definition _jsonExampleFromProperties (computeJsonProperyValue : JsVal -> Res JsVal)
    (properties : list JsVal) : Res JsVal :=
  foldM (fun result property =>
           let name := _getValue property ns.shacl_name in
           if negb (truthy name) then Ok result
           else
             let range := prop property (_getAmfKey ns.shapes_range) in
             if negb (truthy range) then Ok result
             else
               let range := unwrap range in
               e <- js_get range (_getAmfKey ns.apiContract_examples) ;;
               match _ensureArray e with
               | Some examples =>
                   let sKey := _getAmfKey ns.document_structuredValue in
                   foldM (fun result example =>
                            structure <- js_get example sKey ;;
                            if negb (truthy structure)
                            then Ok (js_set result (js_to_string name) (JStr ""))
                            else
                              data <- _jsonFromStructure (unwrap structure) ;;
                              match data with
                              | JUndef => Ok result
                              | _ => Ok (js_set result (js_to_string name) data)
                              end)
                         result examples
               | None =>
                   value <- computeJsonProperyValue range ;;
                   let value := match value with
                                | JUndef => JStr ""
                                | _ => value
                                end in
                   Ok (js_set result (js_to_string name) value)
               end)
        (JObj []) properties.

Definition _computeJsonUnionValue (jsonExampleFromProperties : list JsVal -> Res JsVal)
    (range : JsVal) (typeName : JsVal) : Res JsVal :=
  match _ensureArray (prop range (_getAmfKey ns.shapes_anyOf)) with
  | None => Ok JUndef
  | Some alternatives =>
      let pKey := _getAmfKey ns.shacl_property in
      (fix loop (l : list JsVal) : Res JsVal :=
         match l with
         | [] => Ok JUndef
         | item :: l' =>
             let item := _resolve (unwrap item) in
             if truthy typeName
                && negb (strict_eq typeName (_getValue item ns.shacl_name))
             then loop l'
             else if _hasType item ns.shacl_NodeShape
             then match _ensureArray (prop item pKey) with
                  | Some data => jsonExampleFromProperties data
                  | None => loop l'
                  end
             else loop l'
         end) alternatives
  end.

Definition _computeJsonObjectValue (jsonExampleFromProperties : list JsVal -> Res JsVal)
    (range : JsVal) : Res JsVal :=
  match _ensureArray (prop range (_getAmfKey ns.shacl_property)) with
  | Some (p :: ps) => jsonExampleFromProperties (p :: ps)
  | _ => Ok JUndef
  end.

Definition _computeJsonArrayValue (computeJsonProperyValue : JsVal -> Res JsVal)
    (range : JsVal) : Res JsVal :=
  match _ensureArray (prop range (_getAmfKey ns.shapes_items)) with
  | None => Ok JUndef
  | Some items =>
      result <-
        foldM (fun result item =>
                 let item := _resolve (unwrap item) in
                 value <- computeJsonProperyValue item ;;
                 match value with
                 | JUndef => Ok result
                 | _ => Ok (result ++ [value])%list
                 end)
              [] items ;;
      Ok (JArr result)
  end.

Fixpoint _computeJsonProperyValue_fuel (fuel : nat) (range : JsVal) (typeName : JsVal)
  : Res JsVal :=
  match fuel with
  | O => OutOfFuel
  | S fuel' =>
      let value r := _computeJsonProperyValue_fuel fuel' r JUndef in
      if _hasType range ns.shapes_ScalarShape then _computeJsonScalarValue range
      else if _hasType range ns.shapes_UnionShape
      then _computeJsonUnionValue (_jsonExampleFromProperties value) range typeName
      else if _hasType range ns.shacl_NodeShape
      then _computeJsonObjectValue (_jsonExampleFromProperties value) range
      else if _hasType range ns.shapes_ArrayShape
      then _computeJsonArrayValue value range
      else if _hasType range ns.shapes_NilShape then Ok JNull
      else Ok JUndef
  end.

Definition _computeJsonProperyValue (range : JsVal) (typeName : JsVal) : Res JsVal :=
  _computeJsonProperyValue_fuel (S (depth range)) range typeName.

(** [_jsonExampleFromProperties] as the generator calls it. *)
Definition jsonExampleFromProperties (properties : list JsVal) : Res JsVal :=
  _jsonExampleFromProperties (fun r => _computeJsonProperyValue r JUndef) properties.

(** ** The DOM, as far as the generator uses it *)

(** A node variable of the source: an element, or [undefined]. *)
Definition Node := option XmlNode.

(** The production [Name] of XML, on the characters of the documents (code
    units below 256): a name is not empty, starts with a letter, [_] or [:],
    and goes on with these, digits, [-], [.] and the middle dot. *)
Definition name_start_char (c : ascii) : bool :=
  let n := nat_of_ascii c in
  Str.is_lower c || Str.is_upper c || Ascii.eqb c "_" || Ascii.eqb c ":"
  || ((192 <=? n)%nat && (n <=? 214)%nat)
  || ((216 <=? n)%nat && (n <=? 246)%nat)
  || (248 <=? n)%nat.

Definition xml_name_char (c : ascii) : bool :=
  name_start_char c || Str.is_digit c || Ascii.eqb c "-" || Ascii.eqb c "."
  || (nat_of_ascii c =? 183)%nat.

Definition xml_name (name : string) : bool :=
  match name with
  | String c rest => name_start_char c && forallb xml_name_char (Str.chars rest)
  | EmptyString => false
  end.

(** [doc.createElement(name)]: the DOM refuses a name that is not an XML
    name with an [InvalidCharacterError]. *)
Definition createElement (name : string) : Res XmlNode :=
  if xml_name name then Ok (XElement name [] []) else Throw.

(** [doc.documentElement] after [createDocument('', name, null)]: a
    document without root for the empty name, and an error for a name that
    is no XML name or holds a colon (a prefix without namespace). *)
Definition createDocument (name : string) : Res Node :=
  if (name =? "")%string then Ok None
  else if Str.contains name ":" then Throw
  else element <- createElement name ;; Ok (Some element).

(** [node.appendChild(child)]. *)
Definition appendChild (node : Node) (child : Node) : Res Node :=
  match node, child with
  | Some (XElement n a c), Some x => Ok (Some (XElement n a (c ++ [x])%list))
  | _, _ => Throw
  end.

Fixpoint set_attr (k v : string) (attrs : list (string * string))
  : list (string * string) :=
  match attrs with
  | [] => [(k, v)]
  | (k', v') :: attrs' =>
      if (k =? k')%string then (k, v) :: attrs' else (k', v') :: set_attr k v attrs'
  end.

(** [node.setAttribute(name, value)]: the DOM refuses a name that is not
    an XML name with an [InvalidCharacterError]. *)
Definition setAttribute (node : Node) (name value : string) : Res Node :=
  match node with
  | Some (XElement n a c) =>
      if xml_name name then Ok (Some (XElement n (set_attr name value a) c))
      else Throw
  | _ => Throw
  end.

(** A method of [String.prototype] called on a value. *)
Definition as_string (v : JsVal) : Res string :=
  match v with
  | JStr s => Ok s
  | _ => Throw
  end.

Definition name_char (c : ascii) : bool :=
  Str.is_lower c || Str.is_upper c || Str.is_digit c || Ascii.eqb c "-".

(** [name.replace(/[^a-zA-Z0-9-_]/g, '')]. *)
Definition _normalizeXmlTagName (name : string) : string :=
  Str.filter (fun c => name_char c || Ascii.eqb c "_") name.

(** ** XML from a structured value *)

(** [v[0]] on any value. *)
Definition index0 (v : JsVal) : Res JsVal :=
  match v with
  | JUndef | JNull => Throw
  | JArr l => Ok (first l)
  | JStr (String c _) => Ok (JStr (String c EmptyString))
  | JObj _ => Ok (prop v "0")
  | _ => Ok JUndef
  end.

(** [Number(v)] as a value. *)
Definition js_Number (v : JsVal) : JsVal :=
  match js_to_number v with
  | Some z => JNum z
  | None => JNaN
  end.

Fixpoint _computeStructuredExampleValue_fuel (fuel : nat) (model : JsVal) : Res JsVal :=
  match fuel with
  | O => OutOfFuel
  | S fuel' =>
      if negb (truthy model) then Ok JUndef
      else
        match model with
        | JStr _ => Ok model
        | _ =>
            if _hasType model ns.data_Scalar
            then
              let key := _getAmfKey ns.data_value in
              match _ensureArray (prop model key) with
              | None => Throw
              | Some l =>
                  let mValue := first l in
                  value <- js_get mValue "@value" ;;
                  let type := prop mValue "@type" in
                  type <- (if negb (truthy type)
                           then match _ensureArray (prop model (_getAmfKey ns.shacl_datatype)) with
                                | Some t => js_get (first t) "@id"
                                | None => Ok JUndef
                                end
                           else Ok type) ;;
                  if strict_eq_str type ns.xmlSchema_boolean
                  then Ok (JBool (strict_eq_str value "true"))
                  else if strict_eq_str type ns.xmlSchema_integer
                          || strict_eq_str type ns.xmlSchema_long
                          || strict_eq_str type ns.xmlSchema_double
                          || strict_eq_str type ns.xmlSchema_float
                          || strict_eq_str type ns.shapes_number
                  then Ok (js_Number value)
                  else Ok value
              end
            else
              (* _computeExampleFromStructuredValue *)
              let isObject := _hasType model ns.data_Object in
              foldM (fun result key =>
                       if (key =? "@id")%string || (key =? "@type")%string then Ok result
                       else
                         item <- index0 (prop model key) ;;
                         value <- _computeStructuredExampleValue_fuel fuel' item ;;
                         if isObject
                         then
                           let name := match Str.indexOf key "#" with
                                       | Some i => Str.substr (i + 1) key
                                       | None => key
                                       end in
                           Ok (js_set result name value)
                         else Ok (js_push result value))
                    (if isObject then JObj [] else JArr [])
                    (object_keys model)
        end
  end.

Definition _computeStructuredExampleValue (model : JsVal) : Res JsVal :=
  _computeStructuredExampleValue_fuel (S (depth model)) model.

(** The child tag derived from the tag of a collection. *)
Definition singular (name : string) : string :=
  if (Str.last 2 name =? "es")%string then Str.take (String.length name - 2) name
  else if (Str.last 1 name =? "s")%string then Str.take (String.length name - 1) name
  else name.

(** The keys of a value handed to [Object.keys]; a primitive or an array
    has no key that starts with a vocabulary prefix. *)
Definition data_keys (structure : JsVal) : Res (list string) :=
  match structure with
  | JUndef | JNull => Throw
  | _ => Ok (object_keys structure)
  end.

Fixpoint _xmlProcessDataProperty_fuel (fuel : nat) (node : Node)
    (property : JsVal) (name : JsVal) : Res Node :=
  match fuel with
  | O => OutOfFuel
  | S fuel' =>
      if negb (truthy property) || negb (truthy name) then Ok node
      else
        name <- as_string name ;;
        let name := _normalizeXmlTagName name in
        element <- createElement name ;;
        let element := Some element in
        if _hasType property ns.data_Scalar
        then
          value <- _computeStructuredExampleValue property ;;
          element <- match value with
                     | JUndef => Ok element
                     | _ => appendChild element (Some (XText (js_to_string value)))
                     end ;;
          appendChild node element
        else if _hasType property ns.data_Array
        then
          (* _processDataArrayProperties *)
          let childName := singular name in
          let key := _getAmfKey ns.rdfSchema_member in
          match _ensureArray (prop property key) with
          | None => Throw
          | Some items =>
              element <-
                foldM (fun element item =>
                         _xmlProcessDataProperty_fuel fuel' element
                           (unwrap item) (JStr childName))
                      element items ;;
              appendChild node element
          end
        else if _hasType property ns.data_Object
        then
          (* _processDataObjectProperties *)
          let resolvedPrefix := _getAmfKey ns.data in
          element <-
            foldM (fun element key =>
                     if negb (Str.startsWith key resolvedPrefix) then Ok element
                     else
                       _xmlProcessDataProperty_fuel fuel' element
                         (unwrap (prop property key)) (JStr (_dataNameFromKey key)))
                  element (object_keys property) ;;
          appendChild node element
        else
          let v := prop property "@value" in
          if truthy v then appendChild node (Some (XText (js_to_string v)))
          else appendChild node element
  end.

Definition _xmlProcessDataProperty (node : Node) (property : JsVal) (name : JsVal)
  : Res Node :=
  _xmlProcessDataProperty_fuel (S (depth property)) node property name.

Definition nl : string := String (ascii_of_nat 10) EmptyString.

(** ** The pretty printer *)

Inductive LineType : Type := single | closing | opening | other.

Definition transitions (from to : LineType) : Z :=
  match from, to with
  | single, single => 0
  | single, closing => -2
  | single, opening => 0
  | single, other => 0
  | closing, single => 0
  | closing, closing => -2
  | closing, opening => 0
  | closing, other => 0
  | opening, single => 2
  | opening, closing => 0
  | opening, opening => 2
  | opening, other => 2
  | other, single => 0
  | other, closing => -2
  | other, opening => 0
  | other, other => 0
  end.

Fixpoint spaces (n : nat) : string :=
  match n with
  | O => ""
  | S n' => " " ++ spaces n'
  end.

Definition formatXml (xml : string) : string :=
  let xml := regex_replace P "(>)\s*(<)(\/*)" ("$1" ++ nl ++ "$2$3") xml in
  let xml := regex_replace P " *(.*) +\n" ("$1" ++ nl) xml in
  let xml := regex_replace P "(<.+>)(.+\n)" ("$1" ++ nl ++ "$2") xml in
  let lines := Str.split (ascii_of_nat 10) xml in
  let '(formatted, _, _) :=
    fold_left
      (fun (st : string * Z * LineType) (ln : string) =>
         let '(formatted, indent, lastType) := st in
         if regex_test P "\s*<\?xml" ln then (formatted ++ ln ++ nl, indent, lastType)
         else
           let type :=
             if regex_test P "<.+\/>" ln then single
             else if regex_test P "<\/.+>" ln then closing
             else if regex_test P "<[^!].*>" ln then opening
             else other in
           let indent := indent + transitions lastType type in
           let padding := spaces (Z.to_nat indent) in
           match lastType, type with
           | opening, closing =>
               (Str.take (String.length formatted - 1) formatted ++ ln ++ nl,
                indent, type)
           | _, _ => (formatted ++ padding ++ ln ++ nl, indent, type)
           end)
      lines ("", 0, other) in
  formatted.

Definition dquote : string := String (ascii_of_nat 34) EmptyString.

Definition xml_header : string :=
  "<?xml version=" ++ dquote ++ "1.0" ++ dquote
    ++ " encoding=" ++ dquote ++ "UTF-8" ++ dquote ++ "?>".

Definition _xmlFromStructure (structure : JsVal) (opts : Opts) : Res string :=
  typeName <- as_string (js_or (typeName opts) (JStr UNKNOWN_TYPE)) ;;
  let typeName := _normalizeXmlTagName typeName in
  main <- createDocument typeName ;;
  keys <- data_keys structure ;;
  let dataPrefix := _getAmfKey ns.data in
  main <-
    foldM (fun main key =>
             if negb (Str.startsWith key dataPrefix) then Ok main
             else
               let item := unwrap (prop structure key) in
               let name := _dataNameFromKey key in
               _xmlProcessDataProperty main item (JStr name))
          main keys ;;
  let value := serializeToString P main in
  Ok (formatXml (xml_header ++ value)).

(** ** XML from the properties of a type *)

Definition _xmlFromExamples (node : Node) (example : JsVal) (propertyName : JsVal)
  : Res Node :=
  structure <- js_get example (_getAmfKey ns.document_structuredValue) ;;
  let structure := unwrap structure in
  if negb (truthy structure) then Ok node
  else _xmlProcessDataProperty node structure propertyName.

Definition _appendXmlAttribute (node : Node) (property range serialization : JsVal)
  : Res Node :=
  let name := js_or (_getValue serialization ns.shapes_xmlName)
                    (_getValue range ns.shacl_name) in
  if negb (truthy name) then Ok node
  else
    name <- match name with
            | JStr n =>
                Ok (if Str.contains n "?" then Str.replace_first "?" "" n else n)
            | JArr l =>
                (* an array answers [indexOf] and has no [replace] *)
                if existsb (fun x => strict_eq_str x "?") l then Throw
                else Ok (js_to_string name)
            | _ => Throw
            end ;;
    value <- _readDataType range ;;
    let value := js_or value (JStr "") in
    setAttribute node name (js_to_string value).

(** The element is returned next to the node it was appended to. *)
Definition _appendXmlElement (node : Node) (range : JsVal) : Res (Node * Node) :=
  let name := _getValue range ns.shacl_name in
  if negb (truthy name) then Ok (node, None)
  else
    let nodeValue := _getValue range ns.shacl_defaultValueStr in
    let nodeValue :=
      if negb (truthy nodeValue)
      then
        let example := prop range (_getAmfKey ns.apiContract_examples) in
        if truthy example then _extractExampleRawValue example else nodeValue
      else nodeValue in
    let nodeValue := if negb (truthy nodeValue) then JStr " " else nodeValue in
    name <- as_string name ;;
    (* name.replace(/[^a-zA-Z0-9-]*/g, '') *)
    let name := Str.filter name_char name in
    element <- createElement name ;;
    element <- appendChild (Some element)
                           (Some (XText (js_to_string nodeValue))) ;;
    node <- appendChild node element ;;
    Ok (node, element).

(** The tree after the element appended last to [node] has been changed to
    [element]. *)
Definition sync_last (node element : Node) : Node :=
  match node, element with
  | Some (XElement n a c), Some e => Some (XElement n a (removelast c ++ [e])%list)
  | _, _ => node
  end.

Definition _xmlProcessUnionScalarProperty (node : Node) (property shape : JsVal)
  : Res Node :=
  let name := js_or (_getValue property ns.shacl_name) (JStr "unknown") in
  type <- _readDataType shape ;;
  (* the element is created and filled, and is appended nowhere *)
  element <- createElement (js_to_string name) ;;
  _ <- appendChild (Some element) (Some (XText (js_to_string type))) ;;
  Ok node.

Definition _appendXmlElements (xmlProcessProperty : Node -> JsVal -> Res Node)
    (node : Node) (property range : JsVal) : Res Node :=
  let properties := _ensureArray (prop range (_getAmfKey ns.shacl_property)) in
  '(node, element) <- _appendXmlElement node range ;;
  match properties with
  | None => Ok node
  | Some properties =>
      element <- foldM xmlProcessProperty element properties ;;
      Ok (sync_last node element)
  end.

(** The [for] loop of [_appendXmlArray]. *)
Fixpoint array_properties (xmlProcessProperty : Node -> JsVal -> Res Node)
    (isWrapped : JsVal) (node : Node) (properties : list JsVal) : Res Node :=
  match properties with
  | [] => Ok node
  | prop :: rest =>
      if truthy isWrapped
      then
        let name := _getValue prop ns.shacl_name in
        if negb (truthy name)
        then array_properties xmlProcessProperty isWrapped node rest
        else
          element <- createElement (js_to_string name) ;;
          let element := Some element in
          _ <- appendChild node element ;;
          (* node = element: what follows is built inside the element *)
          element <- xmlProcessProperty element prop ;;
          element <- array_properties xmlProcessProperty isWrapped element rest ;;
          appendChild node element
      else
        node <- xmlProcessProperty node prop ;;
        array_properties xmlProcessProperty isWrapped node rest
  end.

Definition _appendXmlArray (xmlProcessProperty : Node -> JsVal -> Res Node)
    (node : Node) (property range : JsVal) (isWrapped : JsVal) : Res Node :=
  let items := _ensureArray (prop range (_getAmfKey ns.shapes_items)) in
  if truthy isWrapped
  then
    '(node, element) <- _appendXmlElement node range ;;
    _ <- appendChild node element ;;
    match items with
    | None => Ok node
    | Some properties =>
        element <- array_properties xmlProcessProperty isWrapped element properties ;;
        Ok (sync_last node element)
    end
  else
    match items with
    | None => Ok node
    | Some properties => array_properties xmlProcessProperty isWrapped node properties
    end.

Fixpoint _xmlProcessProperty_fuel (fuel : nat) (node : Node) (property : JsVal)
  : Res Node :=
  match fuel with
  | O => OutOfFuel
  | S fuel' =>
      if negb (truthy property) then Ok node
      else if _hasType property ns.shacl_NodeShape
      then
        match _ensureArray (prop property (_getAmfKey ns.shacl_property)) with
        | None => Ok node
        | Some properties => foldM (_xmlProcessProperty_fuel fuel') node properties
        end
      else
        let range := prop property (_getAmfKey ns.shapes_range) in
        if negb (truthy range) then Ok node
        else
          let range := unwrap range in
          serialization <- js_get range (_getAmfKey ns.shapes_xmlSerialization) ;;
          let serialization := unwrap serialization in
          match _ensureArray (prop range (_getAmfKey ns.apiContract_examples)) with
          | Some (example :: _) =>
              let name := js_or (_getValue serialization ns.shapes_xmlName)
                                (_getValue range ns.shacl_name) in
              _xmlFromExamples node example name
          | _ =>
              if _hasType range ns.shapes_UnionShape
              then
                match _ensureArray (prop range (_getAmfKey ns.shapes_anyOf)) with
                | None => Ok node
                | Some alternatives =>
                    let shape := first alternatives in
                    if _hasType shape ns.shapes_ScalarShape
                    then _xmlProcessUnionScalarProperty node property shape
                    else _xmlProcessProperty_fuel fuel' node shape
                end
              else
                let isAtribute :=
                  if truthy serialization
                  then _getValue serialization ns.shapes_xmlAttribute
                  else JUndef in
                if truthy isAtribute
                then _appendXmlAttribute node property range serialization
                else
                  let isWrapped :=
                    if truthy serialization
                    then _getValue serialization ns.shapes_xmlWrapped
                    else JBool false in
                  if _hasType range ns.shacl_NodeShape
                  then _appendXmlElements (_xmlProcessProperty_fuel fuel')
                         node property range
                  else if _hasType range ns.shapes_ArrayShape
                  then _appendXmlArray (_xmlProcessProperty_fuel fuel')
                         node property range isWrapped
                  else
                    '(node, _) <- _appendXmlElement node range ;;
                    Ok node
          end
  end.

Definition _xmlProcessProperty (node : Node) (property : JsVal) : Res Node :=
  _xmlProcessProperty_fuel (S (depth property)) node property.

Definition _xmlExampleFromProperties (properties : list JsVal)
    (typeName : JsVal) (parentType : JsVal) : Res string :=
  typeName <- as_string typeName ;;
  let typeName := _normalizeXmlTagName typeName in
  parentType <- (if truthy parentType
                 then p <- as_string parentType ;; Ok (_normalizeXmlTagName p)
                 else Ok "") ;;
  if negb (parentType =? "")%string
  then
    main <- createDocument parentType ;;
    element <- createElement typeName ;;
    let element := Some element in
    _ <- appendChild main element ;;
    element <- foldM _xmlProcessProperty element properties ;;
    doc <- appendChild main element ;;
    Ok (serializeToString P doc)
  else
    main <- createDocument typeName ;;
    doc <- foldM _xmlProcessProperty main properties ;;
    Ok (serializeToString P doc).

(** ** Examples from properties and from a JSON schema *)

(** [mime.indexOf(word) !== -1]; [mime] is a string wherever it is read. *)
Definition mime_has (mime : option string) (word : string) : Res bool :=
  match mime with
  | Some m => Ok (Str.contains m word)
  | None => Throw
  end.

Definition plain_example (v : JsVal) : Example :=
  mkExample (Some false) false false v JUndef JUndef None None.

Definition _exampleFromProperties (properties : list JsVal) (mime : option string)
    (typeName : JsVal) (parentType : JsVal) : Res (option Example) :=
  let typeName := js_or typeName (JStr UNKNOWN_TYPE) in
  isJson <- mime_has mime "json" ;;
  result <-
    (if isJson
     then
       value <- jsonExampleFromProperties properties ;;
       if truthy value then Ok (JSON_stringify P value) else Ok ""
     else
       isXml <- mime_has mime "xml" ;;
       if isXml
       then
         result <- _xmlExampleFromProperties properties typeName parentType ;;
         if negb (result =? "")%string
         then Ok (formatXml (xml_header ++ result))
         else Ok result
       else Ok "") ;;
  if negb (result =? "")%string
  then Ok (Some (plain_example (JStr result)))
  else Ok None.

Definition _exampleFromJsonSchema (schema : JsVal) (jsonSchema : JsVal)
  : Res (list Example) :=
  let properties := _ensureArray (prop schema (_getAmfKey ns.shacl_property)) in
  example <-
    match properties with
    | Some (p :: ps) =>
        let typeName := js_or (_getValue schema ns.shacl_name) (JStr UNKNOWN_TYPE) in
        _exampleFromProperties (p :: ps) (Some "application/json") typeName JUndef
    | _ => Ok None
    end ;;
  match example with
  | Some example => Ok [set_raw jsonSchema (set_hasRaw true example)]
  | None => Ok [mkExample (Some false) false false jsonSchema JUndef JUndef None None]
  end.

(** ** An example node *)

(** The second half of [_generateFromExample], from the lookup of the
    structured value on; [result] is the view model built so far. *)
Definition _generateFromExample_structure (example : JsVal) (isJson isXml : bool)
    (opts : Opts) (result : Example) : Res (option Example) :=
  structure <- js_get example (_getAmfKey ns.document_structuredValue) ;;
  if negb (truthy structure)
  then
    let result := if truthy (raw result)
                  then set_value (raw result) result
                  else set_value (JStr "") result in
    Ok (Some (set_isScalar false result))
  else
    let structure := unwrap structure in
    if _hasType structure ns.data_Scalar
    then
      value <- _getTypedValue structure ;;
      Ok (Some (set_isScalar true (set_value value result)))
    else
      let result := set_isScalar false result in
      if isJson
      then
        data <- _jsonFromStructure structure ;;
        if truthy data
        then
          let data := match typeof data with
                      | TObject => JStr (JSON_stringify P data)
                      | _ => data
                      end in
          Ok (Some (set_value data result))
        else Ok None
      else if isXml
      then
        data <- _xmlFromStructure structure opts ;;
        Ok (Some (set_value (JStr data) result))
      else
        Ok (Some (if truthy (raw result)
                  then set_value (raw result) result
                  else set_value (JStr "") result)).

Definition _generateFromExample (example : JsVal) (mime : option string) (opts : Opts)
  : Res (option Example) :=
  let raw := _getValue example ns.document_raw in
  let raw := if negb (truthy raw) then _getValue example ns.shacl_raw else raw in
  let title := _getValue example ns.core_name in
  title <- (if truthy title
            then match title with
                 | JStr t => Ok (if Str.startsWith t "example_" then JUndef else title)
                 | JArr l => Ok (if strict_eq_str (first l) "example_" then JUndef else title)
                 | _ => Throw
                 end
            else Ok title) ;;
  let hasRaw := truthy raw in
  let result :=
    mkExample None (truthy title) false JUndef
              (if truthy title then title else JUndef) JUndef None None in
  if rawOnly opts && negb (truthy raw) then Ok None
  else if rawOnly opts
  then Ok (Some (set_isScalar false (set_value raw (set_hasRaw false result))))
  else
    isJson <- mime_has mime "json" ;;
    isXml <- (if isJson then Ok false else mime_has mime "xml") ;;
    let synthesize := _generateFromExample_structure example isJson isXml opts in
    if hasRaw
    then
      let usable :=
        if isJson
        then match JSON_parse_typeof P (js_to_string raw) with
             | None => false
             | Some TString | Some TNumber | Some TBoolean => false
             | Some _ => true
             end
        else false in
      if usable
      then Ok (Some (set_isScalar false (set_value raw (set_hasRaw false result))))
      else
        markup <- (if isXml
                   then r <- as_string raw ;;
                        Ok (match Str.head (Str.trim r) with
                            | Some "<"%char => true
                            | _ => false
                            end)
                   else Ok false) ;;
        if markup
        then Ok (Some (set_isScalar false (set_value raw (set_hasRaw false result))))
        else synthesize (set_raw raw (set_hasRaw true result))
    else synthesize result.

Definition _computeFromExamples (examples : list JsVal) (mime : option string)
    (opts : Opts) : Res (option (list Example)) :=
  examples <- _processExamples (JArr examples) ;;
  examples <- _listTypeExamples examples (typeId opts) ;;
  match examples with
  | None => Ok None
  | Some examples =>
      result <-
        foldM (fun result shape =>
                 value <- _generateFromExample shape mime opts ;;
                 match value with
                 | Some value => Ok (result ++ [value])%list
                 | None => Ok result
                 end)
              [] examples ;;
      Ok (Some result)
  end.

(** ** Arrays and unions *)

(** The bracketing of one value of [_processJsonArrayExamples]. *)
Definition bracket (e : Example) : Res Example :=
  match value e with
  | JUndef => Ok e
  | v =>
      c <- index0 v ;;
      if negb (strict_eq_str c "[")
      then
        let v := if strict_eq_str v "" then JStr (dquote ++ dquote) else v in
        Ok (set_value (JStr ("[" ++ js_to_string v ++ "]")) e)
      else Ok e
  end.

Definition _processJsonArrayExamples (examples : list Example) : Res (list Example) :=
  foldM (fun done item =>
           item <-
             match values item with
             | Some vs =>
                 match vs with
                 | [] => Throw
                 | v0 :: rest =>
                     v0 <- bracket v0 ;;
                     Ok (set_values (v0 :: rest) item)
                 end
             | None => bracket item
             end ;;
           Ok (done ++ [item])%list)
        [] examples.

Definition Selector : Type :=
  JsVal -> option string -> Opts -> Res (option (list Example) * Opts).

(** The [for] loop of [_computeExampleArraySchape]. *)
Fixpoint array_items (computeExamples : Selector) (mime : option string)
    (isJson : bool) (items : list JsVal) (opts : Opts)
  : Res (option (list Example) * Opts) :=
  match items with
  | [] => Ok (None, opts)
  | item :: rest =>
      '(result, opts) <- computeExamples item mime opts ;;
      match result with
      | Some result =>
          result <- (if isJson then _processJsonArrayExamples result
                     else Ok result) ;;
          Ok (Some result, opts)
      | None => array_items computeExamples mime isJson rest opts
      end
  end.

Definition _computeExampleArraySchape (computeExamples : Selector)
    (schema : JsVal) (mime : option string) (opts : Opts)
  : Res (option (list Example) * Opts) :=
  match _ensureArray (prop schema (_getAmfKey ns.shapes_items)) with
  | None => Ok (None, opts)
  | Some items =>
      isJson <- mime_has mime "json" ;;
      let opts := with_typeName JUndef (with_parentName (typeName opts) opts) in
      array_items computeExamples mime isJson items opts
  end.

(** The [for] loop of [_computeUnionExamples]; [i] is the index of the head
    of [anyOf] and [vals] is [result.values]. *)
Fixpoint union_alternatives (computeExamples : Selector) (mime : option string)
    (anyOf : list JsVal) (i : nat) (vals : list Example) (opts : Opts)
  : Res (list Example * Opts) :=
  match anyOf with
  | [] => Ok (vals, opts)
  | unionSchape :: rest =>
      let unionSchape := _resolve (unwrap unionSchape) in
      '(data, opts) <- computeExamples unionSchape mime opts ;;
      match data with
      | None => union_alternatives computeExamples mime rest (S i) vals opts
      | Some data =>
          match data with
          | [] => Throw
          | data :: _ =>
              let name := _getValue unionSchape ns.shacl_name in
              let name := if negb (truthy name)
                          then JStr ("Union #" ++ Str.of_nat (i + 1))
                          else name in
              union_alternatives computeExamples mime rest (S i)
                (vals ++ [set_title true name data])%list opts
          end
      end
  end.

Definition _computeUnionExamples (computeExamples : Selector)
    (schema : JsVal) (mime : option string) (opts : Opts)
  : Res (option (list Example) * Opts) :=
  match _ensureArray (prop schema (_getAmfKey ns.shapes_anyOf)) with
  | None => Ok (None, opts)
  | Some anyOf =>
      let result := mkExample (Some false) false true JUndef JUndef JUndef (Some []) None in
      '(vals, opts) <- union_alternatives computeExamples mime anyOf 0%nat [] opts ;;
      match vals with
      | [] => Ok (None, opts)
      | _ => Ok (Some [set_values vals result], opts)
      end
  end.

(** ** The example selector *)

(** The first block of [computeExamples]: options without a type name take
    the name of the shape, unless it is the name of an inline type. *)
Definition name_type (schema : JsVal) (opts : Opts) : Res Opts :=
  if negb (truthy (typeName opts))
  then
    let typeName := _getValue schema ns.shacl_name in
    if truthy typeName
    then match typeName with
         | JStr t =>
             Ok (if Str.startsWith t "amf_inline_type" then opts
                 else with_typeName typeName opts)
         | JArr l =>
             Ok (if strict_eq_str (first l) "amf_inline_type" then opts
                 else with_typeName typeName opts)
         | _ => Throw
         end
    else Ok opts
  else Ok opts.

Fixpoint computeExamples_fuel (fuel : nat) (schema : JsVal) (mime : option string)
    (opts : Opts) : Res (option (list Example) * Opts) :=
  match fuel with
  | O => OutOfFuel
  | S fuel' =>
      if negb (truthy schema) || (negb (str_truthy mime) && negb (rawOnly opts))
      then Ok (None, opts)
      else
        let schema := _resolve schema in
        opts <- name_type schema opts ;;
        match _ensureArray (prop schema (_getAmfKey ns.apiContract_examples)) with
        | Some examples =>
            r <- _computeFromExamples examples mime opts ;;
            Ok (r, opts)
        | None =>
            jsonSchema <- _readJsonSchema schema ;;
            if truthy jsonSchema
            then r <- _exampleFromJsonSchema schema jsonSchema ;; Ok (Some r, opts)
            else if rawOnly opts then Ok (None, opts)
            else
              '(value, opts) <-
                (if _hasType schema ns.shapes_ArrayShape
                 then _computeExampleArraySchape (computeExamples_fuel fuel')
                        schema mime opts
                 else Ok (None, opts)) ;;
              match value with
              | Some value => Ok (Some value, opts)
              | None =>
                  value <-
                    (if _hasType schema ns.apiContract_Example
                     then _generateFromExample schema mime opts
                     else Ok None) ;;
                  match value with
                  | Some value => Ok (Some [value], opts)
                  | None =>
                      if _hasType schema ns.shapes_UnionShape
                      then _computeUnionExamples (computeExamples_fuel fuel')
                             schema mime opts
                      else if noAuto opts then Ok (None, opts)
                      else if _hasType schema ns.shapes_ScalarShape
                      then
                        result <- _computeJsonScalarValue schema ;;
                        Ok (Some [mkExample (Some false) false false result
                                            JUndef JUndef None (Some true)],
                            opts)
                      else
                        match _ensureArray (prop schema (_getAmfKey ns.shacl_property)) with
                        | Some (p :: ps) =>
                            value <- _exampleFromProperties (p :: ps) mime
                                       (typeName opts) (parentName opts) ;;
                            match value with
                            | Some value => Ok (Some [value], opts)
                            | None => Ok (None, opts)
                            end
                        | _ => Ok (None, opts)
                        end
                  end
              end
        end
  end.

Definition computeExamples (schema : JsVal) (mime : option string) (opts : Opts)
  : Res (option (list Example) * Opts) :=
  computeExamples_fuel (S (depth schema)) schema mime opts.

(** ** Payloads *)

Definition generatePayloadExamples (payload : JsVal) (mime : option string)
    (opts : Opts) : Res (option (list Example) * Opts) :=
  if negb (_hasType payload ns.apiContract_Payload) then Ok (None, opts)
  else
    let payload := _resolve payload in
    let schema := prop payload (_getAmfKey ns.shapes_schema) in
    if negb (truthy schema) then Ok (None, opts)
    else
      let schema := unwrap schema in
      let opts := with_typeId (prop payload "@id") opts in
      computeExamples schema mime opts.

Definition generatePayloadsExamples (payloads : JsVal) (media : option string)
    (opts : Opts) : Res (option (list Example) * Opts) :=
  if negb (truthy payloads) || (negb (str_truthy media) && negb (rawOnly opts))
  then Ok (None, opts)
  else
    let payloads := match payloads with JArr l => l | _ => [payloads] end in
    (fix loop (payloads : list JsVal) :=
       match payloads with
       | [] => Ok (None, opts)
       | payload :: rest =>
           let payloadMedia := _getValue payload ns.core_mediaType in
           if str_truthy media
              && negb (match media with
                       | Some m => strict_eq_str payloadMedia m
                       | None => false
                       end)
           then loop rest
           else generatePayloadExamples payload media opts
       end) payloads.

Definition listMedia (payloads : JsVal) : option (list JsVal) :=
  if negb (truthy payloads) then None
  else
    match payloads with
    | JArr l =>
        Some (map (fun p => _getValue (_resolve p) ns.core_mediaType) l)
    | _ =>
        if negb (_hasType payloads ns.apiContract_Payload) then None
        else Some [_getValue payloads ns.core_mediaType]
    end.

End Generator.

(** * A host for closed examples

    An implementation of the platform over expanded documents: vocabulary
    keys are spelled in full, JSON text is classified by the JSON grammar,
    numbers are the integer numerals. *)

Module Host.

Definition is_ws (c : ascii) : bool :=
  let n := nat_of_ascii c in
  (n =? 32)%nat || (n =? 9)%nat || (n =? 10)%nat || (n =? 13)%nat.

Fixpoint skip_ws (l : list ascii) : list ascii :=
  match l with
  | c :: l' => if is_ws c then skip_ws l' else l
  | [] => []
  end.

Definition is_hex (c : ascii) : bool :=
  let n := nat_of_ascii c in
  Str.is_digit c || ((65 <=? n)%nat && (n <=? 70)%nat)
  || ((97 <=? n)%nat && (n <=? 102)%nat).

(** The rest of the text after the closing quote of a JSON string. *)
Fixpoint string_body (l : list ascii) : option (list ascii) :=
  match l with
  | [] => None
  | c :: r =>
      if Ascii.eqb c (ascii_of_nat 34) then Some r
      else if Ascii.eqb c "\"
      then match r with
           | e :: r' =>
               if existsb (Ascii.eqb e)
                    [ascii_of_nat 34; "\"; "/"; "b"; "f"; "n"; "r"; "t"]%char
               then string_body r'
               else if Ascii.eqb e "u"
               then match r' with
                    | h1 :: h2 :: h3 :: h4 :: r'' =>
                        if is_hex h1 && is_hex h2 && is_hex h3 && is_hex h4
                        then string_body r'' else None
                    | _ => None
                    end
               else None
           | [] => None
           end
      else if (nat_of_ascii c <? 32)%nat then None
      else string_body r
  end.

Fixpoint skip_digits (l : list ascii) : list ascii :=
  match l with
  | c :: l' => if Str.is_digit c then skip_digits l' else l
  | [] => []
  end.

(** One or more digits. *)
Definition digits1 (l : list ascii) : option (list ascii) :=
  match l with
  | c :: l' => if Str.is_digit c then Some (skip_digits l') else None
  | [] => None
  end.

(** The rest of the text after a JSON number. *)
Definition number (l : list ascii) : option (list ascii) :=
  let l := match l with
           | "-"%char :: l' => l'
           | _ => l
           end in
  match l with
  | c :: l' =>
      if Str.is_digit c
      then
        let rest := if Ascii.eqb c "0" then l' else skip_digits l' in
        let rest :=
          match rest with
          | "."%char :: r => digits1 r
          | _ => Some rest
          end in
        match rest with
        | Some (e :: r) =>
            if Ascii.eqb e "e" || Ascii.eqb e "E"
            then
              let r := match r with
                       | "+"%char :: r' => r'
                       | "-"%char :: r' => r'
                       | _ => r
                       end in
              digits1 r
            else rest
        | _ => rest
        end
      else None
  | [] => None
  end.

(** The type of the JSON value at the head of the text, and the rest. *)
Fixpoint value (fuel : nat) (l : list ascii) : option (JsType * list ascii) :=
  match fuel with
  | O => None
  | S fuel' =>
      match skip_ws l with
      | "{"%char :: r =>
          match skip_ws r with
          | "}"%char :: r' => Some (TObject, r')
          | r =>
              (fix members (n : nat) (r : list ascii) : option (JsType * list ascii) :=
                 match n with
                 | O => None
                 | S n' =>
                     match skip_ws r with
                     | q :: r1 =>
                         if Ascii.eqb q (ascii_of_nat 34)
                         then
                           match string_body r1 with
                           | Some r2 =>
                               match skip_ws r2 with
                               | ":"%char :: r3 =>
                                   match value fuel' r3 with
                                   | Some (_, r4) =>
                                       match skip_ws r4 with
                                       | ","%char :: r5 => members n' r5
                                       | "}"%char :: r5 => Some (TObject, r5)
                                       | _ => None
                                       end
                                   | None => None
                                   end
                               | _ => None
                               end
                           | None => None
                           end
                         else None
                     | [] => None
                     end
                 end) fuel' r
          end
      | "["%char :: r =>
          match skip_ws r with
          | "]"%char :: r' => Some (TObject, r')
          | r =>
              (fix elements (n : nat) (r : list ascii) : option (JsType * list ascii) :=
                 match n with
                 | O => None
                 | S n' =>
                     match value fuel' r with
                     | Some (_, r1) =>
                         match skip_ws r1 with
                         | ","%char :: r2 => elements n' r2
                         | "]"%char :: r2 => Some (TObject, r2)
                         | _ => None
                         end
                     | None => None
                     end
                 end) fuel' r
          end
      | "t"%char :: "r"%char :: "u"%char :: "e"%char :: r => Some (TBoolean, r)
      | "f"%char :: "a"%char :: "l"%char :: "s"%char :: "e"%char :: r =>
          Some (TBoolean, r)
      | "n"%char :: "u"%char :: "l"%char :: "l"%char :: r => Some (TObject, r)
      | q :: r =>
          if Ascii.eqb q (ascii_of_nat 34)
          then match string_body r with
               | Some r' => Some (TString, r')
               | None => None
               end
          else match number (q :: r) with
               | Some r' => Some (TNumber, r')
               | None => None
               end
      | [] => None
      end
  end.

Definition parse_typeof (text : string) : option JsType :=
  let l := Str.chars text in
  match value (S (length l)) l with
  | Some (t, rest) =>
      match skip_ws rest with
      | [] => Some t
      | _ => None
      end
  | None => None
  end.

(** A quoted JSON string. *)
Definition hex_digit (n : nat) : ascii :=
  if (n <? 10)%nat then ascii_of_nat (48 + n) else ascii_of_nat (87 + n).

Fixpoint escape (l : list ascii) : list ascii :=
  match l with
  | [] => []
  | c :: l' =>
      let n := nat_of_ascii c in
      (if (n =? 34)%nat then ["\"; c]%char
       else if (n =? 92)%nat then ["\"; "\"]%char
       else if (n =? 10)%nat then ["\"; "n"]%char
       else if (n =? 13)%nat then ["\"; "r"]%char
       else if (n =? 9)%nat then ["\"; "t"]%char
       else if (n =? 8)%nat then ["\"; "b"]%char
       else if (n =? 12)%nat then ["\"; "f"]%char
       else if (n <? 32)%nat
       then ["\"; "u"; "0"; "0"; hex_digit (n / 16); hex_digit (n mod 16)]%char
       else [c]) ++ escape l'
  end%list.

Definition quote (s : string) : string :=
  dquote ++ Str.of_chars (escape (Str.chars s)) ++ dquote.

Fixpoint join (sep : string) (l : list string) : string :=
  match l with
  | [] => ""
  | [x] => x
  | x :: l' => x ++ sep ++ join sep l'
  end.

(** [JSON.stringify(v, null, 2)] at an indentation. *)
Fixpoint stringify_at (indent : nat) (v : JsVal) : string :=
  match v with
  | JUndef | JNull | JNaN => "null"
  | JBool true => "true"
  | JBool false => "false"
  | JNum z => Str.of_Z z
  | JStr s => quote s
  | JArr [] => "[]"
  | JArr l =>
      let inner := spaces (indent + 2) in
      "[" ++ nl ++ inner
        ++ join ("," ++ nl ++ inner) (map (stringify_at (indent + 2)) l)
        ++ nl ++ spaces indent ++ "]"
  | JObj fs =>
      let inner := spaces (indent + 2) in
      let members :=
        (fix members (fs : list (string * JsVal)) : list string :=
           match fs with
           | [] => []
           | (k, JUndef) :: fs' => members fs'
           | (k, x) :: fs' =>
               (quote k ++ ": " ++ stringify_at (indent + 2) x) :: members fs'
           end) fs in
      match members with
      | [] => "{}"
      | _ =>
          "{" ++ nl ++ inner ++ join ("," ++ nl ++ inner) members
            ++ nl ++ spaces indent ++ "}"
      end
  end.

Definition stringify (v : JsVal) : string := stringify_at 0 v.

(** [Number(text)] on an integer numeral; blank text is [0]. *)
Fixpoint digits_value (l : list ascii) (acc : Z) : option Z :=
  match l with
  | [] => Some acc
  | c :: l' =>
      if Str.is_digit c
      then digits_value l' (10 * acc + Z.of_nat (nat_of_ascii c - 48))
      else None
  end.

Definition number_of (text : string) : option Z :=
  match Str.chars (Str.trim text) with
  | [] => Some 0
  | "-"%char :: (c :: l) => option_map Z.opp (digits_value (c :: l) 0)
  | "+"%char :: (c :: l) => digits_value (c :: l) 0
  | l => digits_value l 0
  end.

Definition hex_value (c : ascii) : nat :=
  let n := nat_of_ascii c in
  if Str.is_digit c then (n - 48)%nat
  else if (n <? 97)%nat then (n - 55)%nat else (n - 87)%nat.

(** [decodeURIComponent]: percent escapes are decoded byte by byte. *)
Fixpoint decode (l : list ascii) : option (list ascii) :=
  match l with
  | [] => Some []
  | c :: r =>
      if Ascii.eqb c "%"
      then match r with
           | h1 :: h2 :: r' =>
               if is_hex h1 && is_hex h2
               then option_map (cons (ascii_of_nat (16 * hex_value h1 + hex_value h2)))
                               (decode r')
               else None
           | _ => None
           end
      else option_map (cons c) (decode r)
  end.

Definition decode_uri (s : string) : option string :=
  option_map Str.of_chars (decode (Str.chars s)).

(** Markup text of a tree. *)
Fixpoint escape_text (attr : bool) (l : list ascii) : list ascii :=
  match l with
  | [] => []
  | c :: l' =>
      (if Ascii.eqb c "&" then Str.chars "&amp;"
       else if Ascii.eqb c "<" then Str.chars "&lt;"
       else if Ascii.eqb c ">" then Str.chars "&gt;"
       else if attr && Ascii.eqb c (ascii_of_nat 34) then Str.chars "&quot;"
       else [c]) ++ escape_text attr l'
  end%list.

Definition xml_text (attr : bool) (s : string) : string :=
  Str.of_chars (escape_text attr (Str.chars s)).

Fixpoint serialize_node (n : XmlNode) : string :=
  match n with
  | XText s => xml_text false s
  | XElement name attrs children =>
      let attrs :=
        String.concat "" (map (fun a => " " ++ fst a ++ "=" ++ dquote
                                          ++ xml_text true (snd a) ++ dquote) attrs) in
      match children with
      | [] => "<" ++ name ++ attrs ++ "/>"
      | _ =>
          "<" ++ name ++ attrs ++ ">"
            ++ String.concat "" (map serialize_node children)
            ++ "</" ++ name ++ ">"
      end
  end.

Definition serialize (doc : option XmlNode) : string :=
  match doc with
  | Some root => serialize_node root
  | None => ""
  end.

(** The regular expressions of [formatXml], one function each, on text
    whose lines end in a line feed. *)

Definition LF : ascii := ascii_of_nat 10.

(** The first replacement: white space between [>] and [<] becomes one
    line feed. *)
Fixpoint break_tags (pending : option (list ascii)) (l : list ascii) : list ascii :=
  match l with
  | [] => match pending with Some ws => rev ws | None => [] end
  | c :: r =>
      match pending with
      | Some ws =>
          if Ascii.eqb c "<" then LF :: c :: break_tags None r
          else if Str.is_space c then break_tags (Some (c :: ws)) r
          else if Ascii.eqb c ">" then (rev ws ++ c :: break_tags (Some []) r)%list
          else (rev ws ++ c :: break_tags None r)%list
      | None =>
          if Ascii.eqb c ">" then c :: break_tags (Some []) r
          else c :: break_tags None r
      end
  end.

Fixpoint drop_spaces (l : list ascii) : list ascii :=
  match l with
  | " "%char :: l' => drop_spaces l'
  | _ => l
  end.

(** The second replacement on one line that a line feed ends: a line
    with a space at its end loses it and the spaces at its start. *)
Definition trim_line (line : list ascii) : list ascii :=
  match rev line with
  | " "%char :: _ => removelast (drop_spaces line)
  | _ => line
  end.

(** The index of the last [>] of the line that has two characters or more
    before it and one or more after it, counted from the first [<]. *)
Fixpoint last_gt (l : list ascii) (i : nat) (found : option nat) : option nat :=
  match l with
  | [] => found
  | [_] => found
  | c :: r =>
      last_gt r (S i)
        (if Ascii.eqb c ">" && (2 <=? i)%nat then Some i else found)
  end.

Fixpoint from_lt (l : list ascii) : option (list ascii * list ascii) :=
  match l with
  | [] => None
  | c :: r =>
      if Ascii.eqb c "<" then Some ([], l)
      else match from_lt r with
           | Some (before, tag) => Some (c :: before, tag)
           | None => None
           end
  end.

(** The third replacement on one line that a line feed ends: a line feed
    after the last [>] that has text after it. *)
Definition break_content (line : list ascii) : list ascii :=
  match from_lt line with
  | Some (before, tag) =>
      match last_gt tag 0 None with
      | Some j => (before ++ firstn (S j) tag ++ LF :: skipn (S j) tag)%list
      | None => line
      end
  | None => line
  end.

(** A function applied to every line that a line feed ends. *)
Fixpoint on_lines (f : list ascii -> list ascii) (lines : list string) : list string :=
  match lines with
  | [] => []
  | [tail] => [tail]
  | line :: rest => Str.of_chars (f (Str.chars line)) :: on_lines f rest
  end.

Definition replace (re by_ text : string) : string :=
  if (re =? "(>)\s*(<)(\/*)")%string
  then Str.of_chars (break_tags None (Str.chars text))
  else if (re =? " *(.*) +\n")%string
  then join nl (on_lines trim_line (Str.split LF text))
  else if (re =? "(<.+>)(.+\n)")%string
  then join nl (on_lines break_content (Str.split LF text))
  else text.

(** [<] and, [gap] characters or more after it, the text [close]. *)
Fixpoint tag_then (gap : nat) (close : string) (l : list ascii) : bool :=
  match l with
  | [] => false
  | c :: r =>
      (Ascii.eqb c "<" && Str.contains (Str.of_chars (skipn gap r)) close)
      || tag_then gap close r
  end.

Fixpoint close_tag_then (l : list ascii) : bool :=
  match l with
  | "<"%char :: (("/"%char :: r) as r') =>
      (match r with
       | _ :: r2 => Str.contains (Str.of_chars r2) ">"
       | [] => false
       end) || close_tag_then r'
  | _ :: r => close_tag_then r
  | [] => false
  end.

Fixpoint open_tag_then (l : list ascii) : bool :=
  match l with
  | "<"%char :: ((c :: r) as r') =>
      (negb (Ascii.eqb c "!") && Str.contains (Str.of_chars r) ">")
      || open_tag_then r'
  | _ :: r => open_tag_then r
  | [] => false
  end.

Definition test (re text : string) : bool :=
  if (re =? "\s*<\?xml")%string then Str.contains text "<?xml"
  else if (re =? "<.+\/>")%string then tag_then 1 "/>" (Str.chars text)
  else if (re =? "<\/.+>")%string then close_tag_then (Str.chars text)
  else if (re =? "<[^!].*>")%string then open_tag_then (Str.chars text)
  else false.

Definition platform : Platform :=
  mkPlatform (fun k => k) parse_typeof stringify number_of decode_uri
             serialize replace test.

End Host.

(** * Statements

    The notions the properties are stated with. *)

Definition is_undefined (v : JsVal) : bool :=
  match v with JUndef => true | _ => false end.

(** The flags of a plain view model agree with its fields: [raw] is there
    exactly when [hasRaw] is true, [title] exactly when [hasTitle] is. *)
Definition flags_agree (e : Example) : bool :=
  Bool.eqb (negb (is_undefined (raw e)))
           (match hasRaw e with Some true => true | _ => false end)
  && Bool.eqb (negb (is_undefined (title e))) (hasTitle e).

(** A view model under construction: no union, and flags that agree. *)
Definition under_way (e : Example) : Prop :=
  hasUnion e = false /\ flags_agree e = true.

(** The invariant of the output model.  With [hasUnion], [values] is a list
    that is not empty, of view models that satisfy the invariant, and [value]
    and [raw] are absent; without it, [value] is set and the flags agree with
    the fields. *)
Fixpoint invariant (e : Example) : bool :=
  if hasUnion e
  then match values e with
       | Some (v :: vs) => forallb invariant (v :: vs)
       | _ => false
       end
       && is_undefined (value e) && is_undefined (raw e)
  else negb (is_undefined (value e)) && flags_agree e.

(** Every node of the graph under a value, the value included, passes a
    test. *)
Fixpoint all_nodes (test : JsVal -> bool) (v : JsVal) : bool :=
  test v
  && match v with
     | JArr l => forallb (all_nodes test) l
     | JObj fs => forallb (fun field => all_nodes test (snd field)) fs
     | _ => true
     end.

Section Notions.

Variable P : Platform.

(** The media type a payload declares. *)
Definition payload_media (payload : JsVal) : JsVal :=
  _getValue P payload ns.core_mediaType.

Definition declares (media : string) (payload : JsVal) : bool :=
  strict_eq_str (payload_media payload) media.

(** The payloads as a list: one payload stands for the list of it. *)
Definition payload_list (payloads : JsVal) : list JsVal :=
  match payloads with JArr l => l | _ => [payloads] end.

(** A value that answers [indexOf], or is not read as text at all. *)
Definition text_or_falsy (v : JsVal) : bool :=
  match v with
  | JStr _ | JArr _ => true
  | _ => negb (truthy v)
  end.

(** The name of a shape can be read by [computeExamples]. *)
Definition readable_name (schema : JsVal) : bool :=
  text_or_falsy (_getValue P schema ns.shacl_name).

(** The identifier of the datatype a shape declares. *)
Definition declared_datatype (shape : JsVal) : JsVal :=
  let dt := unwrap (prop shape (_getAmfKey P ns.shacl_datatype)) in
  js_or (prop dt "@id") dt.

(** A local name of the datatype vocabulary: not empty, no colon, and no
    capital at its start. *)
Definition local_name (name : string) : bool :=
  match name with
  | String c _ =>
      negb (Str.is_upper c)
      && match Str.indexOf name ":" with None => true | Some _ => false end
  | EmptyString => false
  end.

(** The shape declares the datatype [name] of the XML Schema or of the
    shapes vocabulary, or no datatype at all. *)
Definition declares_datatype (shape : JsVal) (name : option string) : Prop :=
  match name with
  | Some name =>
      local_name name = true
      /\ (declared_datatype shape = JStr (ns.xmlSchema ++ name)
          \/ declared_datatype shape = JStr (ns.shapes ++ name))
  | None => truthy (prop shape (_getAmfKey P ns.shacl_datatype)) = false
  end.

(** The zero-value table of the specification. *)
Definition zero_value_table (datatype : option string) : JsVal :=
  match datatype with
  | Some d =>
      if (d =? "integer") || (d =? "number") || (d =? "long")
         || (d =? "double") || (d =? "float")
      then JNum 0
      else if (d =? "boolean") then JBool false
      else if (d =? "nil") || (d =? "null") then JNull
      else JStr ""
  | None => JStr ""
  end%string.

(** The shape carries no parsed JSON schema. *)
Definition no_json_schema (schema : JsVal) : bool :=
  match _readJsonSchema P schema with
  | Ok j => negb (truthy j)
  | _ => false
  end.

(** A scalar shape, and nothing but a scalar shape, with no declared
    default value and no attached example. *)
Definition bare_scalar (schema : JsVal) : bool :=
  truthy schema
  && _hasType P schema ns.shapes_ScalarShape
  && negb (_hasType P schema ns.shapes_ArrayShape)
  && negb (_hasType P schema ns.apiContract_Example)
  && negb (_hasType P schema ns.shapes_UnionShape)
  && negb (truthy (prop schema (_getAmfKey P ns.apiContract_examples)))
  && negb (truthy (prop schema (_getAmfKey P ns.shacl_defaultValue)))
  && no_json_schema schema
  && readable_name schema.

(** The raw text and the title that [_generateFromExample] reads. *)
Definition example_raw (example : JsVal) : JsVal :=
  let raw := _getValue P example ns.document_raw in
  if negb (truthy raw) then _getValue P example ns.shacl_raw else raw.

Definition example_title (example : JsVal) : JsVal :=
  let title := _getValue P example ns.core_name in
  match title with
  | JStr t => if Str.startsWith t "example_" then JUndef else title
  | JArr l => if strict_eq_str (first l) "example_" then JUndef else title
  | _ => title
  end.

(** The view model of an example before its value is known. *)
Definition titled (title : JsVal) : Example :=
  mkExample None (truthy title) false JUndef
            (if truthy title then title else JUndef) JUndef None None.



(** The structured value that [_generateFromExample] reads on an
    example. *)
Definition structured_value (example : JsVal) : JsVal :=
  unwrap (prop example (_getAmfKey P ns.document_structuredValue)).

(** A structured value that is a scalar node without [data:value]. *)
Definition hollow_scalar (structure : JsVal) : Prop :=
  _hasType P structure ns.data_Scalar = true
  /\ truthy (prop structure (_getAmfKey P ns.data_value)) = false.

(** The structured value of the node, when it is a scalar node, has a
    literal: [_getTypedValue] does not give [undefined] on it. *)
Definition example_has_literal (node : JsVal) : bool :=
  if _hasType P (structured_value node) ns.data_Scalar
  then match _getTypedValue P (structured_value node) with
       | Ok JUndef => false
       | _ => true
       end
  else true.

(** A node that is no stored example and carries none. *)
Definition no_stored_example (node : JsVal) : bool :=
  negb (truthy (prop node (_getAmfKey P ns.apiContract_examples)))
  && negb (_hasType P node ns.apiContract_Example).

(** A node without stored example and without parsed JSON schema, whose
    name can be read. *)
Definition unexampled (node : JsVal) : bool :=
  negb (truthy node)
  || (no_stored_example node && no_json_schema node && readable_name node).

(** Generation came back with a list that holds no view model. *)
Definition empty_result (outcome : option (list Example)) : bool :=
  match outcome with Some [] => true | _ => false end.

(** Generation on the alternatives of a union, in declaration order; the
    options go from one alternative to the next. *)
Fixpoint run_alternatives (compute : Selector) (mime : option string)
    (alternatives : list JsVal) (opts : Opts)
  : Res (list (option (list Example)) * Opts) :=
  match alternatives with
  | [] => Ok ([], opts)
  | alternative :: rest =>
      '(outcome, opts) <- compute (unwrap alternative) mime opts ;;
      '(outcomes, opts) <- run_alternatives compute mime rest opts ;;
      Ok (outcome :: outcomes, opts)
  end.

(** The title of the result of an alternative at a position, counted from
    one among all the alternatives. *)
Definition union_title (alternative : JsVal) (position : nat) : JsVal :=
  let name := _getValue P (unwrap alternative) ns.shacl_name in
  if truthy name then name else JStr ("Union #" ++ Str.of_nat position).

(** The titled results of the alternatives that gave one. *)
Fixpoint survivors (position : nat) (alternatives : list JsVal)
    (outcomes : list (option (list Example))) : list Example :=
  match alternatives, outcomes with
  | alternative :: alternatives', Some (data :: _) :: outcomes' =>
      set_title true (union_title alternative position) data
        :: survivors (S position) alternatives' outcomes'
  | _ :: alternatives', _ :: outcomes' => survivors (S position) alternatives' outcomes'
  | _, _ => []
  end.

(** One view model for the survivors, absent when there is none. *)
Definition union_view (survivors : list Example) : option (list Example) :=
  match survivors with
  | [] => None
  | _ => Some [mkExample (Some false) false true JUndef JUndef JUndef
                         (Some survivors) None]
  end.

End Notions.

(** A call that comes back: with a result or with an error. *)
Definition returns {A : Type} (r : Res A) : Prop := r <> OutOfFuel.

(** * Sample documents

    Expanded documents, for the closed examples. *)

Module Samples.

Definition types (l : list string) : string * JsVal :=
  ("@type", JArr (map JStr l)).
Definition literal (key text : string) : string * JsVal :=
  (key, JArr [JObj [("@value", JStr text)]]).
Definition named (name : string) : string * JsVal :=
  literal ns.shacl_name name.
Definition datatype (iri : string) : string * JsVal :=
  (ns.shacl_datatype, JArr [JObj [("@id", JStr iri)]]).

Definition json : option string := Some "application/json".
Definition xml : option string := Some "application/xml".

(** A scalar shape. *)
Definition scalar (name iri : string) : JsVal :=
  JObj [types [ns.shapes_ScalarShape]; named name; datatype iri].

Definition string_iri : string := ns.xmlSchema ++ "string".

(** An example that its source map tracks to the element [ids]. *)
Definition tracked_example (rawText ids : string) : JsVal :=
  JObj [types [ns.apiContract_Example];
        literal ns.document_raw rawText;
        (ns.docSourceMaps_sources,
         JArr [JObj [(ns.docSourceMaps_trackedElement,
                      JArr [JObj [literal ns.docSourceMaps_value ids]])]])].

(** An integer shape, without and with an example of another payload. *)
Definition count : JsVal := scalar "count" ns.xmlSchema_integer.
Definition count_with_example : JsVal :=
  JObj [types [ns.shapes_ScalarShape]; named "count";
        datatype ns.xmlSchema_integer;
        (ns.apiContract_examples, JArr [tracked_example "7" "amf://id#other"])].

Definition for_payload (id : string) : Opts :=
  mkOpts false false JUndef JUndef (JStr id).

(** A payload. *)
Definition payload (media : string) (schema : JsVal) : JsVal :=
  JObj [("@id", JStr "amf://id#payload");
        types [ns.apiContract_Payload];
        literal ns.core_mediaType media;
        (ns.shapes_schema, JArr [schema])].

(** A union of a text and an integer, and the array of it. *)
Definition text_or_integer : JsVal :=
  JObj [types [ns.shapes_UnionShape];
        (ns.shapes_anyOf,
         JArr [scalar "text" string_iri;
               JObj [types [ns.shapes_ScalarShape]; datatype ns.xmlSchema_integer]])].

Definition array_of (item : JsVal) : JsVal :=
  JObj [types [ns.shapes_ArrayShape]; (ns.shapes_items, JArr [item])].

(** A property with a range, and the element it is rendered into. *)
Definition property_of (range : JsVal) : JsVal :=
  JObj [named "p"; (ns.shapes_range, JArr [range])].

Definition root : Node := Some (XElement "root" [] []).

(** A range that is serialized as an attribute. *)
Definition attribute_range (name : string) : JsVal :=
  JObj [types [ns.shapes_ScalarShape]; named name; datatype string_iri;
        (ns.shapes_xmlSerialization,
         JArr [JObj [(ns.shapes_xmlAttribute, JArr [JObj [("@value", JBool true)]])]])].

(** An example with raw text and no structured value. *)
Definition raw_example (text : string) : JsVal :=
  JObj [types [ns.apiContract_Example]; literal ns.document_raw text].

(** An object shape that was parsed from a JSON schema. *)
Definition schema_backed : JsVal :=
  JObj [types [ns.shacl_NodeShape]; named "Thing";
        (ns.shacl_property, JArr [property_of (scalar "name" string_iri)]);
        (ns.docSourceMaps_sources,
         JArr [JObj [(ns.docSourceMaps_parsedJsonSchema,
                      JArr [JObj [literal ns.docSourceMaps_value "{}"]])]])].

Definition only_stored : Opts := mkOpts false true JUndef JUndef JUndef.

(** A shape with an example whose structured value is a scalar without
    literal. *)
Definition hollow_example : JsVal :=
  JObj [types [ns.apiContract_Example];
        (ns.document_structuredValue, JArr [JObj [types [ns.data_Scalar]]])].

Definition count_with (example : JsVal) : JsVal :=
  JObj [types [ns.shapes_ScalarShape]; named "count";
        datatype ns.xmlSchema_integer;
        (ns.apiContract_examples, JArr [example])].

Definition count_with_hollow_example : JsVal := count_with hollow_example.

(** The same example with raw text that is no JSON. *)
Definition hollow_example_with_raw : JsVal :=
  JObj [types [ns.apiContract_Example];
        literal ns.document_raw "seven";
        (ns.document_structuredValue, JArr [JObj [types [ns.data_Scalar]]])].

(** An example whose structured value is the scalar [7], as a typed
    literal. *)
Definition literal_example : JsVal :=
  JObj [types [ns.apiContract_Example];
        (ns.document_structuredValue,
         JArr [JObj [types [ns.data_Scalar];
                     (ns.data_value,
                      JArr [JObj [("@value", JStr "7");
                                  ("@type", JStr ns.xmlSchema_integer)]])]])].

(** An integer shape whose datatype is written with a prefix. *)
Definition prefixed_count : JsVal := scalar "count" "xsd:integer".

(** An object shape without properties: nothing can be generated for
    it. *)
Definition empty_object : JsVal := JObj [types [ns.shacl_NodeShape]].

Definition unnamed_integer : JsVal :=
  JObj [types [ns.shapes_ScalarShape]; datatype ns.xmlSchema_integer].

(** A union whose first alternative gives no result. *)
Definition nothing_or_integer : JsVal :=
  JObj [types [ns.shapes_UnionShape];
        (ns.shapes_anyOf, JArr [empty_object; unnamed_integer])].

(** An example whose structured value is neither a scalar, an object nor
    an array: no JSON can be made from it. *)
Definition unreadable_example : JsVal :=
  JObj [types [ns.apiContract_Example];
        (ns.document_structuredValue, JArr [JObj [types [ns.data ++ "Link"]]])].

(** A union whose first alternative has this example only. *)
Definition unreadable_or_integer : JsVal :=
  JObj [types [ns.shapes_UnionShape];
        (ns.shapes_anyOf, JArr [count_with unreadable_example; unnamed_integer])].

End Samples.

(** * Further notions *)

(** The switches of the options that the caller sets and the generator
    only reads. *)
Definition same_switches (o o' : Opts) : Prop :=
  rawOnly o' = rawOnly o /\ noAuto o' = noAuto o /\ typeId o' = typeId o.

(** A view model that shows raw text as its value: no [raw] field next to
    it, no union and no scalar mark. *)
Definition shows_raw_text (e : Example) : Prop :=
  truthy (value e) = true
  /\ hasRaw e = Some false /\ raw e = JUndef
  /\ hasUnion e = false /\ values e = None /\ isScalar e = Some false.

(** [kept] is [all] with some of its elements left out, in the same
    order. *)
Inductive subsequence {A : Type} : list A -> list A -> Prop :=
| subsequence_nil : subsequence [] []
| subsequence_skip : forall x kept all,
    subsequence kept all -> subsequence kept (x :: all)
| subsequence_keep : forall x kept all,
    subsequence kept all -> subsequence (x :: kept) (x :: all).

Section FurtherNotions.

Variable P : Platform.

(** The view model that shows the raw text of an example as its value:
    with the title of the example when the author wrote one, no [raw] field,
    no union and no scalar mark. *)
Definition raw_view (example : JsVal) : Example :=
  set_isScalar false
    (set_value (example_raw P example)
       (set_hasRaw false (titled (example_title P example)))).

(** An example that its source maps do not track to an element: it has
    no source map, or its source map has no tracked element. *)
Definition untracked (example : JsVal) : bool :=
  let sm := prop example (_getAmfKey P ns.docSourceMaps_sources) in
  negb (truthy sm)
  || negb (truthy (prop (unwrap sm) (_getAmfKey P ns.docSourceMaps_trackedElement))).

(** The title is one that the author wrote: not a generated
    ["example_..."] name. *)
Definition authored_title (e : Example) : Prop :=
  hasTitle e = truthy (title e)
  /\ forall t, title e = JStr t -> Str.startsWith t "example_" = false.

End FurtherNotions.

(** The one view model of a shape that was parsed from a JSON schema: the
    schema text is its [raw] field next to a value made from the declared
    properties, or its value when no value could be made. *)
Definition carries_schema (jsonSchema : JsVal) (e : Example) : Prop :=
  hasUnion e = false /\ hasTitle e = false /\ title e = JUndef
  /\ ((hasRaw e = Some true /\ raw e = jsonSchema
       /\ exists text, text <> "" /\ value e = JStr text)
      \/ (hasRaw e = Some false /\ raw e = JUndef /\ value e = jsonSchema)).

(** A view model whose value cannot be put in brackets: the value that
    [_processJsonArrayExamples] reads is [null], or the model is a union with
    no value at all. *)
Definition no_text (e : Example) : bool :=
  match values e with
  | Some [] => true
  | Some (v0 :: _) => match value v0 with JNull => true | _ => false end
  | None => match value e with JNull => true | _ => false end
  end.

(** The body of the loop of [_processJsonArrayExamples], on one view
    model. *)
Definition bracket_item (item : Example) : Res Example :=
  match values item with
  | Some vs =>
      match vs with
      | [] => Throw
      | v0 :: rest => v0 <- bracket v0 ;; Ok (set_values (v0 :: rest) item)
      end
  | None => bracket item
  end.

Section ObjectNotions.

Variable P : Platform.

(** The name of a property, as the key of the object. *)
Definition property_key (property : JsVal) : string :=
  js_to_string (_getValue P property ns.shacl_name).

(** A property that is given a value of its own: it has a name and a
    range, and the range has no examples. The name [__proto__] is left
    aside: an assignment to it adds no key to a JavaScript object. *)
Definition plain_property (property : JsVal) : Prop :=
  truthy (_getValue P property ns.shacl_name) = true
  /\ truthy (prop property (_getAmfKey P ns.shapes_range)) = true
  /\ _ensureArray (prop (unwrap (prop property (_getAmfKey P ns.shapes_range)))
                        (_getAmfKey P ns.apiContract_examples)) = None
  /\ property_key property <> "__proto__".

(** The object built from the properties seen so far. *)
Definition object_of (done : list JsVal) (result : JsVal) : Prop :=
  exists fs,
    result = JObj fs
    /\ NoDup (map fst fs)
    /\ (forall k, In k (map fst fs) ->
                  exists p, In p done
                            /\ truthy (_getValue P p ns.shacl_name) = true
                            /\ k = property_key p)
    /\ (forall p, In p done -> plain_property p -> In (property_key p) (map fst fs)).

End ObjectNotions.

Section ScalarNotions.

Variable P : Platform.

(** The keys of the document are the vocabulary IRIs themselves, or are
    compacted to [prefix:name] and hold no [#]. *)
Definition compact_keys : Prop :=
  forall k, amfKey P k = k \/ Str.contains (amfKey P k) "#" = false.

(** The JSON kind of the values of an XML Schema datatype. *)
Definition kind_of_datatype (name : string) : option JsType :=
  (if (name =? "integer") || (name =? "number") || (name =? "long")
     || (name =? "double") || (name =? "float")
  then Some TNumber
  else if (name =? "boolean") then Some TBoolean
  else None)%string.

End ScalarNotions.

Section StructureNotions.

Variable P : Platform.

(** The key that [_jsonFromStructureValue] gives to the value of a data
    key: the key without the data prefix and without a leading colon,
    decoded when it can be. *)
Definition json_key (key : string) : string :=
  let k := Str.replace_first (_getAmfKey P ns.data) "" key in
  let k := match k with
           | String ":" rest => rest
           | _ => k
           end in
  match decodeURIComponent P k with
  | Some decoded => decoded
  | None => k
  end.

(** A data key of a structured value. *)
Definition data_key (structure : JsVal) (key : string) : Prop :=
  In key (object_keys structure)
  /\ Str.startsWith key (_getAmfKey P ns.data) = true.

(** The JSON value of a structured value that is no scalar, by the type
    of the node. *)
Definition shaped_like (structure : JsVal) (v : JsVal) : Prop :=
  if _hasType P structure ns.data_Object
  then exists fields,
      v = JObj fields
      /\ NoDup (map fst fields)
      /\ (forall k x, In (k, x) fields ->
                      x <> JUndef
                      /\ exists key, data_key structure key /\ k = json_key key)
  else if _hasType P structure ns.data_Array
  then exists items, v = JArr items /\ Forall (fun x => x <> JUndef) items
  else v = JUndef.

End StructureNotions.

(** A normalized name that the DOM accepts as the name of an element: it
    starts with a letter or an underscore. *)
Definition element_name (name : string) : bool :=
  match name with
  | String c _ => Str.is_lower c || Str.is_upper c || Ascii.eqb c "_"
  | EmptyString => false
  end.

(** The tag of the element a node variable holds. *)
Definition tag_of (node : Node) : option string :=
  match node with
  | Some (XElement name _ _) => Some name
  | _ => None
  end.

(** The normalized name of the parent type, empty when there is none. *)
Definition parent_tag (parentType : JsVal) : string :=
  match parentType with
  | JStr p => _normalizeXmlTagName p
  | _ => ""
  end.

(** The tag of the root element of an example made from the properties of
    a type: the parent type when there is one, the type otherwise. *)
Definition root_tag (typeName : string) (parentType : JsVal) : string :=
  if (parent_tag parentType =? "")%string
  then _normalizeXmlTagName typeName
  else parent_tag parentType.

Section MarkupNotions.

Variable P : Platform.

(** A property whose range is a union with a scalar shape as its first
    alternative, and has no examples. *)
Definition scalar_first_union (property : JsVal) : bool :=
  let range := unwrap (prop property (_getAmfKey P ns.shapes_range)) in
  truthy property
  && negb (_hasType P property ns.shacl_NodeShape)
  && truthy (prop property (_getAmfKey P ns.shapes_range))
  && negb (truthy (prop range (_getAmfKey P ns.apiContract_examples)))
  && _hasType P range ns.shapes_UnionShape
  && match _ensureArray (prop range (_getAmfKey P ns.shapes_anyOf)) with
     | Some alternatives => _hasType P (first alternatives) ns.shapes_ScalarShape
     | None => false
     end.

(** The list of examples is no [NamedExamples] wrapper. *)
Definition plain_list (examples : list JsVal) : bool :=
  negb ((length examples =? 1)%nat
        && _hasType P (first examples) ns.document_NamedExamples).

(** The raw text starts with a tag, white space aside. *)
Definition starts_with_tag (text : string) : bool :=
  match Str.head (Str.trim text) with
  | Some "<"%char => true
  | _ => false
  end.

End MarkupNotions.

(** The tag of the root element of a markup example made from a
    structured value: the type name of the options, [unknown-type] when they
    have none. *)
Definition structure_root_tag (opts : Opts) : string :=
  match js_or (typeName opts) (JStr UNKNOWN_TYPE) with
  | JStr t => _normalizeXmlTagName t
  | _ => ""
  end.

Section ArrayNotions.

Variable P : Platform.

(** A shape that has no author examples and no parsed JSON schema. *)
Definition unanswered (schema : JsVal) : bool :=
  truthy schema
  && negb (truthy (prop schema (_getAmfKey P ns.apiContract_examples)))
  && no_json_schema P schema.

(** The shape is named [name], and this is no name of an inline type. *)
Definition named_type (schema : JsVal) (name : string) : Prop :=
  _getValue P schema ns.shacl_name = JStr name
  /\ name <> ""
  /\ Str.startsWith name "amf_inline_type" = false.

(** An array shape, and nothing but an array shape, with one item. *)
Definition array_with_item (schema item : JsVal) : Prop :=
  unanswered schema = true
  /\ _hasType P schema ns.shapes_ArrayShape = true
  /\ _hasType P schema ns.apiContract_Example = false
  /\ _hasType P schema ns.shapes_UnionShape = false
  /\ _hasType P schema ns.shapes_ScalarShape = false
  /\ _ensureArray (prop schema (_getAmfKey P ns.shacl_property)) = None
  /\ _ensureArray (prop schema (_getAmfKey P ns.shapes_items)) = Some [item].

(** An object shape, and nothing but an object shape, with the properties
    [properties]. *)
Definition object_with (schema : JsVal) (properties : list JsVal) : Prop :=
  unanswered schema = true
  /\ _hasType P schema ns.shapes_ArrayShape = false
  /\ _hasType P schema ns.apiContract_Example = false
  /\ _hasType P schema ns.shapes_UnionShape = false
  /\ _hasType P schema ns.shapes_ScalarShape = false
  /\ properties <> []
  /\ _ensureArray (prop schema (_getAmfKey P ns.shacl_property)) = Some properties.

End ArrayNotions.

Section RangeNotions.

Variable P : Platform.

(** The JSON value synthesized for a property, by the type of its range. *)
Definition value_of_range (range : JsVal) (v : JsVal) : Prop :=
  if _hasType P range ns.shapes_ScalarShape
  then _computeJsonScalarValue P range = Ok v
  else if _hasType P range ns.shapes_UnionShape
          || _hasType P range ns.shacl_NodeShape
  then v = JUndef \/ exists fields, v = JObj fields
  else if _hasType P range ns.shapes_ArrayShape
  then v = JUndef
       \/ exists items, v = JArr items /\ Forall (fun x => x <> JUndef) items
  else if _hasType P range ns.shapes_NilShape then v = JNull
  else v = JUndef.

End RangeNotions.

(** * Further sample documents *)

Module Cases.

Definition two_payloads : JsVal :=
  JArr [Samples.payload "application/xml" Samples.count;
        Samples.payload "application/json" Samples.count].

(** An integer shape with an author example of raw text. *)
Definition count_with_raw (text : string) : JsVal :=
  JObj [Samples.types [ns.shapes_ScalarShape]; Samples.named "count";
        Samples.datatype ns.xmlSchema_integer;
        (ns.apiContract_examples, JArr [Samples.raw_example text])].

Definition raw_only : Opts := mkOpts true false JUndef JUndef JUndef.

(** An integer shape with author examples. *)
Definition count_with_examples (examples : list JsVal) : JsVal :=
  JObj [Samples.types [ns.shapes_ScalarShape]; Samples.named "count";
        Samples.datatype ns.xmlSchema_integer;
        (ns.apiContract_examples, JArr examples)].

(** An example with a name. *)
Definition named_example (name text : string) : JsVal :=
  JObj [Samples.types [ns.apiContract_Example];
        Samples.literal ns.core_name name;
        Samples.literal ns.document_raw text].

(** An integer shape with a declared default value. *)
Definition count_with_default (text : string) : JsVal :=
  JObj [Samples.types [ns.shapes_ScalarShape]; Samples.named "count";
        Samples.datatype ns.xmlSchema_integer;
        (ns.shacl_defaultValue,
         JArr [JObj [Samples.literal ns.data_value text]])].

(** A structured value: an object with one scalar member. *)
Definition city : JsVal :=
  JObj [("@id", JStr "amf://id#city");
        Samples.types [ns.data_Object];
        (ns.data ++ "city",
         JArr [JObj [Samples.types [ns.data_Scalar];
                     Samples.literal ns.data_value "Paris"]])].

(** The examples of a shape, in the model of AMF 4. *)
Definition wrapped (examples : list JsVal) : JsVal :=
  JObj [Samples.types [ns.document_NamedExamples];
        (ns.apiContract_examples, JArr examples)].

(** An object shape with one property, and the array of it. *)
Definition person : JsVal :=
  JObj [Samples.types [ns.shacl_NodeShape]; Samples.named "Person";
        (ns.shacl_property,
         JArr [Samples.property_of (Samples.scalar "name" Samples.string_iri)])].

Definition people : JsVal :=
  JObj [Samples.types [ns.shapes_ArrayShape]; Samples.named "People";
        (ns.shapes_items, JArr [person])].

(** A structured scalar with a typed literal. *)
Definition typed_literal (text iri : string) : JsVal :=
  JObj [Samples.types [ns.data_Scalar];
        (ns.data_value, JArr [JObj [("@value", JStr text); ("@type", JStr iri)]])].

End Cases.

(** * Properties *)

(** ** Calls that come back *)

Lemma returns_bind :
  forall (A B : Type) (m : Res A) (k : A -> Res B),
    returns m -> (forall a, m = Ok a -> returns (k a)) -> returns (bind m k).
Proof.
  intros A B m k Hm Hk. destruct m; cbn.
  - apply Hk. reflexivity.
  - discriminate.
  - exfalso. apply Hm. reflexivity.
Qed.

Lemma returns_foldM :
  forall (A S : Type) (f : S -> A -> Res S) (l : list A) (s : S),
    (forall s x, In x l -> returns (f s x)) -> returns (foldM f s l).
Proof.
  intros A S f l. induction l as [| x l IH]; intros s H; cbn.
  - discriminate.
  - apply returns_bind.
    + apply H. left. reflexivity.
    + intros s' _. apply IH. intros s0 y Hy. apply H. right. exact Hy.
Qed.

Lemma returns_js_get : forall o k, returns (js_get o k).
Proof. intros o k. destruct o; discriminate. Qed.

Lemma returns_Ok : forall (A : Type) (a : A), returns (Ok a).
Proof. discriminate. Qed.

Lemma returns_Throw : forall (A : Type), returns (@Throw A).
Proof. discriminate. Qed.

Ltac returns_step :=
  match goal with
  | |- returns (Ok _) => apply returns_Ok
  | |- returns Throw => apply returns_Throw
  | |- returns (js_get _ _) => apply returns_js_get
  | |- returns (bind _ _) => apply returns_bind; [| intros ? ?]
  | |- returns (if ?b then _ else _) => destruct b
  | |- returns (match ?x with _ => _ end) => destruct x
  | |- returns (let '(_, _) := ?x in _) => destruct x
  end.

Ltac by_bits c :=
  destruct c as [[] [] [] [] [] [] [] []]; try discriminate; reflexivity.

Section Properties.

Variable P : Platform.

(** ** Depth of the parts of a value *)

Lemma depth_in :
  forall l x, In x l -> (depth x < depth (JArr l))%nat.
Proof.
  intros l x H. cbn [depth]. induction l as [| y l IH]; [contradiction |].
  cbn [fold_right]. destruct H as [E | H].
  - subst y. lia.
  - specialize (IH H). lia.
Qed.

Lemma depth_assoc :
  forall fs k v, assoc k fs = Some v -> (depth v < depth (JObj fs))%nat.
Proof.
  intros fs k v. cbn [depth]. induction fs as [| [k' v'] fs IH]; cbn; [discriminate |].
  destruct (k =? k')%string.
  - intros E. inversion E. subst v'. lia.
  - intros E. specialize (IH E). lia.
Qed.

Lemma depth_prop :
  forall v k, prop v k = JUndef \/ (depth (prop v k) < depth v)%nat.
Proof.
  intros v k. destruct v as [| | b | z | | t | l | fs]; try (left; reflexivity).
  cbn [prop]. destruct (assoc k fs) as [x |] eqn:E; [| left; reflexivity].
  right. eapply depth_assoc. exact E.
Qed.

Lemma depth_prop_le : forall v k, (depth (prop v k) <= Nat.pred (depth v))%nat.
Proof.
  intros v k. destruct (depth_prop v k) as [E | H]; [rewrite E; cbn |]; lia.
Qed.

Lemma depth_first : forall l, (depth (first l) <= Nat.pred (depth (JArr l)))%nat.
Proof.
  intros l. destruct l as [| x l]; cbn [first nth]; [cbn; lia |].
  pose proof (depth_in (x :: l) x (or_introl eq_refl)). lia.
Qed.

Lemma depth_unwrap : forall v, (depth (unwrap v) <= depth v)%nat.
Proof.
  intros v. destruct v as [| | b | z | | t | l | fs]; cbn [unwrap]; try lia.
  pose proof (depth_first l). lia.
Qed.

Lemma depth_ensureArray :
  forall v l x, _ensureArray v = Some l -> In x l -> (depth x <= depth v)%nat.
Proof.
  intros v l x E H. unfold _ensureArray in E.
  destruct (truthy v); cbn [negb] in E; [| discriminate].
  destruct v as [| | b | z | | t | l' | fs]; inversion E; subst l;
    try (destruct H as [H | []]; subst x; lia).
  pose proof (depth_in l' x H). lia.
Qed.

(** The parts of a shape that a walk goes into are less deep than the
    shape. *)
Lemma depth_member :
  forall v k l x,
    _ensureArray (prop v k) = Some l -> In x l -> (depth (unwrap x) < depth v)%nat.
Proof.
  intros v k l x E H.
  pose proof (depth_ensureArray _ _ _ E H) as H1.
  pose proof (depth_unwrap x) as H2.
  destruct (depth_prop v k) as [Eu | H3]; [| lia].
  rewrite Eu in E. discriminate E.
Qed.

(** ** Tests on every node *)

Section Nodes.

Variable test : JsVal -> bool.
Hypothesis test_undefined : test JUndef = true.

Lemma all_nodes_self : forall v, all_nodes test v = true -> test v = true.
Proof.
  intros v H. destruct v; cbn [all_nodes] in H;
    apply andb_true_iff in H; destruct H as [H _]; exact H.
Qed.

Lemma all_nodes_in :
  forall l x, all_nodes test (JArr l) = true -> In x l -> all_nodes test x = true.
Proof.
  intros l x H Hin. cbn [all_nodes] in H. apply andb_true_iff in H.
  destruct H as [_ H]. rewrite forallb_forall in H. apply H. exact Hin.
Qed.

Lemma all_nodes_prop :
  forall v k, all_nodes test v = true -> all_nodes test (prop v k) = true.
Proof.
  intros v k H.
  assert (U : all_nodes test JUndef = true) by (cbn; rewrite test_undefined; reflexivity).
  destruct v as [| | b | z | | t | l | fs]; try exact U.
  cbn [prop]. cbn [all_nodes] in H. apply andb_true_iff in H. destruct H as [_ H].
  rewrite forallb_forall in H.
  induction fs as [| [k' v'] fs IH]; cbn [assoc]; [exact U |].
  destruct (k =? k')%string.
  - apply (H (k', v')). left. reflexivity.
  - apply IH. intros x Hx. apply H. right. exact Hx.
Qed.

Lemma all_nodes_first :
  forall l, all_nodes test (JArr l) = true -> all_nodes test (first l) = true.
Proof.
  intros l H. destruct l as [| x l]; cbn [first nth].
  - cbn. rewrite test_undefined. reflexivity.
  - apply (all_nodes_in (x :: l)); [exact H | left; reflexivity].
Qed.

Lemma all_nodes_unwrap :
  forall v, all_nodes test v = true -> all_nodes test (unwrap v) = true.
Proof.
  intros v H. destruct v; try exact H. cbn [unwrap]. apply all_nodes_first. exact H.
Qed.

Lemma all_nodes_ensureArray :
  forall v l x, all_nodes test v = true -> _ensureArray v = Some l -> In x l ->
                all_nodes test x = true.
Proof.
  intros v l x H E Hin. unfold _ensureArray in E.
  destruct (truthy v); cbn [negb] in E; [| discriminate].
  destruct v as [| | b | z | | t | l' | fs]; inversion E; subst l;
    try (destruct Hin as [Hin | []]; subst x; exact H).
  apply (all_nodes_in l'); assumption.
Qed.

Lemma all_nodes_member :
  forall v k l x, all_nodes test v = true -> _ensureArray (prop v k) = Some l ->
                  In x l -> all_nodes test x = true.
Proof.
  intros v k l x H E Hin.
  apply (all_nodes_ensureArray (prop v k) l); try assumption.
  apply all_nodes_prop. exact H.
Qed.

End Nodes.

(** ** Entry points with a missing argument *)

(** C10. Both entry points answer a missing argument with an absent
    result: [computeExamples] when the schema is missing (or any falsy
    value), and when the media type is missing while [rawOnly] is not set;
    [generatePayloadsExamples] likewise for its payloads and media type.
    Neither raises an error and the options are left as they were. *)
Theorem missing_argument_is_absent :
  forall (subject : JsVal) (media : option string) (opts : Opts),
    truthy subject = false \/ (str_truthy media = false /\ rawOnly opts = false) ->
    computeExamples P subject media opts = Ok (None, opts)
    /\ generatePayloadsExamples P subject media opts = Ok (None, opts).
Proof.
  intros subject media opts H.
  assert (G : negb (truthy subject) || (negb (str_truthy media) && negb (rawOnly opts)) = true).
  { destruct H as [H | [H1 H2]].
    - rewrite H. reflexivity.
    - rewrite H1, H2. apply orb_true_r. }
  split.
  - unfold computeExamples. cbn [computeExamples_fuel]. rewrite G. reflexivity.
  - unfold generatePayloadsExamples. rewrite G. reflexivity.
Qed.

(** ** Selection of a payload *)

(** C9, as the code has it. [generatePayloadsExamples] hands the first
    payload whose declared media type equals [media] to
    [generatePayloadExamples]; when no payload declares that media type the
    result is absent and no payload is tried, whatever the length of the
    list. *)
Theorem payloads_first_match_or_absent :
  forall (payloads : JsVal) (media : string) (opts : Opts),
    truthy payloads = true ->
    media <> "" ->
    generatePayloadsExamples P payloads (Some media) opts =
      match find (declares P media) (payload_list payloads) with
      | Some payload => generatePayloadExamples P payload (Some media) opts
      | None => Ok (None, opts)
      end.
Proof.
  intros payloads media opts Ht Hm.
  unfold generatePayloadsExamples.
  assert (Hs : str_truthy (Some media) = true).
  { cbn. destruct (String.eqb_spec media ""); [contradiction | reflexivity]. }
  rewrite Ht, Hs. cbn [negb orb andb].
  fold (payload_list payloads).
  induction (payload_list payloads) as [| p l IH].
  - reflexivity.
  - cbn [find]. unfold declares at 1, payload_media.
    destruct (strict_eq_str (_getValue P p ns.core_mediaType) media); cbn.
    + reflexivity.
    + exact IH.
Qed.

(** ** Author examples of another payload *)

Lemma name_type_readable :
  forall schema opts,
    readable_name P schema = true ->
    exists opts',
      name_type P schema opts = Ok opts'
      /\ rawOnly opts' = rawOnly opts /\ noAuto opts' = noAuto opts
      /\ typeId opts' = typeId opts.
Proof.
  intros schema opts H. unfold name_type, readable_name in *.
  destruct (truthy (typeName opts)); cbn [negb].
  2:{
    destruct (truthy (_getValue P schema ns.shacl_name)) eqn:Ht.
    - destruct (_getValue P schema ns.shacl_name) as [| | b | z | | t | l | fs];
        cbn [text_or_falsy] in H; try (rewrite Ht in H; discriminate H).
      + destruct (Str.startsWith t "amf_inline_type"); eexists; repeat split.
      + destruct (strict_eq_str (first l) "amf_inline_type"); eexists; repeat split.
    - eexists; repeat split. }
  eexists; repeat split.
Qed.

(** C2, as the code has it. When a shape carries author examples and the
    filter by [typeId] keeps none of them, [computeExamples] returns absent at
    the author-examples step; none of the later steps (JSON schema, array,
    example, union, synthesis) is tried. *)
Theorem unmatched_examples_are_absent :
  forall (schema : JsVal) (mime : option string) (opts : Opts)
         (examples : list JsVal) (selected : option (list JsVal)),
    truthy schema = true ->
    str_truthy mime = true \/ rawOnly opts = true ->
    readable_name P schema = true ->
    truthy (typeId opts) = true ->
    _ensureArray (prop schema (_getAmfKey P ns.apiContract_examples)) = Some examples ->
    _processExamples P (JArr examples) = Ok selected ->
    _listTypeExamples P selected (typeId opts) = Ok None ->
    exists opts', computeExamples P schema mime opts = Ok (None, opts').
Proof.
  intros schema mime opts examples selected Hs Hm Hn Hid He Hp Hl.
  unfold computeExamples. cbn [computeExamples_fuel].
  assert (G : negb (truthy schema) || (negb (str_truthy mime) && negb (rawOnly opts)) = false).
  { rewrite Hs. destruct Hm as [Hm | Hm]; rewrite Hm; cbn; try reflexivity.
    apply andb_false_r. }
  rewrite G. unfold _resolve.
  destruct (name_type_readable schema opts Hn) as (opts' & E & _ & _ & Hid').
  rewrite E. cbn [bind]. rewrite He.
  unfold _computeFromExamples. rewrite Hp. cbn [bind].
  rewrite Hid', Hl. cbn [bind]. eexists; reflexivity.
Qed.

(** ** Names in the markup *)

Lemma filter_chars :
  forall (f : ascii -> bool) (s : string) (c : ascii),
    In c (Str.chars (Str.filter f s)) <-> In c (Str.chars s) /\ f c = true.
Proof.
  intros f s c. unfold Str.filter, Str.chars, Str.of_chars.
  rewrite list_ascii_of_string_of_list_ascii. apply filter_In.
Qed.

Lemma normalized_has_no_mark :
  forall name, ~ In "?"%char (Str.chars (_normalizeXmlTagName name)).
Proof.
  intros name H. apply filter_chars in H. destruct H as [_ H]. discriminate H.
Qed.

Lemma element_name_has_no_mark :
  forall name, ~ In "?"%char (Str.chars (Str.filter name_char name)).
Proof.
  intros name H. apply filter_chars in H. destruct H as [_ H]. discriminate H.
Qed.

Lemma nonempty_truthy : forall n, n <> "" -> truthy (JStr n) = true.
Proof.
  intros n H. cbn. destruct (String.eqb_spec n ""); [contradiction | reflexivity].
Qed.

Lemma xml_name_has_no_mark :
  forall name, xml_name name = true -> ~ In "?"%char (Str.chars name).
Proof.
  intros name H Hin. destruct name as [| c rest]; [discriminate H |].
  cbn [xml_name] in H. apply andb_true_iff in H. destruct H as [Hc Hr].
  destruct Hin as [Hin | Hin].
  - subst c. discriminate Hc.
  - rewrite forallb_forall in Hr. specialize (Hr _ Hin). discriminate Hr.
Qed.

(** C8. The two sanitizers of the markup do not agree.  An element
    appended by [_appendXmlElement] is named by the declared name without the
    characters outside [A-Za-z0-9-]: the underscore is removed as well, so
    [user_name] is rendered as [username], while [_normalizeXmlTagName] (root
    element, elements of a structured value) keeps exactly the characters of
    [A-Za-z0-9_-].  An attribute set by [_appendXmlAttribute] is named by the
    declared name without its first [?], every other character kept.  In both
    places the DOM raises an error when what is left is not an XML name, so
    no name that is set holds a [?], and the declared name [user-name?] gives
    [user-name] in all three places. *)
Theorem markup_names :
  forall (parent : string) (attrs : list (string * string)) (children : list XmlNode)
         (property range serialization : JsVal) (name : string),
    name <> "" ->
    (_getValue P range ns.shacl_name = JStr name ->
     exists text,
       _appendXmlElement P (Some (XElement parent attrs children)) range
       = if xml_name (Str.filter name_char name)
         then Ok (Some (XElement parent attrs
                          (children
                           ++ [XElement (Str.filter name_char name) [] [XText text]])),
                  Some (XElement (Str.filter name_char name) [] [XText text]))
         else Throw)
    /\ (js_or (_getValue P serialization ns.shapes_xmlName)
              (_getValue P range ns.shacl_name) = JStr name ->
        forall type, _readDataType P range = Ok type ->
        _appendXmlAttribute P (Some (XElement parent attrs children))
                            property range serialization
        = if xml_name (Str.replace_first "?" "" name)
          then Ok (Some (XElement parent
                           (set_attr (Str.replace_first "?" "" name)
                                     (js_to_string (js_or type (JStr ""))) attrs)
                           children))
          else Throw)
    /\ (forall c, In c (Str.chars (_normalizeXmlTagName name)) <->
                  In c (Str.chars name) /\ (name_char c || Ascii.eqb c "_") = true)
    /\ (forall c, In c (Str.chars (Str.filter name_char name)) <->
                  In c (Str.chars name) /\ name_char c = true)
    /\ ~ In "?"%char (Str.chars (_normalizeXmlTagName name))
    /\ ~ In "?"%char (Str.chars (Str.filter name_char name))
    /\ (xml_name name = true -> ~ In "?"%char (Str.chars name))
    /\ Str.filter name_char "user-name?" = "user-name"
    /\ Str.replace_first "?" "" "user-name?" = "user-name"
    /\ _normalizeXmlTagName "user-name?" = "user-name"
    /\ Str.filter name_char "user_name" = "username"
    /\ _normalizeXmlTagName "user_name" = "user_name".
Proof.
  intros parent attrs children property range serialization name Hne.
  pose proof (nonempty_truthy name Hne) as Ht.
  split; [| split; [| split; [| split; [| split; [| split; [| split;
    [| repeat split]]]]]]].
  - intros Hn. unfold _appendXmlElement. rewrite Hn, Ht. cbn [negb as_string bind].
    unfold createElement. eexists.
    destruct (xml_name (Str.filter name_char name)); cbn [bind appendChild app];
      reflexivity.
  - intros Hn type Hty. unfold _appendXmlAttribute. rewrite Hn, Ht. cbn [negb bind].
    rewrite Hty. cbn [bind setAttribute].
    unfold Str.replace_first, Str.contains.
    destruct (Str.indexOf name "?"); reflexivity.
  - intros c. apply filter_chars.
  - intros c. apply filter_chars.
  - apply normalized_has_no_mark.
  - apply element_name_has_no_mark.
  - apply xml_name_has_no_mark.
Qed.

(** ** Text *)

Lemma indexOf_from_unfold :
  forall pat s i,
    Str.indexOf_from pat s i =
    if String.prefix pat s then Some i
    else match s with
         | EmptyString => None
         | String _ s' => Str.indexOf_from pat s' (S i)
         end.
Proof. intros pat s i. destruct s; reflexivity. Qed.

Lemma prefix_append : forall p s, String.prefix p (p ++ s) = true.
Proof.
  induction p as [| c p IH]; intros s; cbn.
  - destruct s; reflexivity.
  - destruct (Ascii.ascii_dec c c) as [_ | N]; [apply IH | contradiction].
Qed.

Lemma prefix_split : forall p s, String.prefix p s = true -> exists t, s = p ++ t.
Proof.
  induction p as [| c p IH]; intros s H.
  - exists s. reflexivity.
  - destruct s as [| d s]; cbn in H; [discriminate |].
    destruct (Ascii.ascii_dec c d) as [E | N]; [| discriminate].
    subst d. destruct (IH s H) as [t Et]. exists t. cbn. rewrite <- Et. reflexivity.
Qed.

Lemma chars_append :
  forall a b, Str.chars (a ++ b) = (Str.chars a ++ Str.chars b)%list.
Proof.
  induction a as [| c a IH]; intros b; cbn; [reflexivity |].
  unfold Str.chars in IH. rewrite IH. reflexivity.
Qed.

Lemma indexOf_prefix : forall p s, Str.indexOf (p ++ s) p = Some 0%nat.
Proof.
  intros p s. unfold Str.indexOf. rewrite indexOf_from_unfold, prefix_append.
  reflexivity.
Qed.

Lemma substr_append : forall p s, Str.substr (String.length p) (p ++ s) = s.
Proof.
  induction p as [| c p IH]; intros s; cbn.
  - destruct s; reflexivity.
  - apply IH.
Qed.

(** A pattern with a character that the text lacks does not occur in it. *)
Lemma indexOf_from_lacking :
  forall pat c, In c (Str.chars pat) ->
  forall s i, ~ In c (Str.chars s) -> Str.indexOf_from pat s i = None.
Proof.
  intros pat c Hc. induction s as [| d s IH]; intros i Hn;
    rewrite indexOf_from_unfold.
  - destruct (String.prefix pat "") eqn:E; [| reflexivity].
    apply prefix_split in E. destruct E as [t Et].
    destruct pat; [contradiction | discriminate].
  - destruct (String.prefix pat (String d s)) eqn:E.
    + apply prefix_split in E. destruct E as [t Et].
      exfalso. apply Hn. rewrite Et, chars_append. apply in_or_app. left. exact Hc.
    + apply IH. intros H. apply Hn. right. exact H.
Qed.

Lemma indexOf_char_none :
  forall c s i, Str.indexOf_from (String c "") s i = None -> ~ In c (Str.chars s).
Proof.
  intros c. induction s as [| d s IH]; intros i H; [intros [] |].
  rewrite indexOf_from_unfold in H. cbn in H.
  destruct (Ascii.ascii_dec c d) as [E | N].
  - destruct s; discriminate H.
  - intros [E | Hin]; [congruence |]. exact (IH _ H Hin).
Qed.

Lemma indexOf_lacking :
  forall pat c s, In c (Str.chars pat) -> ~ In c (Str.chars s) ->
                  Str.indexOf s pat = None.
Proof. intros. unfold Str.indexOf. eapply indexOf_from_lacking; eassumption. Qed.

(** ** Zero values of scalars *)

Lemma xmlSchema_not_in_shapes :
  forall name, ~ In ":"%char (Str.chars name) ->
               Str.indexOf (ns.shapes ++ name) ns.xmlSchema = None.
Proof.
  intros name H. unfold Str.indexOf, ns.shapes, ns.xmlSchema.
  cbn. apply indexOf_from_lacking with (c := ":"%char); [| exact H].
  cbn. tauto.
Qed.



Lemma upper_N : forall c, Str.is_upper c = false ->
  Ascii.eqb (Str.upper c) "N" = Ascii.eqb c "n".
Proof. intros c; by_bits c. Qed.
Lemma upper_I : forall c, Str.is_upper c = false ->
  Ascii.eqb (Str.upper c) "I" = Ascii.eqb c "i".
Proof. intros c; by_bits c. Qed.
Lemma upper_L : forall c, Str.is_upper c = false ->
  Ascii.eqb (Str.upper c) "L" = Ascii.eqb c "l".
Proof. intros c; by_bits c. Qed.
Lemma upper_F : forall c, Str.is_upper c = false ->
  Ascii.eqb (Str.upper c) "F" = Ascii.eqb c "f".
Proof. intros c; by_bits c. Qed.
Lemma upper_D : forall c, Str.is_upper c = false ->
  Ascii.eqb (Str.upper c) "D" = Ascii.eqb c "d".
Proof. intros c; by_bits c. Qed.
Lemma upper_B : forall c, Str.is_upper c = false ->
  Ascii.eqb (Str.upper c) "B" = Ascii.eqb c "b".
Proof. intros c; by_bits c. Qed.

(** The [switch] on the capitalized name is the table on the name. *)
Lemma zero_of_capitalized :
  forall c rest,
    Str.is_upper c = false ->
    zero_of_type (Some (String (Str.upper c) rest))
    = zero_value_table (Some (String c rest)).
Proof.
  intros c rest H. unfold zero_of_type, zero_value_table.
  cbn [String.eqb].
  rewrite (upper_N c H), (upper_I c H), (upper_L c H), (upper_F c H),
          (upper_D c H), (upper_B c H).
  destruct (Ascii.eqb c "n") eqn:En, (Ascii.eqb c "i") eqn:Ei,
           (Ascii.eqb c "l") eqn:El, (Ascii.eqb c "f") eqn:Ef,
           (Ascii.eqb c "d") eqn:Ed, (Ascii.eqb c "b") eqn:Eb;
    repeat match goal with
           | E : Ascii.eqb c _ = true |- _ => apply Ascii.eqb_eq in E; subst c
           end;
    try discriminate; cbn [andb orb];
    repeat match goal with
           | |- context [(rest =? ?s)%string] => destruct (rest =? s)%string
           end; reflexivity.
Qed.

Lemma scalar_type_of_local :
  forall shape name,
    local_name name = true ->
    declared_datatype P shape = JStr (ns.xmlSchema ++ name)
    \/ declared_datatype P shape = JStr (ns.shapes ++ name) ->
    exists c rest,
      name = String c rest /\ Str.is_upper c = false
      /\ _computeScalarType P shape = Ok (Some (String (Str.upper c) rest)).
Proof.
  intros shape name Hl Hd.
  destruct name as [| c rest]; [discriminate Hl |].
  cbn [local_name] in Hl. apply andb_true_iff in Hl. destruct Hl as [Hu Hc].
  apply negb_true_iff in Hu.
  destruct (Str.indexOf (String c rest) ":") eqn:Ecolon; [discriminate Hc |].
  pose proof (indexOf_char_none _ _ _ Ecolon) as Hno.
  exists c, rest. split; [reflexivity |]. split; [exact Hu |].
  unfold _computeScalarType. unfold declared_datatype in Hd.
  set (dt := prop shape (_getAmfKey P ns.shacl_datatype)) in *.
  assert (Hdt : truthy dt = true /\ exists i id,
             js_get (unwrap dt) "@id" = Ok i
             /\ (if truthy i then i else unwrap dt) = JStr id
             /\ (id = ns.xmlSchema ++ String c rest \/ id = ns.shapes ++ String c rest)).
  { unfold js_or in Hd.
    assert (Hnn : unwrap dt <> JUndef /\ unwrap dt <> JNull).
    { split; intros E; rewrite E in Hd; cbn in Hd; destruct Hd; discriminate. }
    split.
    - destruct dt as [| | b | z | | t | l | fs]; cbn in Hd, Hnn |- *;
        try reflexivity; try (destruct Hnn; congruence);
        destruct Hd as [Hd | Hd]; inversion Hd; subst; reflexivity.
    - exists (prop (unwrap dt) "@id").
      destruct Hd as [Hd | Hd]; eexists; (split; [| split; [exact Hd | auto]]);
        destruct (unwrap dt); try reflexivity; destruct Hnn; congruence. }
  destruct Hdt as (Ht & i & id & Hi & Hid & Hcase).
  rewrite Ht. cbn [negb]. rewrite Hi. cbn [bind]. rewrite Hid.
  destruct Hcase as [E | E]; subst id.
  - rewrite indexOf_prefix, substr_append.
    rewrite (indexOf_lacking ns.shapes ":"%char (String c rest));
      [| cbn; tauto | exact Hno].
    rewrite Ecolon. reflexivity.
  - rewrite (xmlSchema_not_in_shapes _ Hno).
    rewrite indexOf_prefix, substr_append, Ecolon. reflexivity.
Qed.

Lemma scalar_value_of_bare :
  forall schema datatype,
    truthy (prop schema (_getAmfKey P ns.apiContract_examples)) = false ->
    truthy (prop schema (_getAmfKey P ns.shacl_defaultValue)) = false ->
    declares_datatype P schema datatype ->
    _computeJsonScalarValue P schema = Ok (zero_value_table datatype).
Proof.
  intros schema datatype He Hd Hdt.
  unfold _computeJsonScalarValue, _getTypeScalarValue.
  rewrite Hd, He. cbn [truthy negb].
  destruct datatype as [name |]; cbn [declares_datatype] in Hdt.
  - destruct Hdt as [Hl Hdecl].
    destruct (scalar_type_of_local schema name Hl Hdecl) as (c & rest & En & Hu & Et).
    rewrite Et. cbn [bind]. subst name. rewrite (zero_of_capitalized c rest Hu).
    reflexivity.
  - unfold _computeScalarType. rewrite Hdt. reflexivity.
Qed.

(** A scalar shape, and nothing but a scalar shape, is answered with the
    value of [_computeJsonScalarValue]. *)
Lemma bare_scalar_view :
  forall (schema : JsVal) (mime : option string) (opts : Opts) (v : JsVal),
    bare_scalar P schema = true ->
    str_truthy mime = true ->
    rawOnly opts = false ->
    noAuto opts = false ->
    _computeJsonScalarValue P schema = Ok v ->
    exists opts',
      computeExamples P schema mime opts
      = Ok (Some [mkExample (Some false) false false v JUndef JUndef None (Some true)],
            opts').
Proof.
  intros schema mime opts v Hb Hm Hr Ha Hv.
  unfold bare_scalar in Hb.
  repeat match type of Hb with
         | _ && _ = true => apply andb_true_iff in Hb; destruct Hb as [Hb ?]
         end.
  repeat match goal with
         | H : negb _ = true |- _ => apply negb_true_iff in H
         end.
  match goal with H : no_json_schema P schema = true |- _ =>
    unfold no_json_schema in H;
    destruct (_readJsonSchema P schema) as [j | |] eqn:Ej; try discriminate H;
    apply negb_true_iff in H; rename H into Hj
  end.
  match goal with H : readable_name P schema = true |- _ =>
    destruct (name_type_readable schema opts H) as (opts1 & En & Hr1 & Ha1 & _)
  end.
  exists opts1.
  unfold computeExamples. cbn [computeExamples_fuel].
  rewrite Hb, Hm, Hr. cbn [negb orb andb]. unfold _resolve.
  rewrite En. cbn [bind].
  match goal with H : truthy (prop schema (_getAmfKey P ns.apiContract_examples)) = false |- _ =>
    unfold _ensureArray at 1; rewrite H; cbn [negb]
  end.
  rewrite Ej. cbn [bind]. rewrite Hj, Hr1, Hr.
  repeat match goal with
         | H : _hasType P schema _ = _ |- _ => rewrite H; clear H
         end.
  cbn [bind]. rewrite Ha1, Ha, Hv.
  reflexivity.
Qed.

Lemma bare_scalar_bare :
  forall schema,
    bare_scalar P schema = true ->
    truthy (prop schema (_getAmfKey P ns.apiContract_examples)) = false
    /\ truthy (prop schema (_getAmfKey P ns.shacl_defaultValue)) = false.
Proof.
  intros schema Hb. unfold bare_scalar in Hb.
  repeat match type of Hb with
         | _ && _ = true => apply andb_true_iff in Hb; destruct Hb as [Hb ?]
         end.
  repeat match goal with
         | H : negb _ = true |- _ => apply negb_true_iff in H
         end.
  split; assumption.
Qed.

(** X31. Where the zero-value table holds. A scalar shape with no declared
    default value and no attached example, whose datatype is an IRI of the
    XML Schema or of the shapes vocabulary with a plain local name, or is
    missing, gives one view model whose value is the zero value of the table:
    [0] for integer, number, long, double and float, [false] for boolean,
    [null] for nil and null, and the empty string for any other local name
    and for a shape without a datatype. *)
Theorem scalar_zero_value :
  forall (schema : JsVal) (mime : option string) (opts : Opts)
         (datatype : option string),
    bare_scalar P schema = true ->
    str_truthy mime = true ->
    rawOnly opts = false ->
    noAuto opts = false ->
    declares_datatype P schema datatype ->
    exists opts',
      computeExamples P schema mime opts
      = Ok (Some [mkExample (Some false) false false (zero_value_table datatype)
                            JUndef JUndef None (Some true)],
            opts').
Proof.
  intros schema mime opts datatype Hb Hm Hr Ha Hdt.
  apply bare_scalar_view; try assumption.
  destruct (bare_scalar_bare schema Hb) as [He Hd].
  apply scalar_value_of_bare; assumption.
Qed.

(** The first occurrence of a character is where the text from there on
    starts. *)
Lemma indexOf_from_char :
  forall c s k i,
    Str.indexOf_from (String c "") s k = Some i ->
    (k <= i)%nat /\ exists rest, Str.substr (i - k) s = String c rest.
Proof.
  intros c. induction s as [| d s IH]; intros k i H;
    rewrite indexOf_from_unfold in H; cbn [String.prefix] in H.
  - discriminate H.
  - destruct (Ascii.ascii_dec c d) as [E | N].
    + subst d. assert (Hp : String.prefix "" s = true) by (destruct s; reflexivity).
      rewrite Hp in H. inversion H. subst i. split; [lia |].
      rewrite Nat.sub_diag. exists s. reflexivity.
    + destruct (IH (S k) i H) as (Hle & rest & Hs). split; [lia |].
      exists rest. replace (i - k)%nat with (S (i - S k)) by lia. exact Hs.
Qed.

Lemma scalar_type_of_prefixed :
  forall shape id,
    declared_datatype P shape = JStr id ->
    Str.contains id ns.xmlSchema = false ->
    Str.contains id ns.shapes = false ->
    Str.contains id ":" = true ->
    exists rest, _computeScalarType P shape = Ok (Some (String ":" rest)).
Proof.
  intros shape id Hd Hx Hs Hc.
  unfold Str.contains in Hx, Hs, Hc.
  destruct (Str.indexOf id ns.xmlSchema) eqn:Ex; [discriminate Hx |].
  destruct (Str.indexOf id ns.shapes) eqn:Es; [discriminate Hs |].
  destruct (Str.indexOf id ":") as [index |] eqn:Ec; [| discriminate Hc].
  destruct (indexOf_from_char _ _ _ _ Ec) as (_ & rest & Hsub).
  rewrite Nat.sub_0_r in Hsub.
  exists rest.
  unfold _computeScalarType. unfold declared_datatype in Hd.
  set (dt := prop shape (_getAmfKey P ns.shacl_datatype)) in *.
  assert (Hne : id <> "").
  { intros E. subst id. discriminate Ec. }
  assert (Hdt : truthy dt = true /\ exists i,
             js_get (unwrap dt) "@id" = Ok i
             /\ (if truthy i then i else unwrap dt) = JStr id).
  { unfold js_or in Hd.
    assert (Hnn : unwrap dt <> JUndef /\ unwrap dt <> JNull).
    { split; intros E; rewrite E in Hd; cbn in Hd; discriminate. }
    split.
    - destruct dt as [| | b | z | | t | l | fs]; cbn in Hd, Hnn |- *;
        try reflexivity; try (destruct Hnn; congruence).
      inversion Hd. subst t.
      destruct (String.eqb_spec id ""); [contradiction | reflexivity].
    - exists (prop (unwrap dt) "@id"). split; [| exact Hd].
      destruct (unwrap dt); try reflexivity; destruct Hnn; congruence. }
  destruct Hdt as (Ht & i & Hi & Hid).
  rewrite Ht. cbn [negb]. rewrite Hi. cbn [bind]. rewrite Hid.
  rewrite Ex, Es, Ec, Hsub. reflexivity.
Qed.

(** C4. The table fails for a datatype written with a prefix.  After the
    two vocabulary IRIs are taken off, [_computeScalarType] looks for a colon
    and keeps the text from the colon on, the colon included, so the type it
    gives starts with [:] and is none of the [switch].  A scalar shape with no
    declared default value and no attached example whose datatype identifier
    holds a colon and neither vocabulary IRI, such as [xsd:integer], gets the
    empty string, where the table has [0] for integer. *)
Theorem prefixed_datatype_gives_empty_text :
  forall (schema : JsVal) (mime : option string) (opts : Opts) (id : string),
    bare_scalar P schema = true ->
    str_truthy mime = true ->
    rawOnly opts = false ->
    noAuto opts = false ->
    declared_datatype P schema = JStr id ->
    Str.contains id ns.xmlSchema = false ->
    Str.contains id ns.shapes = false ->
    Str.contains id ":" = true ->
    exists opts',
      computeExamples P schema mime opts
      = Ok (Some [mkExample (Some false) false false (JStr "")
                            JUndef JUndef None (Some true)],
            opts').
Proof.
  intros schema mime opts id Hb Hm Hr Ha Hd Hx Hs Hc.
  apply bare_scalar_view; try assumption.
  destruct (bare_scalar_bare schema Hb) as [He Hdv].
  unfold _computeJsonScalarValue, _getTypeScalarValue.
  rewrite Hdv, He. cbn [truthy negb].
  destruct (scalar_type_of_prefixed schema id Hd Hx Hs Hc) as [rest Et].
  rewrite Et. reflexivity.
Qed.

(** ** An example with raw text, for a JSON target *)

Lemma getTypedValue_returns : forall s, returns (_getTypedValue P s).
Proof. intros s. unfold _getTypedValue. repeat returns_step. Qed.

Lemma indexed_items_depth :
  forall v items x,
    indexed_items v = Ok items -> In x items ->
    (depth x <= Nat.pred (depth v))%nat.
Proof.
  intros v items x E H. destruct v as [| | b | z | | t | l | fs]; cbn in E;
    try discriminate E; inversion E; subst items; try contradiction.
  - apply in_map_iff in H. destruct H as (c & Ec & _). subst x. cbn. lia.
  - pose proof (depth_in l x H). lia.
Qed.

Lemma jsonFromStructure_fuel_returns :
  forall fuel s, (depth s < fuel)%nat -> returns (_jsonFromStructure_fuel P fuel s).
Proof.
  induction fuel as [| fuel IH]; intros s Hd; [lia |].
  cbn [_jsonFromStructure_fuel].
  destruct (negb (truthy s)); [apply returns_Ok |].
  destruct (_hasType P s ns.data_Scalar); [apply getTypedValue_returns |].
  assert (Hstep : forall obj isArray item key prefix,
             (depth item < fuel)%nat ->
             returns (_jsonFromStructureValue P (_jsonFromStructure_fuel P fuel)
                        item obj isArray key prefix)).
  { intros obj isArray item key prefix Hi. unfold _jsonFromStructureValue.
    apply returns_bind.
    - apply IH. pose proof (depth_unwrap item). lia.
    - intros tmp _. repeat returns_step. }
  destruct (_hasType P s ns.data_Object);
    [| destruct (_hasType P s ns.data_Array); [| apply returns_Ok]].
  - cbn [andb]. apply returns_foldM. intros obj key Hk.
    destruct (negb (Str.startsWith key (_getAmfKey P ns.data))); [apply returns_Ok |].
    apply Hstep. pose proof (depth_prop_le s key).
    destruct s; cbn in Hk; try contradiction. cbn [depth] in *. lia.
  - cbn [andb]. destruct (_hasProperty P s ns.rdfSchema_member) eqn:Hp.
    + apply returns_bind.
      * unfold indexed_items. repeat returns_step.
      * intros items Ei. apply returns_foldM. intros obj item Hi.
        apply Hstep.
        pose proof (indexed_items_depth _ _ _ Ei Hi).
        pose proof (depth_prop_le s (_getAmfKey P ns.rdfSchema_member)).
        destruct s; cbn in Hp; try discriminate Hp. cbn [depth] in *. lia.
    + apply returns_foldM. intros obj key Hk.
      destruct (negb (Str.startsWith key (_getAmfKey P ns.data))); [apply returns_Ok |].
      apply Hstep. pose proof (depth_prop_le s key).
      destruct s; cbn in Hk; try contradiction. cbn [depth] in *. lia.
Qed.

Lemma jsonFromStructure_returns : forall s, returns (_jsonFromStructure P s).
Proof. intros s. apply jsonFromStructure_fuel_returns. lia. Qed.



Lemma js_get_truthy : forall o k, truthy o = true -> js_get o k = Ok (prop o k).
Proof. intros o k H. destruct o; try reflexivity; discriminate H. Qed.



(** ** Unions *)

Lemma union_loop :
  forall (compute : Selector) (mime : option string) (alternatives : list JsVal)
         (i : nat) (vals : list Example) (opts : Opts)
         (outcomes : list (option (list Example))) (opts' : Opts),
    run_alternatives compute mime alternatives opts = Ok (outcomes, opts') ->
    union_alternatives P compute mime alternatives i vals opts
    = if existsb empty_result outcomes then Throw
      else Ok ((vals ++ survivors P (S i) alternatives outcomes)%list, opts').
Proof.
  intros compute mime alternatives.
  induction alternatives as [| alt rest IH]; intros i vals opts outcomes opts' Hrun.
  - cbn in Hrun. inversion Hrun. subst. cbn. rewrite app_nil_r. reflexivity.
  - cbn [run_alternatives] in Hrun. cbn [union_alternatives]. unfold _resolve.
    destruct (compute (unwrap alt) mime opts) as [[outcome opts1] | |] eqn:Ec;
      cbn [bind] in Hrun |- *; try discriminate Hrun.
    destruct (run_alternatives compute mime rest opts1) as [[outs opts2] | |] eqn:Er;
      cbn [bind] in Hrun; try discriminate Hrun.
    inversion Hrun. subst outcomes opts2. clear Hrun.
    cbn [existsb].
    destruct outcome as [[| data more] |]; cbn [empty_result orb].
    + reflexivity.
    + rewrite (IH (S i) _ opts1 outs opts' Er).
      destruct (existsb empty_result outs); [reflexivity |].
      cbn [survivors]. unfold union_title.
      replace (i + 1)%nat with (S i) by lia.
      destruct (truthy (_getValue P (unwrap alt) ns.shacl_name)); cbn [negb];
        rewrite <- app_assoc; reflexivity.
    + rewrite (IH (S i) _ opts1 outs opts' Er). reflexivity.
Qed.

(** C6. The union resolver runs generation on the alternatives in the
    order they are declared in, and skips an alternative for which generation
    gives no result.  An alternative for which generation gives an empty list
    is not skipped: the resolver reads the first view model of the list, which
    is not there, and fails with a [TypeError] when it sets its title.
    Otherwise it returns one view model with [hasUnion] true whose values are
    the first results of the alternatives that gave one, in order, each titled
    by the declared name of its alternative, or by ["Union #i"] where [i] is
    the position of the alternative among all of them, counted from one; it
    returns absent when no alternative gave a result. *)
Theorem union_resolver :
  forall (compute : Selector) (schema : JsVal) (mime : option string) (opts : Opts)
         (alternatives : list JsVal)
         (outcomes : list (option (list Example))) (opts' : Opts),
    _ensureArray (prop schema (_getAmfKey P ns.shapes_anyOf)) = Some alternatives ->
    run_alternatives compute mime alternatives opts = Ok (outcomes, opts') ->
    _computeUnionExamples P compute schema mime opts
    = (if existsb empty_result outcomes then Throw
       else Ok (union_view (survivors P 1 alternatives outcomes), opts'))
    /\ (Forall (fun outcome => outcome = None) outcomes ->
        _computeUnionExamples P compute schema mime opts = Ok (None, opts')).
Proof.
  intros compute schema mime opts alternatives outcomes opts' Ha Hrun.
  assert (E : _computeUnionExamples P compute schema mime opts
              = if existsb empty_result outcomes then Throw
                else Ok (union_view (survivors P 1 alternatives outcomes), opts')).
  { unfold _computeUnionExamples. rewrite Ha.
    rewrite (union_loop compute mime alternatives 0 [] opts outcomes opts' Hrun).
    destruct (existsb empty_result outcomes); [reflexivity |].
    cbn [bind app]. unfold union_view.
    destruct (survivors P 1 alternatives outcomes); reflexivity. }
  split; [exact E |].
  intros Hnone. rewrite E.
  assert (Hex : existsb empty_result outcomes = false).
  { clear - Hnone. induction Hnone as [| o os Ho Hos IH]; [reflexivity |].
    subst o. exact IH. }
  rewrite Hex. f_equal. f_equal.
  clear E Hrun Ha Hex. generalize 1%nat as n. revert outcomes Hnone.
  induction alternatives as [| alt rest IH]; intros outcomes Hnone n; [reflexivity |].
  destruct outcomes as [| o os]; [reflexivity |].
  inversion Hnone as [| ? ? Ho Hos]. subst. cbn [survivors].
  apply (IH os Hos (S n)).
Qed.

End Properties.

(** * Generation without synthesis *)

Section Absent.

Variable P : Platform.

Lemma unexampled_undefined : unexampled P JUndef = true.
Proof. reflexivity. Qed.

Lemma depth_item :
  forall v k l x,
    _ensureArray (prop v k) = Some l -> In x l -> (depth x < depth v)%nat.
Proof.
  intros v k l x E H.
  pose proof (depth_ensureArray _ _ _ E H) as H1.
  destruct (depth_prop v k) as [Eu | H3]; [| lia].
  rewrite Eu in E. discriminate E.
Qed.

Lemma str_truthy_some :
  forall mime, str_truthy mime = true -> exists m, mime = Some m.
Proof. intros [m |] H; [exists m; reflexivity | discriminate H]. Qed.

Lemma array_items_absent :
  forall (rec : Selector) (mime : option string) (isJson : bool)
         (items : list JsVal) (opts : Opts),
    (forall x o, In x items -> noAuto o = true ->
                 exists o', rec x mime o = Ok (None, o') /\ noAuto o' = true) ->
    noAuto opts = true ->
    exists o', array_items rec mime isJson items opts = Ok (None, o')
               /\ noAuto o' = true.
Proof.
  intros rec mime isJson items. induction items as [| x items IHi]; intros opts Hrec Ha.
  - exists opts. split; [reflexivity | exact Ha].
  - cbn [array_items].
    destruct (Hrec x opts (or_introl eq_refl) Ha) as (o1 & E1 & Ha1).
    rewrite E1. cbn [bind]. apply IHi; [| exact Ha1].
    intros y o Hy. apply Hrec. right. exact Hy.
Qed.

Lemma union_alternatives_absent :
  forall (rec : Selector) (mime : option string) (alternatives : list JsVal)
         (i : nat) (vals : list Example) (opts : Opts),
    (forall x o, In x alternatives -> noAuto o = true ->
                 exists o', rec (unwrap x) mime o = Ok (None, o') /\ noAuto o' = true) ->
    noAuto opts = true ->
    exists o', union_alternatives P rec mime alternatives i vals opts = Ok (vals, o')
               /\ noAuto o' = true.
Proof.
  intros rec mime alternatives.
  induction alternatives as [| x alternatives IHa]; intros i vals opts Hrec Ha.
  - exists opts. split; [reflexivity | exact Ha].
  - cbn [union_alternatives]. unfold _resolve.
    destruct (Hrec x opts (or_introl eq_refl) Ha) as (o1 & E1 & Ha1).
    rewrite E1. cbn [bind]. apply IHa; [| exact Ha1].
    intros y o Hy. apply Hrec. right. exact Hy.
Qed.

Lemma noAuto_absent_fuel :
  forall (mime : option string) (fuel : nat) (schema : JsVal) (opts : Opts),
    (depth schema < fuel)%nat ->
    noAuto opts = true ->
    all_nodes (unexampled P) schema = true ->
    exists opts',
      computeExamples_fuel P fuel schema mime opts = Ok (None, opts')
      /\ noAuto opts' = true.
Proof.
  intros mime. induction fuel as [| fuel IH]; intros schema opts Hd Ha Hall; [lia |].
  cbn [computeExamples_fuel].
  destruct (negb (truthy schema) || (negb (str_truthy mime) && negb (rawOnly opts)))
    eqn:G; [exists opts; split; [reflexivity | exact Ha] |].
  apply orb_false_iff in G. destruct G as [Gs Gm].
  apply negb_false_iff in Gs.
  pose proof (all_nodes_self _ _ Hall) as Hn. unfold unexampled, no_stored_example in Hn.
  rewrite Gs in Hn. cbn [negb orb] in Hn.
  repeat match type of Hn with
         | _ && _ = true => apply andb_true_iff in Hn; destruct Hn as [Hn ?]
         end.
  repeat match goal with
         | H : negb _ = true |- _ => apply negb_true_iff in H
         end.
  unfold _resolve.
  match goal with H : readable_name P schema = true |- _ =>
    destruct (name_type_readable P schema opts H) as (opts1 & En & Hr1 & Ha1 & _)
  end.
  rewrite En. cbn [bind].
  unfold _ensureArray at 1. rewrite Hn. cbn [negb].
  match goal with H : no_json_schema P schema = true |- _ =>
    unfold no_json_schema in H;
    destruct (_readJsonSchema P schema) as [j | |] eqn:Ej; try discriminate H;
    apply negb_true_iff in H; rename H into Hj
  end.
  cbn [bind]. rewrite Hj.
  assert (Ha1' : noAuto opts1 = true) by congruence.
  destruct (rawOnly opts1) eqn:Er1;
    [exists opts1; split; [reflexivity | exact Ha1'] |].
  assert (Hm : exists m, mime = Some m).
  { apply str_truthy_some. rewrite <- Hr1 in Gm.
    cbn in Gm. rewrite andb_true_r in Gm. apply negb_false_iff in Gm. exact Gm. }
  destruct Hm as [m Hm].
  assert (Harr : exists opts2,
             (if _hasType P schema ns.shapes_ArrayShape
              then _computeExampleArraySchape P (computeExamples_fuel P fuel)
                     schema mime opts1
              else Ok (None, opts1)) = Ok (None, opts2)
             /\ noAuto opts2 = true).
  { destruct (_hasType P schema ns.shapes_ArrayShape);
      [| exists opts1; split; [reflexivity | exact Ha1']].
    unfold _computeExampleArraySchape.
    destruct (_ensureArray (prop schema (_getAmfKey P ns.shapes_items)))
      as [items |] eqn:Ei; [| exists opts1; split; [reflexivity | exact Ha1']].
    rewrite Hm. cbn [mime_has bind]. rewrite <- Hm.
    apply array_items_absent; [| exact Ha1'].
    intros x o Hx Ho. apply IH; [| exact Ho |].
    - pose proof (depth_item _ _ _ _ Ei Hx). lia.
    - eapply all_nodes_member; try eassumption. apply unexampled_undefined. }
  destruct Harr as (opts2 & Earr & Ha2). rewrite Earr. cbn [bind].
  match goal with H : _hasType P schema ns.apiContract_Example = false |- _ =>
    rewrite H
  end.
  cbn [bind].
  destruct (_hasType P schema ns.shapes_UnionShape).
  - unfold _computeUnionExamples.
    destruct (_ensureArray (prop schema (_getAmfKey P ns.shapes_anyOf)))
      as [alternatives |] eqn:Eu; [| exists opts2; split; [reflexivity | exact Ha2]].
    destruct (union_alternatives_absent (computeExamples_fuel P fuel) mime
                alternatives 0%nat [] opts2) as (o3 & E3 & Ha3); [| exact Ha2 |].
    + intros x o Hx Ho. apply IH; [| exact Ho |].
      * pose proof (depth_member _ _ _ _ Eu Hx). lia.
      * apply all_nodes_unwrap; [apply unexampled_undefined |].
        eapply all_nodes_member; try eassumption. apply unexampled_undefined.
    + rewrite E3. cbn [bind]. exists o3. split; [reflexivity | exact Ha3].
  - rewrite Ha2. exists opts2. split; [reflexivity | exact Ha2].
Qed.

(** C3, as the code has it. With [noAuto] set, [computeExamples] returns
    absent, on every path, for a shape in whose graph no node is a stored
    example or carries one, and no node carries a parsed JSON schema (every
    name in the graph being text). *)
Theorem noAuto_without_examples_is_absent :
  forall (schema : JsVal) (mime : option string) (opts : Opts),
    noAuto opts = true ->
    all_nodes (unexampled P) schema = true ->
    exists opts', computeExamples P schema mime opts = Ok (None, opts').
Proof.
  intros schema mime opts Ha Hall.
  destruct (noAuto_absent_fuel mime (S (depth schema)) schema opts) as (o & E & _);
    try assumption; [lia |].
  exists o. exact E.
Qed.

End Absent.

(** * Every walk comes back

    The walks of the generator go down the document: on shapes whose links
    are resolved no nested call is on a node that is not strictly below its
    argument. *)

Section Returns.

Variable P : Platform.

Lemma index0_depth :
  forall v x, index0 v = Ok x -> (depth x <= Nat.pred (depth v))%nat.
Proof.
  intros v x E. destruct v as [| | b | z | | t | l | fs]; cbn in E;
    try discriminate E; try (inversion E; subst x; cbn; lia).
  - destruct t; inversion E; subst x; cbn; lia.
  - inversion E. subst x. apply depth_first.
  - inversion E. subst x. exact (depth_prop_le (JObj fs) "0").
Qed.

Lemma keys_object :
  forall v k, In k (object_keys v) -> (1 <= depth v)%nat.
Proof.
  intros v k H. destruct v; cbn in H; try contradiction. cbn [depth]. lia.
Qed.

Lemma computeStructuredExampleValue_fuel_returns :
  forall fuel model, (depth model < fuel)%nat ->
                     returns (_computeStructuredExampleValue_fuel P fuel model).
Proof.
  induction fuel as [| fuel IH]; intros model Hd; [lia |].
  cbn [_computeStructuredExampleValue_fuel].
  destruct (negb (truthy model)); [apply returns_Ok |].
  assert (Hgen : returns
            (if _hasType P model ns.data_Scalar
             then
               match _ensureArray (prop model (_getAmfKey P ns.data_value)) with
               | Some l =>
                   value <- js_get (first l) "@value" ;;
                   type <- (if negb (truthy (prop (first l) "@type"))
                            then match _ensureArray
                                         (prop model (_getAmfKey P ns.shacl_datatype)) with
                                 | Some t => js_get (first t) "@id"
                                 | None => Ok JUndef
                                 end
                            else Ok (prop (first l) "@type")) ;;
                   (if strict_eq_str type ns.xmlSchema_boolean
                    then Ok (JBool (strict_eq_str value "true"))
                    else if strict_eq_str type ns.xmlSchema_integer
                            || strict_eq_str type ns.xmlSchema_long
                            || strict_eq_str type ns.xmlSchema_double
                            || strict_eq_str type ns.xmlSchema_float
                            || strict_eq_str type ns.shapes_number
                    then Ok (js_Number P value)
                    else Ok value)
               | None => Throw
               end
             else
               foldM (fun result key =>
                        if (key =? "@id")%string || (key =? "@type")%string
                        then Ok result
                        else
                          item <- index0 (prop model key) ;;
                          value <- _computeStructuredExampleValue_fuel P fuel item ;;
                          (if _hasType P model ns.data_Object
                           then Ok (js_set result
                                      match Str.indexOf key "#" with
                                      | Some i => Str.substr (i + 1) key
                                      | None => key
                                      end value)
                           else Ok (js_push result value)))
                     (if _hasType P model ns.data_Object then JObj [] else JArr [])
                     (object_keys model))).
  { destruct (_hasType P model ns.data_Scalar).
    - repeat returns_step.
    - apply returns_foldM. intros result key Hk.
      destruct ((key =? "@id")%string || (key =? "@type")%string); [apply returns_Ok |].
      apply returns_bind; [unfold index0; repeat returns_step |].
      intros item Ei. apply returns_bind.
      + apply IH. pose proof (index0_depth _ _ Ei).
        pose proof (depth_prop_le model key). pose proof (keys_object _ _ Hk). lia.
      + intros value _. repeat returns_step. }
  destruct model; exact Hgen || apply returns_Ok.
Qed.

Lemma computeStructuredExampleValue_returns :
  forall model, returns (_computeStructuredExampleValue P model).
Proof. intros. apply computeStructuredExampleValue_fuel_returns. lia. Qed.

Lemma appendChild_returns : forall n c, returns (appendChild n c).
Proof. intros n c. unfold appendChild. repeat returns_step. Qed.

Lemma createElement_returns : forall name, returns (createElement name).
Proof. intros name. unfold createElement. repeat returns_step. Qed.

Lemma createDocument_returns : forall name, returns (createDocument name).
Proof.
  intros name. unfold createDocument. repeat returns_step.
  apply createElement_returns.
Qed.

Lemma xmlProcessDataProperty_fuel_returns :
  forall fuel node property name,
    (depth property < fuel)%nat ->
    returns (_xmlProcessDataProperty_fuel P fuel node property name).
Proof.
  induction fuel as [| fuel IH]; intros node property name Hd; [lia |].
  cbn [_xmlProcessDataProperty_fuel].
  destruct (negb (truthy property) || negb (truthy name)); [apply returns_Ok |].
  apply returns_bind; [unfold as_string; repeat returns_step |].
  intros n _.
  apply returns_bind; [apply createElement_returns |]. intros el _.
  destruct (_hasType P property ns.data_Scalar).
  { apply returns_bind; [apply computeStructuredExampleValue_returns |].
    intros v _. apply returns_bind.
    - destruct v; try apply returns_Ok; apply appendChild_returns.
    - intros e _. apply appendChild_returns. }
  destruct (_hasType P property ns.data_Array).
  { destruct (_ensureArray (prop property (_getAmfKey P ns.rdfSchema_member)))
      as [items |] eqn:Ei; [| apply returns_Throw].
    apply returns_bind; [| intros e _; apply appendChild_returns].
    apply returns_foldM. intros e item Hi. apply IH.
    pose proof (depth_member _ _ _ _ Ei Hi). lia. }
  destruct (_hasType P property ns.data_Object).
  { apply returns_bind; [| intros e _; apply appendChild_returns].
    apply returns_foldM. intros e key Hk.
    destruct (negb (Str.startsWith key (_getAmfKey P ns.data))); [apply returns_Ok |].
    apply IH. pose proof (depth_unwrap (prop property key)).
    pose proof (depth_prop_le property key). pose proof (keys_object _ _ Hk). lia. }
  destruct (truthy (prop property "@value")); apply appendChild_returns.
Qed.

Lemma xmlProcessDataProperty_returns :
  forall node property name, returns (_xmlProcessDataProperty P node property name).
Proof. intros. apply xmlProcessDataProperty_fuel_returns. lia. Qed.

Lemma getTypeScalar_returns : forall r, returns (_computeJsonScalarValue P r).
Proof.
  intros r. unfold _computeJsonScalarValue, _computeScalarType.
  repeat returns_step.
Qed.

Lemma jsonExampleFromProperties_returns :
  forall (value : JsVal -> Res JsVal) (bound : nat) (properties : list JsVal),
    (forall r, (depth r < bound)%nat -> returns (value r)) ->
    (forall p, In p properties -> (depth p <= bound)%nat) ->
    returns (_jsonExampleFromProperties P value properties).
Proof.
  intros value bound properties Hv Hp. unfold _jsonExampleFromProperties.
  apply returns_foldM. intros result property Hin.
  destruct (negb (truthy (_getValue P property ns.shacl_name))); [apply returns_Ok |].
  destruct (negb (truthy (prop property (_getAmfKey P ns.shapes_range)))) eqn:Er;
    [apply returns_Ok |].
  apply returns_bind; [apply returns_js_get |]. intros e _.
  destruct (_ensureArray e) as [examples |].
  - apply returns_foldM. intros res example _.
    apply returns_bind; [apply returns_js_get |]. intros structure _.
    destruct (negb (truthy structure)); [apply returns_Ok |].
    apply returns_bind; [apply jsonFromStructure_returns |].
    intros data _. repeat returns_step.
  - apply returns_bind; [| intros v _; apply returns_Ok].
    apply Hv.
    pose proof (Hp property Hin).
    pose proof (depth_unwrap (prop property (_getAmfKey P ns.shapes_range))).
    destruct (depth_prop property (_getAmfKey P ns.shapes_range)) as [Eu | Hlt]; [| lia].
    rewrite Eu in Er. discriminate Er.
Qed.

Lemma computeJsonProperyValue_fuel_returns :
  forall fuel range typeName,
    (depth range < fuel)%nat ->
    returns (_computeJsonProperyValue_fuel P fuel range typeName).
Proof.
  induction fuel as [| fuel IH]; intros range typeName Hd; [lia |].
  cbn [_computeJsonProperyValue_fuel].
  destruct (_hasType P range ns.shapes_ScalarShape); [apply getTypeScalar_returns |].
  destruct (_hasType P range ns.shapes_UnionShape).
  { unfold _computeJsonUnionValue.
    destruct (_ensureArray (prop range (_getAmfKey P ns.shapes_anyOf)))
      as [alternatives |] eqn:Ea; [| apply returns_Ok].
    assert (Halt : forall x, In x alternatives -> (depth (unwrap x) < depth range)%nat).
    { intros x Hx. eapply depth_member; eassumption. }
    clear Ea. induction alternatives as [| item rest IHl]; [apply returns_Ok |].
    unfold _resolve.
    destruct (truthy typeName
              && negb (strict_eq typeName (_getValue P (unwrap item) ns.shacl_name))).
    - apply IHl. intros x Hx. apply Halt. right. exact Hx.
    - destruct (_hasType P (unwrap item) ns.shacl_NodeShape).
      + destruct (_ensureArray (prop (unwrap item) (_getAmfKey P ns.shacl_property)))
          as [data |] eqn:Edata.
        * apply (jsonExampleFromProperties_returns _ fuel).
          -- intros r Hr. apply IH. exact Hr.
          -- intros p Hp. pose proof (depth_item _ _ _ _ Edata Hp).
             pose proof (Halt item (or_introl eq_refl)). lia.
        * apply IHl. intros x Hx. apply Halt. right. exact Hx.
      + apply IHl. intros x Hx. apply Halt. right. exact Hx. }
  destruct (_hasType P range ns.shacl_NodeShape).
  { unfold _computeJsonObjectValue.
    destruct (_ensureArray (prop range (_getAmfKey P ns.shacl_property)))
      as [[| p ps] |] eqn:Ep; try apply returns_Ok.
    apply (jsonExampleFromProperties_returns _ fuel).
    - intros r Hr. apply IH. exact Hr.
    - intros q Hq. pose proof (depth_item _ _ _ _ Ep Hq). lia. }
  destruct (_hasType P range ns.shapes_ArrayShape).
  { unfold _computeJsonArrayValue.
    destruct (_ensureArray (prop range (_getAmfKey P ns.shapes_items)))
      as [items |] eqn:Ei; [| apply returns_Ok].
    apply returns_bind; [| intros r _; apply returns_Ok].
    apply returns_foldM. intros res item Hi. unfold _resolve.
    apply returns_bind; [| intros v _; repeat returns_step].
    apply IH. pose proof (depth_member _ _ _ _ Ei Hi). lia. }
  repeat returns_step.
Qed.

Lemma jsonExampleFromProperties_top_returns :
  forall properties, returns (jsonExampleFromProperties P properties).
Proof.
  intros properties. unfold jsonExampleFromProperties.
  apply (jsonExampleFromProperties_returns _
           (S (fold_right (fun p n => Nat.max (depth p) n) 0%nat properties))).
  - intros r _. apply computeJsonProperyValue_fuel_returns. lia.
  - intros p Hp. pose proof (depth_in properties p Hp). cbn [depth] in H. lia.
Qed.

Lemma depth_first_item :
  forall v k l, _ensureArray (prop v k) = Some l -> (depth (first l) < depth v)%nat.
Proof.
  intros v k l E. destruct l as [| x l].
  - cbn. destruct (depth_prop v k) as [Eu | H]; [| lia].
    rewrite Eu in E. discriminate E.
  - cbn [first]. apply (depth_item _ _ _ _ E). left. reflexivity.
Qed.

Lemma readDataType_returns : forall shape, returns (_readDataType P shape).
Proof. intros shape. unfold _readDataType. repeat returns_step. Qed.

Lemma setAttribute_returns : forall n k v, returns (setAttribute n k v).
Proof. intros n k v. unfold setAttribute. repeat returns_step. Qed.

Lemma as_string_returns : forall v, returns (as_string v).
Proof. intros v. unfold as_string. repeat returns_step. Qed.

Lemma appendXmlAttribute_returns :
  forall node property range serialization,
    returns (_appendXmlAttribute P node property range serialization).
Proof.
  intros. unfold _appendXmlAttribute.
  destruct (negb (truthy _)); [apply returns_Ok |].
  apply returns_bind; [repeat returns_step |]. intros n _.
  apply returns_bind; [apply readDataType_returns |]. intros v _.
  apply setAttribute_returns.
Qed.

Lemma appendXmlElement_returns :
  forall node range, returns (_appendXmlElement P node range).
Proof.
  intros. unfold _appendXmlElement.
  destruct (negb (truthy _)); [apply returns_Ok |].
  apply returns_bind; [apply as_string_returns |]. intros n _.
  apply returns_bind; [apply createElement_returns |]. intros el _.
  apply returns_bind; [apply appendChild_returns |]. intros e _.
  apply returns_bind; [apply appendChild_returns |]. intros e' _.
  apply returns_Ok.
Qed.

Lemma xmlFromExamples_returns :
  forall node example name, returns (_xmlFromExamples P node example name).
Proof.
  intros. unfold _xmlFromExamples.
  apply returns_bind; [apply returns_js_get |]. intros st _.
  destruct (negb (truthy _)); [apply returns_Ok |].
  apply xmlProcessDataProperty_returns.
Qed.

Lemma xmlProcessUnionScalarProperty_returns :
  forall node property shape,
    returns (_xmlProcessUnionScalarProperty P node property shape).
Proof.
  intros. unfold _xmlProcessUnionScalarProperty.
  apply returns_bind; [apply readDataType_returns |]. intros t _.
  apply returns_bind; [apply createElement_returns |]. intros el _.
  apply returns_bind; [apply appendChild_returns |]. intros e _.
  apply returns_Ok.
Qed.

Lemma appendXmlElements_returns :
  forall (rec : Node -> JsVal -> Res Node) node property range,
    (forall l n p, _ensureArray (prop range (_getAmfKey P ns.shacl_property)) = Some l ->
                   In p l -> returns (rec n p)) ->
    returns (_appendXmlElements P rec node property range).
Proof.
  intros rec node property range Hrec. unfold _appendXmlElements.
  apply returns_bind; [apply appendXmlElement_returns |]. intros [n e] _.
  destruct (_ensureArray _) as [l |] eqn:El; [| apply returns_Ok].
  apply returns_bind; [| intros; apply returns_Ok].
  apply returns_foldM. intros s x Hx. apply (Hrec l); [reflexivity | exact Hx].
Qed.

Lemma array_properties_returns :
  forall (rec : Node -> JsVal -> Res Node) isWrapped l,
    (forall n p, In p l -> returns (rec n p)) ->
    forall n, returns (array_properties P rec isWrapped n l).
Proof.
  intros rec isWrapped. induction l as [| p l IHl]; intros Hl n;
    cbn [array_properties]; [apply returns_Ok |].
  assert (Hl' : forall n p, In p l -> returns (rec n p)).
  { intros n0 p0 H0. apply Hl. right. exact H0. }
  destruct (truthy isWrapped).
  - destruct (negb (truthy _)); [apply IHl; exact Hl' |].
    apply returns_bind; [apply createElement_returns |]. intros el _.
    apply returns_bind; [apply appendChild_returns |]. intros _ _.
    apply returns_bind; [apply Hl; left; reflexivity |]. intros e _.
    apply returns_bind; [apply IHl; exact Hl' |]. intros e' _.
    apply appendChild_returns.
  - apply returns_bind; [apply Hl; left; reflexivity |]. intros n' _.
    apply IHl. exact Hl'.
Qed.

Lemma appendXmlArray_returns :
  forall (rec : Node -> JsVal -> Res Node) node property range isWrapped,
    (forall l n p, _ensureArray (prop range (_getAmfKey P ns.shapes_items)) = Some l ->
                   In p l -> returns (rec n p)) ->
    returns (_appendXmlArray P rec node property range isWrapped).
Proof.
  intros rec node property range isWrapped Hrec. unfold _appendXmlArray.
  destruct (truthy isWrapped).
  - apply returns_bind; [apply appendXmlElement_returns |]. intros [n e] _.
    apply returns_bind; [apply appendChild_returns |]. intros _ _.
    destruct (_ensureArray _) as [l |] eqn:El; [| apply returns_Ok].
    apply returns_bind; [| intros; apply returns_Ok].
    apply array_properties_returns. intros n0 p0 H0.
    apply (Hrec l); [reflexivity | exact H0].
  - destruct (_ensureArray _) as [l |] eqn:El; [| apply returns_Ok].
    apply array_properties_returns. intros n0 p0 H0.
    apply (Hrec l); [reflexivity | exact H0].
Qed.

Lemma xmlProcessProperty_fuel_returns :
  forall fuel node property,
    (depth property < fuel)%nat ->
    returns (_xmlProcessProperty_fuel P fuel node property).
Proof.
  induction fuel as [| fuel IH]; intros node property Hd; [lia |].
  cbn [_xmlProcessProperty_fuel].
  destruct (negb (truthy property)); [apply returns_Ok |].
  destruct (_hasType P property ns.shacl_NodeShape).
  { destruct (_ensureArray _) as [l |] eqn:El; [| apply returns_Ok].
    apply returns_foldM. intros n p Hp. apply IH.
    pose proof (depth_item _ _ _ _ El Hp). lia. }
  destruct (negb (truthy (prop property (_getAmfKey P ns.shapes_range)))) eqn:Er;
    [apply returns_Ok |].
  assert (Hrange : (depth (unwrap (prop property (_getAmfKey P ns.shapes_range)))
                    < depth property)%nat).
  { pose proof (depth_unwrap (prop property (_getAmfKey P ns.shapes_range))).
    destruct (depth_prop property (_getAmfKey P ns.shapes_range)) as [Eu | Hlt]; [| lia].
    rewrite Eu in Er. discriminate Er. }
  set (range := unwrap (prop property (_getAmfKey P ns.shapes_range))) in *.
  apply returns_bind; [apply returns_js_get |]. intros ser _.
  assert (Hrest : returns
    (if _hasType P range ns.shapes_UnionShape
     then
       match _ensureArray (prop range (_getAmfKey P ns.shapes_anyOf)) with
       | Some alternatives =>
           if _hasType P (first alternatives) ns.shapes_ScalarShape
           then _xmlProcessUnionScalarProperty P node property (first alternatives)
           else _xmlProcessProperty_fuel P fuel node (first alternatives)
       | None => Ok node
       end
     else
       if truthy (if truthy (unwrap ser)
                  then _getValue P (unwrap ser) ns.shapes_xmlAttribute
                  else JUndef)
       then _appendXmlAttribute P node property range (unwrap ser)
       else
         if _hasType P range ns.shacl_NodeShape
         then _appendXmlElements P (_xmlProcessProperty_fuel P fuel) node property range
         else if _hasType P range ns.shapes_ArrayShape
         then _appendXmlArray P (_xmlProcessProperty_fuel P fuel) node property range
                (if truthy (unwrap ser)
                 then _getValue P (unwrap ser) ns.shapes_xmlWrapped
                 else JBool false)
         else ' (node0, _) <- _appendXmlElement P node range ;; Ok node0)).
  { destruct (_hasType P range ns.shapes_UnionShape).
    - destruct (_ensureArray _) as [alts |] eqn:Ea; [| apply returns_Ok].
      destruct (_hasType P (first alts) ns.shapes_ScalarShape).
      + apply xmlProcessUnionScalarProperty_returns.
      + apply IH. pose proof (depth_first_item _ _ _ Ea). lia.
    - destruct (truthy (if truthy (unwrap ser) then _ else _)).
      + apply appendXmlAttribute_returns.
      + destruct (_hasType P range ns.shacl_NodeShape).
        * apply appendXmlElements_returns. intros l n p El Hp. apply IH.
          pose proof (depth_item _ _ _ _ El Hp). lia.
        * destruct (_hasType P range ns.shapes_ArrayShape).
          -- apply appendXmlArray_returns. intros l n p El Hp. apply IH.
             pose proof (depth_item _ _ _ _ El Hp). lia.
          -- apply returns_bind; [apply appendXmlElement_returns |].
             intros [n e] _. apply returns_Ok. }
  destruct (_ensureArray (prop range (_getAmfKey P ns.apiContract_examples)))
    as [[| example rest] |]; try exact Hrest.
  apply xmlFromExamples_returns.
Qed.

Lemma xmlProcessProperty_returns :
  forall node property, returns (_xmlProcessProperty P node property).
Proof. intros. apply xmlProcessProperty_fuel_returns. lia. Qed.

Lemma xmlExampleFromProperties_returns :
  forall properties name parentType,
    returns (_xmlExampleFromProperties P properties name parentType).
Proof.
  intros properties name parentType. unfold _xmlExampleFromProperties.
  apply returns_bind; [apply as_string_returns |]. intros t _.
  apply returns_bind.
  { destruct (truthy parentType); [| apply returns_Ok].
    apply returns_bind; [apply as_string_returns |]. intros; apply returns_Ok. }
  intros p _. destruct (negb (p =? "")%string).
  - apply returns_bind; [apply createDocument_returns |]. intros main _.
    apply returns_bind; [apply createElement_returns |]. intros el _.
    apply returns_bind; [apply appendChild_returns |]. intros _ _.
    apply returns_bind;
      [apply returns_foldM; intros; apply xmlProcessProperty_returns |].
    intros e _. apply returns_bind; [apply appendChild_returns |].
    intros; apply returns_Ok.
  - apply returns_bind; [apply createDocument_returns |]. intros main _.
    apply returns_bind;
      [apply returns_foldM; intros; apply xmlProcessProperty_returns |].
    intros; apply returns_Ok.
Qed.

Lemma mime_has_returns : forall mime word, returns (mime_has mime word).
Proof. intros [m |] word; discriminate. Qed.

Lemma exampleFromProperties_returns :
  forall properties mime name parentType,
    returns (_exampleFromProperties P properties mime name parentType).
Proof.
  intros properties mime name parentType. unfold _exampleFromProperties.
  apply returns_bind; [apply mime_has_returns |]. intros isJson _.
  apply returns_bind.
  { destruct isJson.
    - apply returns_bind; [apply jsonExampleFromProperties_top_returns |].
      intros v _. destruct (truthy v); apply returns_Ok.
    - apply returns_bind; [apply mime_has_returns |]. intros isXml _.
      destruct isXml; [| apply returns_Ok].
      apply returns_bind; [apply xmlExampleFromProperties_returns |].
      intros r _. destruct (negb _); apply returns_Ok. }
  intros r _. destruct (negb _); apply returns_Ok.
Qed.

Lemma exampleFromJsonSchema_returns :
  forall schema jsonSchema, returns (_exampleFromJsonSchema P schema jsonSchema).
Proof.
  intros. unfold _exampleFromJsonSchema.
  apply returns_bind.
  - destruct (_ensureArray _) as [[| p ps] |]; try apply returns_Ok.
    apply exampleFromProperties_returns.
  - intros [e |] _; apply returns_Ok.
Qed.

Lemma xmlFromStructure_returns :
  forall structure opts, returns (_xmlFromStructure P structure opts).
Proof.
  intros. unfold _xmlFromStructure.
  apply returns_bind; [apply as_string_returns |]. intros t _.
  apply returns_bind; [apply createDocument_returns |]. intros main _.
  apply returns_bind; [unfold data_keys; repeat returns_step |]. intros keys _.
  apply returns_bind; [| intros; apply returns_Ok].
  apply returns_foldM. intros n key _.
  destruct (negb _); [apply returns_Ok | apply xmlProcessDataProperty_returns].
Qed.

Lemma generateFromExample_structure_returns :
  forall example isJson isXml opts result,
    returns (_generateFromExample_structure P example isJson isXml opts result).
Proof.
  intros. unfold _generateFromExample_structure.
  apply returns_bind; [apply returns_js_get |]. intros st _.
  destruct (negb (truthy st)); [apply returns_Ok |].
  destruct (_hasType P (unwrap st) ns.data_Scalar).
  { apply returns_bind; [apply getTypedValue_returns |]. intros; apply returns_Ok. }
  destruct isJson.
  { apply returns_bind; [apply jsonFromStructure_returns |].
    intros d _. destruct (truthy d); apply returns_Ok. }
  destruct isXml.
  { apply returns_bind; [apply xmlFromStructure_returns |]. intros; apply returns_Ok. }
  apply returns_Ok.
Qed.

Lemma generateFromExample_returns :
  forall example mime opts, returns (_generateFromExample P example mime opts).
Proof.
  intros. unfold _generateFromExample.
  apply returns_bind; [repeat returns_step |]. intros title _.
  destruct (rawOnly opts && negb _); [apply returns_Ok |].
  destruct (rawOnly opts); [apply returns_Ok |].
  apply returns_bind; [apply mime_has_returns |]. intros isJson _.
  apply returns_bind; [destruct isJson; [apply returns_Ok | apply mime_has_returns] |].
  intros isXml _.
  destruct (truthy _); [| apply generateFromExample_structure_returns].
  match goal with |- returns (if ?b then _ else _) => destruct b end;
    [apply returns_Ok |].
  apply returns_bind.
  { destruct isXml; [| apply returns_Ok].
    apply returns_bind; [apply as_string_returns |]. intros; apply returns_Ok. }
  intros markup _. destruct markup; [apply returns_Ok |].
  apply generateFromExample_structure_returns.
Qed.

Lemma processExamples_returns : forall e, returns (_processExamples P e).
Proof. intros e. unfold _processExamples. repeat returns_step. Qed.

Lemma listTypeExamples_returns :
  forall examples id, returns (_listTypeExamples P examples id).
Proof.
  intros examples id. unfold _listTypeExamples.
  destruct (negb (truthy id)); [apply returns_Ok |].
  apply returns_bind; [repeat returns_step |]. intros longId _.
  destruct examples as [l |]; [| apply returns_Throw].
  apply returns_bind.
  - apply returns_foldM. intros. repeat returns_step.
  - intros. repeat returns_step.
Qed.

Lemma computeFromExamples_returns :
  forall examples mime opts, returns (_computeFromExamples P examples mime opts).
Proof.
  intros. unfold _computeFromExamples.
  apply returns_bind; [apply processExamples_returns |]. intros e1 _.
  apply returns_bind; [apply listTypeExamples_returns |]. intros [l |] _;
    [| apply returns_Ok].
  apply returns_bind; [| intros; apply returns_Ok].
  apply returns_foldM. intros r x _.
  apply returns_bind; [apply generateFromExample_returns |].
  intros [v |] _; apply returns_Ok.
Qed.

Lemma bracket_returns : forall e, returns (bracket e).
Proof. intros e. unfold bracket, index0. repeat returns_step. Qed.

Lemma processJsonArrayExamples_returns :
  forall examples, returns (_processJsonArrayExamples examples).
Proof.
  intros. unfold _processJsonArrayExamples.
  apply returns_foldM. intros done item _.
  apply returns_bind; [| intros; apply returns_Ok].
  destruct (values item) as [[| v0 rest] |].
  - apply returns_Throw.
  - apply returns_bind; [apply bracket_returns | intros; apply returns_Ok].
  - apply bracket_returns.
Qed.

Lemma array_items_returns :
  forall (rec : Selector) mime isJson items opts,
    (forall x o, In x items -> returns (rec x mime o)) ->
    returns (array_items rec mime isJson items opts).
Proof.
  intros rec mime isJson items.
  induction items as [| x items IHi]; intros opts Hrec; cbn [array_items].
  - apply returns_Ok.
  - apply returns_bind; [apply Hrec; left; reflexivity |].
    intros [[r |] o] _.
    + apply returns_bind; [| intros; apply returns_Ok].
      destruct isJson; [apply processJsonArrayExamples_returns | apply returns_Ok].
    + apply IHi. intros y o' Hy. apply Hrec. right. exact Hy.
Qed.

Lemma union_alternatives_returns :
  forall (rec : Selector) mime anyOf i vals opts,
    (forall x o, In x anyOf -> returns (rec (unwrap x) mime o)) ->
    returns (union_alternatives P rec mime anyOf i vals opts).
Proof.
  intros rec mime anyOf.
  induction anyOf as [| x anyOf IHa]; intros i vals opts Hrec;
    cbn [union_alternatives].
  - apply returns_Ok.
  - unfold _resolve.
    assert (Hrec' : forall y o, In y anyOf -> returns (rec (unwrap y) mime o)).
    { intros y o Hy. apply Hrec. right. exact Hy. }
    apply returns_bind; [apply Hrec; left; reflexivity |].
    intros [[[| d ds] |] o] _.
    + apply returns_Throw.
    + apply IHa. exact Hrec'.
    + apply IHa. exact Hrec'.
Qed.

Lemma name_type_returns : forall schema opts, returns (name_type P schema opts).
Proof. intros. unfold name_type. repeat returns_step. Qed.

Lemma readJsonSchema_returns : forall schema, returns (_readJsonSchema P schema).
Proof. intros. unfold _readJsonSchema. repeat returns_step. Qed.

Lemma computeExamples_fuel_returns :
  forall fuel schema mime opts,
    (depth schema < fuel)%nat ->
    returns (computeExamples_fuel P fuel schema mime opts).
Proof.
  induction fuel as [| fuel IH]; intros schema mime opts Hd; [lia |].
  cbn [computeExamples_fuel]. unfold _resolve.
  destruct (negb (truthy schema) || _); [apply returns_Ok |].
  apply returns_bind; [apply name_type_returns |]. intros o1 _.
  destruct (_ensureArray (prop schema (_getAmfKey P ns.apiContract_examples)))
    as [examples |].
  { apply returns_bind; [apply computeFromExamples_returns |].
    intros; apply returns_Ok. }
  apply returns_bind; [apply readJsonSchema_returns |]. intros js _.
  destruct (truthy js).
  { apply returns_bind; [apply exampleFromJsonSchema_returns |].
    intros; apply returns_Ok. }
  destruct (rawOnly o1); [apply returns_Ok |].
  apply returns_bind.
  { destruct (_hasType P schema ns.shapes_ArrayShape); [| apply returns_Ok].
    unfold _computeExampleArraySchape.
    destruct (_ensureArray _) as [items |] eqn:Ei; [| apply returns_Ok].
    apply returns_bind; [apply mime_has_returns |]. intros isJson _.
    apply array_items_returns. intros x o Hx. apply IH.
    pose proof (depth_item _ _ _ _ Ei Hx). lia. }
  intros [[v |] o2] _; [apply returns_Ok |].
  apply returns_bind.
  { destruct (_hasType P schema ns.apiContract_Example);
      [apply generateFromExample_returns | apply returns_Ok]. }
  intros [v |] _; [apply returns_Ok |].
  destruct (_hasType P schema ns.shapes_UnionShape).
  { unfold _computeUnionExamples.
    destruct (_ensureArray _) as [anyOf |] eqn:Ea; [| apply returns_Ok].
    apply returns_bind.
    - apply union_alternatives_returns. intros x o Hx. apply IH.
      pose proof (depth_member _ _ _ _ Ea Hx). lia.
    - intros [[| v vs] o3] _; apply returns_Ok. }
  destruct (noAuto o2); [apply returns_Ok |].
  destruct (_hasType P schema ns.shapes_ScalarShape).
  { apply returns_bind; [apply getTypeScalar_returns |]. intros; apply returns_Ok. }
  destruct (_ensureArray _) as [[| p ps] |]; try apply returns_Ok.
  apply returns_bind; [apply exampleFromProperties_returns |].
  intros [v |] _; apply returns_Ok.
Qed.

(** On shapes whose links are resolved the selector comes back for every
    media type and options: with a list of examples, with nothing, or with
    an error. *)
Lemma computeExamples_returns :
  forall schema mime opts, returns (computeExamples P schema mime opts).
Proof. intros. apply computeExamples_fuel_returns. lia. Qed.

Lemma generatePayloadExamples_returns :
  forall payload mime opts, returns (generatePayloadExamples P payload mime opts).
Proof.
  intros. unfold generatePayloadExamples. unfold _resolve.
  destruct (negb _); [apply returns_Ok |].
  destruct (negb _); [apply returns_Ok |].
  apply computeExamples_returns.
Qed.

Lemma generatePayloadsExamples_returns :
  forall payloads media opts,
    returns (generatePayloadsExamples P payloads media opts).
Proof.
  intros. unfold generatePayloadsExamples.
  destruct (negb (truthy payloads) || _); [apply returns_Ok |].
  generalize (match payloads with JArr l => l | _ => [payloads] end).
  induction l as [| p l IHl]; [apply returns_Ok |].
  destruct (str_truthy media && _); [exact IHl |].
  apply generatePayloadExamples_returns.
Qed.

End Returns.


(** * The invariant of the output *)

Section Invariant.

Variable P : Platform.

Lemma foldM_invariant :
  forall (A S : Type) (I : S -> Prop) (f : S -> A -> Res S) (l : list A) (s r : S),
    I s ->
    (forall s x s', In x l -> I s -> f s x = Ok s' -> I s') ->
    foldM f s l = Ok r -> I r.
Proof.
  intros A S I f l. induction l as [| x l IH]; intros s r Hs Hf E; cbn in E.
  - inversion E. subst r. exact Hs.
  - destruct (f s x) as [s' | |] eqn:Ef; cbn in E; try discriminate E.
    apply (IH s' r); [| | exact E].
    + apply (Hf s x s'); [left; reflexivity | exact Hs | exact Ef].
    + intros s0 y s1 Hy. apply Hf. right. exact Hy.
Qed.

Lemma truthy_defined : forall v, truthy v = true -> is_undefined v = false.
Proof. intros v H. destruct v; try reflexivity; discriminate H. Qed.

Lemma js_or_defined :
  forall a b, is_undefined b = false -> is_undefined (js_or a b) = false.
Proof.
  intros a b H. unfold js_or. destruct (truthy a) eqn:E; [| exact H].
  apply truthy_defined. exact E.
Qed.

Lemma typeToValue_defined :
  forall value type, is_undefined value = false ->
                     is_undefined (_typeToValue P value type) = false.
Proof.
  intros value type H. unfold _typeToValue.
  repeat match goal with
         | |- context [if ?b then _ else _] => destruct b
         end;
    try reflexivity;
    try (destruct value; try reflexivity; discriminate H);
    try (destruct (js_to_number P value); reflexivity).
  all: apply js_or_defined; reflexivity.
Qed.

Lemma zero_of_type_defined : forall t, is_undefined (zero_of_type t) = false.
Proof.
  intros [t |]; [| reflexivity]. unfold zero_of_type.
  repeat match goal with
         | |- context [if ?b then _ else _] => destruct b
         end; reflexivity.
Qed.

Lemma scalar_value_defined :
  forall s v, _computeJsonScalarValue P s = Ok v -> is_undefined v = false.
Proof.
  intros s v E. unfold _computeJsonScalarValue in E.
  destruct (negb (truthy (_getTypeScalarValue P s))) eqn:Et.
  - destruct (_computeScalarType P s) as [t | |]; cbn in E; try discriminate E.
    inversion E. apply zero_of_type_defined.
  - apply negb_false_iff in Et.
    destruct (negb (truthy (prop s (_getAmfKey P ns.shacl_datatype)))).
    + inversion E. apply js_or_defined. reflexivity.
    + destruct (js_get (unwrap (prop s (_getAmfKey P ns.shacl_datatype))) "@id")
        as [i | |]; cbn in E; try discriminate E.
      inversion E. apply typeToValue_defined. apply truthy_defined. exact Et.
Qed.

Lemma plain_example_invariant :
  forall v, is_undefined v = false -> invariant (plain_example v) = true.
Proof. intros v H. cbn -[is_undefined]. rewrite H. reflexivity. Qed.

Lemma exampleFromProperties_invariant :
  forall properties mime typeName parentType e,
    _exampleFromProperties P properties mime typeName parentType = Ok (Some e) ->
    invariant e = true.
Proof.
  intros properties mime typeName parentType e E.
  unfold _exampleFromProperties in E.
  destruct (mime_has mime "json") as [isJson | |]; cbn [bind] in E; try discriminate E.
  match type of E with
  | bind ?m _ = _ => destruct m as [result | |]; cbn [bind] in E; try discriminate E
  end.
  destruct (negb (result =? "")%string); inversion E.
  apply plain_example_invariant. reflexivity.
Qed.

Lemma exampleFromJsonSchema_invariant :
  forall schema jsonSchema r,
    truthy jsonSchema = true ->
    _exampleFromJsonSchema P schema jsonSchema = Ok r ->
    forallb invariant r = true.
Proof.
  intros schema jsonSchema r Ht E. unfold _exampleFromJsonSchema in E.
  pose proof (truthy_defined _ Ht) as Hd.
  match type of E with
  | bind ?m _ = _ => destruct m as [[e |] | |] eqn:Em; cbn [bind] in E; try discriminate E
  end.
  - inversion E. subst r. cbn [forallb]. rewrite andb_true_r.
    destruct (_ensureArray (prop schema (_getAmfKey P ns.shacl_property)))
      as [[| p ps] |]; try discriminate Em.
    unfold _exampleFromProperties in Em.
    destruct (mime_has (Some "application/json") "json") as [isJson | |];
      cbn [bind] in Em; try discriminate Em.
    match type of Em with
    | bind ?m _ = _ => destruct m as [result | |]; cbn [bind] in Em; try discriminate Em
    end.
    destruct (negb (result =? "")%string); inversion Em.
    cbn. unfold flags_agree. cbn -[is_undefined]. rewrite Hd. reflexivity.
  - inversion E. subst r. cbn -[is_undefined]. rewrite Hd. reflexivity.
Qed.

Lemma under_way_value :
  forall e v, under_way e -> is_undefined v = false ->
              invariant (set_value v e) = true.
Proof.
  intros e v [Hu Hf] Hv. destruct e as [hr ht hu v0 t r vs sc]. cbn in Hu. subst.
  cbn -[is_undefined flags_agree]. rewrite Hv. exact Hf.
Qed.

Lemma under_way_value_scalar :
  forall e v b, under_way e -> is_undefined v = false ->
                invariant (set_isScalar b (set_value v e)) = true.
Proof.
  intros e v b [Hu Hf] Hv. destruct e as [hr ht hu v0 t r vs sc]. cbn in Hu. subst.
  cbn -[is_undefined flags_agree]. rewrite Hv. exact Hf.
Qed.

Lemma under_way_scalar_value :
  forall e v b, under_way e -> is_undefined v = false ->
                invariant (set_value v (set_isScalar b e)) = true.
Proof.
  intros e v b [Hu Hf] Hv. destruct e as [hr ht hu v0 t r vs sc]. cbn in Hu. subst.
  cbn -[is_undefined flags_agree]. rewrite Hv. exact Hf.
Qed.

Lemma raw_or_empty_defined :
  forall r, is_undefined (if truthy r then r else JStr "") = false.
Proof.
  intros r. destruct (truthy r) eqn:E; [apply truthy_defined; exact E | reflexivity].
Qed.

Lemma example_has_literal_undefined : example_has_literal P JUndef = true.
Proof. reflexivity. Qed.

Lemma js_get_ok : forall o k v, js_get o k = Ok v -> v = prop o k.
Proof.
  intros o k v E. destruct o; cbn in E; try discriminate E; inversion E; reflexivity.
Qed.

Lemma generate_structure_invariant :
  forall example isJson isXml opts start e,
    example_has_literal P example = true ->
    under_way start ->
    _generateFromExample_structure P example isJson isXml opts start = Ok (Some e) ->
    invariant e = true.
Proof.
  intros example isJson isXml opts start e Hl Hs E.
  unfold _generateFromExample_structure in E.
  destruct (js_get example (_getAmfKey P ns.document_structuredValue))
    as [structure | |] eqn:Eg; cbn [bind] in E; try discriminate E.
  unfold example_has_literal, structured_value in Hl.
  rewrite <- (js_get_ok _ _ _ Eg) in Hl.
  destruct (negb (truthy structure)).
  - destruct (truthy (raw start)) eqn:Er; inversion E.
    + apply under_way_value_scalar; [exact Hs | apply truthy_defined; exact Er].
    + apply under_way_value_scalar; [exact Hs | reflexivity].
  - destruct (_hasType P (unwrap structure) ns.data_Scalar) eqn:Ek.
    + destruct (_getTypedValue P (unwrap structure)) as [v | |] eqn:Ev;
        cbn [bind] in E; try discriminate E.
      inversion E. apply under_way_value_scalar; [exact Hs |].
      destruct v; try reflexivity. discriminate Hl.
    + destruct isJson.
      * destruct (_jsonFromStructure P (unwrap structure)) as [data | |];
          cbn [bind] in E; try discriminate E.
        destruct (truthy data) eqn:Et; [| discriminate E].
        inversion E. apply under_way_scalar_value; [exact Hs |].
        destruct (typeof data); try reflexivity; apply truthy_defined; exact Et.
      * destruct isXml.
        -- destruct (_xmlFromStructure P (unwrap structure) opts) as [x | |];
             cbn [bind] in E; try discriminate E.
           inversion E. apply under_way_scalar_value; [exact Hs | reflexivity].
        -- assert (Er : raw (set_isScalar false start) = raw start)
             by (destruct start; reflexivity).
           rewrite Er in E. clear Er.
           destruct (truthy (raw start)) eqn:Er; inversion E.
           ++ apply under_way_scalar_value; [exact Hs |].
              apply truthy_defined. exact Er.
           ++ apply under_way_scalar_value; [exact Hs | reflexivity].
Qed.

Lemma titled_under_way :
  forall t, under_way (titled t).
Proof.
  intros t. split; [reflexivity |]. unfold flags_agree, titled. cbn -[is_undefined].
  destruct (truthy t) eqn:E; [| reflexivity].
  rewrite (truthy_defined _ E). reflexivity.
Qed.

Lemma with_raw_under_way :
  forall e r, under_way e -> truthy r = true ->
              under_way (set_raw r (set_hasRaw true e)).
Proof.
  intros e r [Hu Hf] Hr. destruct e as [hr ht hu v t r0 vs sc]. cbn in Hu. subst.
  split; [reflexivity |].
  unfold flags_agree in *. cbn -[is_undefined] in *.
  rewrite (truthy_defined _ Hr). cbn.
  apply andb_true_iff in Hf. destruct Hf as [_ Hf]. exact Hf.
Qed.

Lemma literal_value_invariant :
  forall e r, under_way e -> hasRaw e = None -> raw e = JUndef -> truthy r = true ->
              invariant (set_isScalar false (set_value r (set_hasRaw false e))) = true.
Proof.
  intros e r [Hu Hf] Hh Hr Ht. destruct e as [hr ht hu v t r0 vs sc].
  cbn in Hu, Hh, Hr. subst.
  unfold flags_agree in Hf. cbn -[is_undefined] in Hf.
  cbn -[is_undefined flags_agree]. rewrite (truthy_defined _ Ht).
  unfold flags_agree. cbn -[is_undefined]. exact Hf.
Qed.

Lemma example_title_read :
  forall example,
    text_or_falsy (_getValue P example ns.core_name) = true ->
    (if truthy (_getValue P example ns.core_name)
     then match _getValue P example ns.core_name with
          | JStr t =>
              Ok (if Str.startsWith t "example_" then JUndef
                  else _getValue P example ns.core_name)
          | JArr l =>
              Ok (if strict_eq_str (first l) "example_" then JUndef
                  else _getValue P example ns.core_name)
          | _ => Throw
          end
     else Ok (_getValue P example ns.core_name)) = Ok (example_title P example).
Proof.
  intros example H. unfold example_title.
  destruct (_getValue P example ns.core_name) as [| | b | z | | t | l | fs];
    try reflexivity; cbn [text_or_falsy] in H.
  - destruct b; [discriminate H | reflexivity].
  - cbn in *. destruct (negb (z =? 0)); [discriminate H | reflexivity].
  - destruct t; reflexivity.
  - discriminate H.
Qed.

Lemma generateFromExample_invariant :
  forall example mime opts e,
    example_has_literal P example = true ->
    _generateFromExample P example mime opts = Ok (Some e) ->
    invariant e = true.
Proof.
  intros example mime opts e Hall E. unfold _generateFromExample in E.
  set (text := (if negb (truthy (_getValue P example ns.document_raw))
                then _getValue P example ns.shacl_raw
                else _getValue P example ns.document_raw)) in *.
  match type of E with
  | bind ?m _ = _ => destruct m as [t | |]; cbn [bind] in E; try discriminate E
  end.
  fold (titled t) in E.
  pose proof (titled_under_way t) as Hu.
  assert (Hlit : truthy text = true ->
                 invariant (set_isScalar false (set_value text (set_hasRaw false (titled t))))
                 = true).
  { intros Ht. apply literal_value_invariant; try reflexivity; assumption. }
  destruct (rawOnly opts && negb (truthy text)) eqn:Eo; [discriminate E |].
  destruct (rawOnly opts) eqn:Er.
  - inversion E. apply Hlit. cbn in Eo. apply negb_false_iff in Eo. exact Eo.
  - destruct (mime_has mime "json") as [isJson | |]; cbn [bind] in E; try discriminate E.
    match type of E with
    | bind ?m _ = _ => destruct m as [isXml | |]; cbn [bind] in E; try discriminate E
    end.
    destruct (truthy text) eqn:Et.
    + match type of E with
      | (if ?u then _ else _) = _ => destruct u
      end.
      * inversion E. apply Hlit. reflexivity.
      * match type of E with
        | bind ?m _ = _ => destruct m as [[] | |]; cbn [bind] in E; try discriminate E
        end.
        -- inversion E. apply Hlit. reflexivity.
        -- eapply generate_structure_invariant; [exact Hall | | exact E].
           apply with_raw_under_way; assumption.
    + eapply generate_structure_invariant; [exact Hall | exact Hu | exact E].
Qed.

(** The examples that are generated from are nodes of the shape. *)
Lemma processExamples_nodes :
  forall test l selected x,
    test JUndef = true ->
    all_nodes test (JArr l) = true ->
    _processExamples P (JArr l) = Ok (Some selected) ->
    In x selected -> all_nodes test x = true.
Proof.
  intros test l selected x Hu Hall E Hx. cbn [_processExamples] in E.
  destruct ((length l =? 1)%nat && _hasType P (first l) ns.document_NamedExamples).
  - inversion E as [E'].
    apply (all_nodes_member test Hu (first l)
             (_getAmfKey P ns.apiContract_examples) selected x);
      [apply all_nodes_first; assumption | exact E' | exact Hx].
  - inversion E. subst selected. eapply all_nodes_in; eassumption.
Qed.

Lemma listTypeExamples_nodes :
  forall test l typeId kept x,
    test JUndef = true ->
    (forall y, In y l -> all_nodes test y = true) ->
    _listTypeExamples P (Some l) typeId = Ok (Some kept) ->
    In x kept -> all_nodes test x = true.
Proof.
  intros test l typeId kept x Hu Hall E Hx. unfold _listTypeExamples in E.
  destruct (negb (truthy typeId)).
  - inversion E. subst kept. apply Hall. exact Hx.
  - match type of E with
    | bind ?m _ = _ => destruct m as [longId | |]; cbn [bind] in E; try discriminate E
    end.
    match type of E with
    | bind ?m _ = _ => destruct m as [result | |] eqn:Ef; cbn [bind] in E;
                       try discriminate E
    end.
    assert (Hres : forall y, In y result -> all_nodes test y = true).
    { refine (foldM_invariant _ _ (fun r => forall y, In y r -> all_nodes test y = true)
                _ _ _ _ _ _ Ef).
      - intros y [].
      - intros s example s' Hin Hs Estep y Hy.
        assert (Hex : all_nodes test (unwrap example) = true)
          by (apply all_nodes_unwrap; [exact Hu | apply Hall; exact Hin]).
        assert (Hadd : forall z, In z (s ++ [unwrap example])%list -> all_nodes test z = true).
        { intros z Hz. apply in_app_or in Hz. destruct Hz as [Hz | [Hz | []]].
          - apply Hs. exact Hz.
          - subst z. exact Hex. }
        repeat match type of Estep with
               | bind ?m _ = _ =>
                   destruct m; cbn [bind] in Estep; try discriminate Estep
               | (if ?b then _ else _) = _ => destruct b
               | match ?v with _ => _ end = _ => destruct v; try discriminate Estep
               end;
          inversion Estep; subst s'; auto. }
    destruct result as [| r0 rs]; inversion E. subst kept. apply Hres. exact Hx.
Qed.

Lemma computeFromExamples_invariant :
  forall examples mime opts r,
    all_nodes (example_has_literal P) (JArr examples) = true ->
    _computeFromExamples P examples mime opts = Ok (Some r) ->
    forallb invariant r = true.
Proof.
  intros examples mime opts r Hall E. unfold _computeFromExamples in E.
  destruct (_processExamples P (JArr examples)) as [selected | |] eqn:Ep;
    cbn [bind] in E; try discriminate E.
  destruct (_listTypeExamples P selected (typeId opts)) as [[kept |] | |] eqn:El;
    cbn [bind] in E; try discriminate E.
  match type of E with
  | bind ?m _ = _ => destruct m as [result | |] eqn:Ef; cbn [bind] in E;
                     try discriminate E
  end.
  inversion E. subst r. clear E.
  assert (Hkept : forall x, In x kept -> all_nodes (example_has_literal P) x = true).
  { destruct selected as [selected |].
    - intros x Hx. eapply listTypeExamples_nodes; try eassumption; [reflexivity |].
      intros y Hy. eapply processExamples_nodes; try eassumption. reflexivity.
    - unfold _listTypeExamples in El. destruct (negb (truthy (typeId opts))).
      + discriminate El.
      + match type of El with
        | bind ?m _ = _ => destruct m; cbn [bind] in El; discriminate El
        end. }
  refine (foldM_invariant _ _ (fun r => forallb invariant r = true) _ _ _ _ _ _ Ef).
  - reflexivity.
  - intros s shape s' Hin Hs Estep.
    destruct (_generateFromExample P shape mime opts) as [[e |] | |] eqn:Eg;
      cbn [bind] in Estep; try discriminate Estep; inversion Estep; subst s'.
    + rewrite forallb_app, Hs. cbn [forallb]. rewrite andb_true_r. cbn [andb].
      eapply generateFromExample_invariant; [| exact Eg].
      apply all_nodes_self. apply Hkept. exact Hin.
    + exact Hs.
Qed.

Lemma bracket_invariant :
  forall e e', invariant e = true -> bracket e = Ok e' -> invariant e' = true.
Proof.
  intros e e' Hi E. unfold bracket in E.
  destruct (value e) eqn:Ev; try (inversion E; subst e'; exact Hi);
    (match type of E with
     | bind ?m _ = _ => destruct m as [c | |]; cbn [bind] in E; try discriminate E
     end;
     destruct (negb (strict_eq_str c "[")); inversion E; subst e'; try exact Hi;
     destruct e as [hr ht hu v t r vs sc]; cbn in Ev; subst;
     destruct hu; cbn -[flags_agree] in Hi |- *;
     [rewrite andb_false_r in Hi; discriminate Hi | exact Hi]).
Qed.

Lemma processJsonArrayExamples_invariant :
  forall l l',
    forallb invariant l = true ->
    _processJsonArrayExamples l = Ok l' ->
    forallb invariant l' = true.
Proof.
  intros l l' Hl E. unfold _processJsonArrayExamples in E.
  refine (foldM_invariant _ _ (fun r => forallb invariant r = true) _ _ _ _ _ _ E).
  - reflexivity.
  - intros done item done' Hin Hdone Estep.
    rewrite forallb_forall in Hl. pose proof (Hl item Hin) as Hitem.
    match type of Estep with
    | bind ?m _ = _ => destruct m as [item' | |] eqn:Em; cbn [bind] in Estep;
                       try discriminate Estep
    end.
    inversion Estep. subst done'. rewrite forallb_app, Hdone. cbn [forallb andb].
    rewrite andb_true_r.
    destruct (values item) as [[| v0 rest] |] eqn:Ev; try discriminate Em.
    + destruct (bracket v0) as [v0' | |] eqn:Eb; cbn [bind] in Em; try discriminate Em.
      inversion Em. subst item'. clear Em.
      destruct item as [hr ht hu v t r vs sc]. cbn in Ev. subst. destruct hu.
      * cbn -[flags_agree] in Hitem |- *.
        apply andb_true_iff in Hitem. destruct Hitem as [Hitem Hr].
        apply andb_true_iff in Hitem. destruct Hitem as [Hitem Hv].
        apply andb_true_iff in Hitem. destruct Hitem as [H0 Hrest].
        rewrite (bracket_invariant _ _ H0 Eb), Hrest, Hv, Hr. reflexivity.
      * exact Hitem.
    + eapply bracket_invariant; eassumption.
Qed.

Lemma array_items_invariant :
  forall (rec : Selector) mime isJson items opts r o',
    (forall x o r o', In x items -> rec x mime o = Ok (Some r, o') ->
                      forallb invariant r = true) ->
    array_items rec mime isJson items opts = Ok (Some r, o') ->
    forallb invariant r = true.
Proof.
  intros rec mime isJson items. induction items as [| x items IHi];
    intros opts r o' Hrec E; cbn [array_items] in E; [discriminate E |].
  destruct (rec x mime opts) as [[[res |] o1] | |] eqn:Er; cbn [bind] in E;
    try discriminate E.
  - pose proof (Hrec x opts res o1 (or_introl eq_refl) Er) as Hres.
    destruct isJson.
    + destruct (_processJsonArrayExamples res) as [res' | |] eqn:Ep;
        cbn [bind] in E; try discriminate E.
      inversion E. subst. eapply processJsonArrayExamples_invariant; eassumption.
    + cbn [bind] in E. inversion E. subst. exact Hres.
  - eapply IHi; [| exact E]. intros y o r0 o0 Hy. apply Hrec. right. exact Hy.
Qed.

Lemma titled_invariant :
  forall e name, invariant e = true -> truthy name = true ->
                 invariant (set_title true name e) = true.
Proof.
  intros e name Hi Hn. destruct e as [hr ht hu v t r vs sc]. destruct hu.
  - exact Hi.
  - cbn -[is_undefined flags_agree] in Hi |- *.
    apply andb_true_iff in Hi. destruct Hi as [Hv Hf]. rewrite Hv. cbn [andb].
    unfold flags_agree in *. cbn -[is_undefined] in *.
    apply andb_true_iff in Hf. destruct Hf as [Hr _]. rewrite Hr.
    rewrite (truthy_defined _ Hn). reflexivity.
Qed.

Lemma union_alternatives_invariant :
  forall (rec : Selector) mime alternatives i vals opts vals' o',
    (forall x o r o', In x alternatives -> rec (unwrap x) mime o = Ok (Some r, o') ->
                      forallb invariant r = true) ->
    forallb invariant vals = true ->
    union_alternatives P rec mime alternatives i vals opts = Ok (vals', o') ->
    forallb invariant vals' = true.
Proof.
  intros rec mime alternatives. induction alternatives as [| x alternatives IHa];
    intros i vals opts vals' o' Hrec Hv E; cbn [union_alternatives] in E.
  - inversion E. subst. exact Hv.
  - unfold _resolve in E.
    destruct (rec (unwrap x) mime opts) as [[[[| data more] |] o1] | |] eqn:Er;
      cbn [bind] in E; try discriminate E.
    + pose proof (Hrec x opts _ o1 (or_introl eq_refl) Er) as Hres.
      cbn [forallb] in Hres. apply andb_true_iff in Hres. destruct Hres as [Hd _].
      eapply IHa; [| | exact E].
      * intros y o r0 o0 Hy. apply Hrec. right. exact Hy.
      * rewrite forallb_app, Hv. cbn [forallb andb]. rewrite andb_true_r.
        apply titled_invariant; [exact Hd |].
        destruct (truthy (_getValue P (unwrap x) ns.shacl_name)) eqn:Et;
          [exact Et | reflexivity].
    + eapply IHa; [| exact Hv | exact E].
      intros y o r0 o0 Hy. apply Hrec. right. exact Hy.
Qed.

Lemma union_invariant :
  forall v vs,
    forallb invariant (v :: vs) = true ->
    invariant (set_values (v :: vs)
                 (mkExample (Some false) false true JUndef JUndef JUndef (Some []) None))
    = true.
Proof.
  intros v vs H.
  change (forallb invariant (v :: vs) && true && true = true).
  rewrite H. reflexivity.
Qed.

Lemma invariant_fuel :
  forall (fuel : nat) (schema : JsVal) (mime : option string) (opts : Opts)
         (r : list Example) (o' : Opts),
    all_nodes (example_has_literal P) schema = true ->
    computeExamples_fuel P fuel schema mime opts = Ok (Some r, o') ->
    forallb invariant r = true.
Proof.
  induction fuel as [| fuel IH]; intros schema mime opts r o' Hall E;
    cbn [computeExamples_fuel] in E; [discriminate E |].
  destruct (negb (truthy schema) || (negb (str_truthy mime) && negb (rawOnly opts)));
    [discriminate E |].
  unfold _resolve in E.
  destruct (name_type P schema opts) as [opts1 | |]; cbn [bind] in E; try discriminate E.
  destruct (_ensureArray (prop schema (_getAmfKey P ns.apiContract_examples)))
    as [examples |] eqn:Ee.
  { destruct (_computeFromExamples P examples mime opts1) as [res | |] eqn:Ec;
      cbn [bind] in E; try discriminate E.
    inversion E. subst res o'. eapply computeFromExamples_invariant; [| exact Ec].
    cbn [all_nodes]. apply andb_true_iff. split; [reflexivity |].
    apply forallb_forall. intros x Hx.
    apply (all_nodes_member _ example_has_literal_undefined schema
             (_getAmfKey P ns.apiContract_examples) examples x Hall Ee Hx). }
  destruct (_readJsonSchema P schema) as [j | |]; cbn [bind] in E; try discriminate E.
  destruct (truthy j) eqn:Ej.
  { destruct (_exampleFromJsonSchema P schema j) as [res | |] eqn:Ex;
      cbn [bind] in E; try discriminate E.
    inversion E. subst res o'. eapply exampleFromJsonSchema_invariant; eassumption. }
  destruct (rawOnly opts1); [discriminate E |].
  match type of E with
  | bind ?m _ = _ => destruct m as [[value opts2] | |] eqn:Ea; cbn [bind] in E;
                     try discriminate E
  end.
  destruct value as [value |].
  { inversion E. subst value o'.
    destruct (_hasType P schema ns.shapes_ArrayShape); [| discriminate Ea].
    unfold _computeExampleArraySchape in Ea.
    destruct (_ensureArray (prop schema (_getAmfKey P ns.shapes_items)))
      as [items |] eqn:Ei; [| discriminate Ea].
    destruct (mime_has mime "json") as [isJson | |]; cbn [bind] in Ea;
      try discriminate Ea.
    eapply array_items_invariant; [| exact Ea].
    intros x o r0 o0 Hx Hr. eapply IH; [| exact Hr].
    apply (all_nodes_member _ example_has_literal_undefined schema
             (_getAmfKey P ns.shapes_items) items x Hall Ei Hx). }
  match type of E with
  | bind ?m _ = _ => destruct m as [[e |] | |] eqn:Eg; cbn [bind] in E;
                     try discriminate E
  end.
  { inversion E. subst r o'. cbn [forallb]. rewrite andb_true_r.
    destruct (_hasType P schema ns.apiContract_Example); [| discriminate Eg].
    eapply generateFromExample_invariant; [| exact Eg].
    apply all_nodes_self. exact Hall. }
  destruct (_hasType P schema ns.shapes_UnionShape).
  { unfold _computeUnionExamples in E.
    destruct (_ensureArray (prop schema (_getAmfKey P ns.shapes_anyOf)))
      as [anyOf |] eqn:Eu; [| discriminate E].
    match type of E with
    | bind ?m _ = _ => destruct m as [[vals o3] | |] eqn:El; cbn [bind] in E;
                       try discriminate E
    end.
    assert (Hvals : forallb invariant vals = true).
    { eapply union_alternatives_invariant; [| | exact El]; [| reflexivity].
      intros x o r0 o0 Hx Hr. eapply IH; [| exact Hr].
      apply all_nodes_unwrap; [reflexivity |].
      apply (all_nodes_member _ example_has_literal_undefined schema
               (_getAmfKey P ns.shapes_anyOf) anyOf x Hall Eu Hx). }
    destruct vals as [| v vs]; inversion E. subst r o'.
    cbn [forallb]. rewrite andb_true_r. apply union_invariant. exact Hvals. }
  destruct (noAuto opts2); [discriminate E |].
  destruct (_hasType P schema ns.shapes_ScalarShape).
  { destruct (_computeJsonScalarValue P schema) as [v | |] eqn:Ev; cbn [bind] in E;
      try discriminate E.
    inversion E. subst r o'. cbn -[is_undefined].
    rewrite (scalar_value_defined _ _ Ev). reflexivity. }
  destruct (_ensureArray (prop schema (_getAmfKey P ns.shacl_property)))
    as [[| p ps] |]; try discriminate E.
  match type of E with
  | bind ?m _ = _ => destruct m as [[e |] | |] eqn:Ep; cbn [bind] in E;
                     try discriminate E
  end.
  inversion E. subst r o'. cbn [forallb]. rewrite andb_true_r.
  eapply exampleFromProperties_invariant. exact Ep.
Qed.

(** X30. Where the invariant of the output model holds. Every view model
    that [computeExamples] returns, at any level, satisfies the invariant,
    provided that no node in the graph of the shape has a structured value
    that is a scalar without literal: with [hasUnion], [values] is a list that
    is not empty of view models that satisfy the invariant, and [value] and
    [raw] are absent; without it, [value] is set, [raw] is there exactly when
    [hasRaw] is true and [title] exactly when [hasTitle] is true. *)
Theorem returned_examples_satisfy_invariant :
  forall (schema : JsVal) (mime : option string) (opts : Opts)
         (r : list Example) (opts' : Opts),
    all_nodes (example_has_literal P) schema = true ->
    computeExamples P schema mime opts = Ok (Some r, opts') ->
    Forall (fun e => invariant e = true) r.
Proof.
  intros schema mime opts r opts' Hall E.
  apply Forall_forall. apply forallb_forall.
  eapply invariant_fuel; [exact Hall | exact E].
Qed.

Lemma hollow_scalar_read :
  forall example,
    hollow_scalar P (structured_value P example) ->
    js_get example (_getAmfKey P ns.document_structuredValue)
    = Ok (prop example (_getAmfKey P ns.document_structuredValue))
    /\ truthy (prop example (_getAmfKey P ns.document_structuredValue)) = true
    /\ _getTypedValue P (structured_value P example) = Ok JUndef.
Proof.
  intros example [Ht Hv]. unfold structured_value in *.
  set (s := prop example (_getAmfKey P ns.document_structuredValue)) in *.
  assert (Hs : truthy s = true).
  { destruct (truthy s) eqn:Es; [reflexivity |].
    assert (Eu : unwrap s = s) by (destruct s; try reflexivity; discriminate Es).
    rewrite Eu in Ht. unfold _hasType in Ht. rewrite Es in Ht.
    unfold _ensureArray in Ht. rewrite Es in Ht. discriminate Ht. }
  split; [| split; [exact Hs |]].
  - subst s. destruct example; try reflexivity; discriminate Hs.
  - unfold _getTypedValue. rewrite Hv. reflexivity.
Qed.

(** C1. The invariant fails on an author example whose structured value is
    a scalar node without [data:value].  [_generateFromExample] copies the
    result of [_getTypedValue], which is [undefined] on such a node, into
    [value]: the view model has no union and no value.  The branches next to
    it never leave [value] unset: an example without structured value (and
    without raw text) gets the empty string. *)
Theorem scalar_example_without_literal_has_no_value :
  forall (example : JsVal) (mime : option string) (opts : Opts) (m : string),
    rawOnly opts = false ->
    mime = Some m ->
    text_or_falsy (_getValue P example ns.core_name) = true ->
    truthy (example_raw P example) = false ->
    (hollow_scalar P (structured_value P example) ->
     exists e,
       _generateFromExample P example mime opts = Ok (Some e)
       /\ hasUnion e = false /\ value e = JUndef /\ invariant e = false)
    /\ (truthy example = true ->
        truthy (prop example (_getAmfKey P ns.document_structuredValue)) = false ->
        exists e,
          _generateFromExample P example mime opts = Ok (Some e)
          /\ hasUnion e = false /\ value e = JStr "" /\ invariant e = true).
Proof.
  intros example mime opts m Hr Hm Ht Hraw.
  assert (E : _generateFromExample P example mime opts
              = _generateFromExample_structure P example
                  (Str.contains m "json")
                  (if Str.contains m "json" then false else Str.contains m "xml")
                  opts (titled (example_title P example))).
  { unfold _generateFromExample. cbv zeta.
    rewrite (example_title_read example Ht). cbn [bind].
    fold (example_raw P example). rewrite Hraw, Hr. cbn [andb negb].
    subst mime. cbn [mime_has bind].
    destruct (Str.contains m "json"); reflexivity. }
  rewrite E. clear E. unfold _generateFromExample_structure.
  split.
  - intros Hh. destruct (hollow_scalar_read example Hh) as (Eg & Hs & Ev).
    rewrite Eg. cbn [bind]. rewrite Hs. cbn [negb].
    destruct Hh as [Hk _]. unfold structured_value in Hk, Ev.
    rewrite Hk, Ev. cbn [bind].
    eexists. split; [reflexivity |]. repeat split.
  - intros Hex Hs. rewrite (js_get_truthy _ _ Hex). cbn [bind].
    rewrite Hs. cbn [negb].
    eexists. split; [reflexivity |]. repeat split.
    apply under_way_value_scalar; [apply titled_under_way | reflexivity].
Qed.

End Invariant.


(** * Closed examples *)

Lemma missing_argument_is_absent_example :
  (truthy JUndef = false \/
   (str_truthy Samples.json = false /\ rawOnly no_opts = false))
  /\ computeExamples Host.platform JUndef Samples.json no_opts = Ok (None, no_opts)
  /\ generatePayloadsExamples Host.platform JUndef Samples.json no_opts
     = Ok (None, no_opts).
Proof.
  split.
  - left. reflexivity.
  - apply (missing_argument_is_absent Host.platform JUndef Samples.json no_opts).
    left. reflexivity.
Defined.

(** A list with one payload of another media type is not tried. *)
Lemma only_payload_of_other_media_is_skipped :
  generatePayloadsExamples Host.platform
    (JArr [Samples.payload "application/xml" Samples.count])
    Samples.json no_opts
  = Ok (None, no_opts)
  /\ generatePayloadExamples Host.platform
       (Samples.payload "application/xml" Samples.count) Samples.json no_opts
     = Ok (Some [mkExample (Some false) false false (JNum 0) JUndef JUndef None (Some true)],
           mkOpts false false (JStr "count") JUndef (JStr "amf://id#payload")).
Proof. split; vm_compute; reflexivity. Qed.

Lemma payloads_first_match_or_absent_example :
  truthy (JArr [Samples.payload "application/xml" Samples.count;
                Samples.payload "application/json" Samples.count]) = true
  /\ "application/json" <> ""
  /\ generatePayloadsExamples Host.platform
       (JArr [Samples.payload "application/xml" Samples.count;
              Samples.payload "application/json" Samples.count])
       Samples.json no_opts
     = generatePayloadExamples Host.platform
         (Samples.payload "application/json" Samples.count) Samples.json no_opts.
Proof.
  split; [reflexivity |]. split; [discriminate |].
  unfold Samples.json.
  rewrite (payloads_first_match_or_absent Host.platform
             (JArr [Samples.payload "application/xml" Samples.count;
                    Samples.payload "application/json" Samples.count])
             "application/json" no_opts); [| reflexivity | discriminate].
  reflexivity.
Defined.

(** The example of another payload hides the synthesized value. *)
Lemma unmatched_example_is_not_skipped :
  computeExamples Host.platform Samples.count_with_example Samples.json
    (Samples.for_payload "amf://id#payload")
  = Ok (None, mkOpts false false (JStr "count") JUndef (JStr "amf://id#payload"))
  /\ computeExamples Host.platform Samples.count Samples.json
       (Samples.for_payload "amf://id#payload")
     = Ok (Some [mkExample (Some false) false false (JNum 0) JUndef JUndef None (Some true)],
           mkOpts false false (JStr "count") JUndef (JStr "amf://id#payload")).
Proof. split; vm_compute; reflexivity. Qed.

Lemma unmatched_examples_are_absent_example :
  exists opts',
    computeExamples Host.platform Samples.count_with_example Samples.json
      (Samples.for_payload "amf://id#payload") = Ok (None, opts').
Proof.
  apply (unmatched_examples_are_absent Host.platform
           Samples.count_with_example Samples.json
           (Samples.for_payload "amf://id#payload")
           [Samples.tracked_example "7" "amf://id#other"]
           (Some [Samples.tracked_example "7" "amf://id#other"]));
    try reflexivity.
  left; reflexivity.
Defined.


(** C5. The second entry of the union that an array item gives keeps its
    bare value: only [values[0]] is put in brackets. *)
Lemma array_of_union_brackets_first_entry_only :
  computeExamples Host.platform (Samples.array_of Samples.text_or_integer)
    Samples.json no_opts
  = Ok (Some [mkExample (Some false) false true JUndef JUndef JUndef
                (Some [mkExample (Some false) true false
                         (JStr ("[" ++ dquote ++ dquote ++ "]"))
                         (JStr "text") JUndef None (Some true);
                       mkExample (Some false) true false
                         (JNum 0)
                         (JStr "Union #2") JUndef None (Some true)])
                None],
        mkOpts false false (JStr "text") JUndef JUndef).
Proof. vm_compute. reflexivity. Qed.

(** The underscore of an element name is removed; the dot of an attribute
    name is kept; a name that is no XML name after the removal is refused by
    the DOM. *)
Lemma markup_names_example :
  "user_name" <> ""
  /\ _getValue Host.platform (Samples.scalar "user_name" Samples.string_iri)
       ns.shacl_name = JStr "user_name"
  /\ (exists text,
        _appendXmlElement Host.platform Samples.root
          (Samples.scalar "user_name" Samples.string_iri)
        = Ok (Some (XElement "root" [] [XElement "username" [] [XText text]]),
              Some (XElement "username" [] [XText text])))
  /\ _normalizeXmlTagName "user_name" = "user_name"
  /\ _xmlProcessProperty Host.platform Samples.root
       (Samples.property_of (Samples.scalar "user_name" Samples.string_iri))
     = Ok (Some (XElement "root" [] [XElement "username" [] [XText " "]]))
  /\ _xmlProcessProperty Host.platform Samples.root
       (Samples.property_of (Samples.attribute_range "a.b?"))
     = Ok (Some (XElement "root" [("a.b", "string")] []))
  /\ _xmlProcessProperty Host.platform Samples.root
       (Samples.property_of (Samples.attribute_range "a??"))
     = Throw
  /\ _xmlProcessProperty Host.platform Samples.root
       (Samples.property_of (Samples.scalar "_" Samples.string_iri))
     = Throw.
Proof.
  split; [discriminate |]. split; [reflexivity |].
  split; [| repeat split; vm_compute; reflexivity].
  destruct (markup_names Host.platform "root" [] []
              (Samples.property_of (Samples.scalar "user_name" Samples.string_iri))
              (Samples.scalar "user_name" Samples.string_iri) JUndef "user_name"
              ltac:(discriminate)) as [H _].
  destruct (H eq_refl) as [text Ht]. exists text. exact Ht.
Defined.

Lemma scalar_zero_value_example :
  exists opts',
    computeExamples Host.platform Samples.count Samples.json no_opts
    = Ok (Some [mkExample (Some false) false false
                          (zero_value_table (Some "integer"))
                          JUndef JUndef None (Some true)],
          opts').
Proof.
  apply (scalar_zero_value Host.platform Samples.count Samples.json no_opts
           (Some "integer")); try reflexivity.
  split; [reflexivity | left; reflexivity].
Defined.

(** The datatype [xsd:integer] gets the empty string, where the table has
    [0]. *)
Lemma prefixed_datatype_gives_empty_text_example :
  declared_datatype Host.platform Samples.prefixed_count = JStr "xsd:integer"
  /\ zero_value_table (Some "integer") = JNum 0
  /\ exists opts',
       computeExamples Host.platform Samples.prefixed_count Samples.json no_opts
       = Ok (Some [mkExample (Some false) false false (JStr "")
                             JUndef JUndef None (Some true)],
             opts').
Proof.
  split; [reflexivity |]. split; [reflexivity |].
  apply (prefixed_datatype_gives_empty_text Host.platform Samples.prefixed_count
           Samples.json no_opts "xsd:integer"); reflexivity.
Defined.


(** A union whose first alternative gives no result: it is skipped, and
    the second one is titled by its position among all.  A union whose first
    alternative gives an empty list: the resolver fails, and
    [computeExamples] with it. *)
Lemma union_resolver_example :
  _computeUnionExamples Host.platform (computeExamples Host.platform)
    Samples.nothing_or_integer Samples.json no_opts
  = Ok (Some [mkExample (Some false) false true JUndef JUndef JUndef
                (Some [mkExample (Some false) true false (JNum 0)
                         (JStr "Union #2") JUndef None (Some true)])
                None],
        no_opts)
  /\ computeExamples Host.platform (Samples.count_with Samples.unreadable_example)
       Samples.json no_opts
     = Ok (Some [], mkOpts false false (JStr "count") JUndef JUndef)
  /\ _computeUnionExamples Host.platform (computeExamples Host.platform)
       Samples.unreadable_or_integer Samples.json no_opts
     = Throw
  /\ computeExamples Host.platform Samples.unreadable_or_integer Samples.json no_opts
     = Throw.
Proof.
  split; [| split; [vm_compute; reflexivity | split; [| vm_compute; reflexivity]]].
  - refine (proj1 (union_resolver Host.platform (computeExamples Host.platform)
                     Samples.nothing_or_integer Samples.json no_opts
                     [Samples.empty_object; Samples.unnamed_integer]
                     [None;
                      Some [mkExample (Some false) false false (JNum 0)
                              JUndef JUndef None (Some true)]]
                     no_opts eq_refl _)).
    vm_compute. reflexivity.
  - refine (proj1 (union_resolver Host.platform (computeExamples Host.platform)
                     Samples.unreadable_or_integer Samples.json no_opts
                     [Samples.count_with Samples.unreadable_example;
                      Samples.unnamed_integer]
                     [Some [];
                      Some [mkExample (Some false) false false (JNum 0)
                              JUndef JUndef None (Some true)]]
                     (mkOpts false false (JStr "count") JUndef JUndef) eq_refl _)).
    vm_compute. reflexivity.
Defined.

(** A shape without stored examples that was parsed from a JSON schema gets
    a value synthesized from its properties, also with [noAuto]. *)
Lemma json_schema_is_synthesized_with_noAuto :
  all_nodes (no_stored_example Host.platform) Samples.schema_backed = true
  /\ computeExamples Host.platform Samples.schema_backed Samples.json Samples.only_stored
     = Ok (Some [mkExample (Some true) false false
                   (JStr (Host.stringify (JObj [("p", JStr "")])))
                   JUndef (JStr "{}") None None],
           mkOpts false true (JStr "Thing") JUndef JUndef).
Proof. split; vm_compute; reflexivity. Qed.

Lemma noAuto_without_examples_is_absent_example :
  noAuto Samples.only_stored = true
  /\ all_nodes (unexampled Host.platform) (Samples.array_of Samples.text_or_integer) = true
  /\ exists opts',
       computeExamples Host.platform (Samples.array_of Samples.text_or_integer)
         Samples.json Samples.only_stored = Ok (None, opts').
Proof.
  split; [reflexivity |]. split; [vm_compute; reflexivity |].
  apply (noAuto_without_examples_is_absent Host.platform
           (Samples.array_of Samples.text_or_integer) Samples.json Samples.only_stored).
  - reflexivity.
  - vm_compute. reflexivity.
Defined.

(** An example whose structured value is a scalar without literal gives a
    view model without value, also when it has raw text; the same raw text
    without structured value is the value. *)
Lemma scalar_example_without_literal_has_no_value_example :
  hollow_scalar Host.platform (structured_value Host.platform Samples.hollow_example)
  /\ (exists e,
        _generateFromExample Host.platform Samples.hollow_example Samples.json no_opts
        = Ok (Some e)
        /\ hasUnion e = false /\ value e = JUndef /\ invariant e = false)
  /\ computeExamples Host.platform Samples.count_with_hollow_example Samples.json no_opts
     = Ok (Some [mkExample None false false JUndef JUndef JUndef None (Some true)],
           mkOpts false false (JStr "count") JUndef JUndef)
  /\ _generateFromExample Host.platform Samples.hollow_example_with_raw
       Samples.json no_opts
     = Ok (Some (mkExample (Some true) false false JUndef JUndef (JStr "seven")
                           None (Some true)))
  /\ _generateFromExample Host.platform (Samples.raw_example "seven")
       Samples.json no_opts
     = Ok (Some (mkExample (Some true) false false (JStr "seven") JUndef (JStr "seven")
                           None (Some false))).
Proof.
  assert (H : hollow_scalar Host.platform
                (structured_value Host.platform Samples.hollow_example))
    by (split; reflexivity).
  split; [exact H |].
  split; [| repeat split; vm_compute; reflexivity].
  exact (proj1 (scalar_example_without_literal_has_no_value Host.platform
                  Samples.hollow_example Samples.json no_opts "application/json"
                  eq_refl eq_refl eq_refl eq_refl) H).
Defined.

(** An author example whose structured value is the scalar [7]. *)
Lemma returned_examples_satisfy_invariant_example :
  all_nodes (example_has_literal Host.platform)
            (Samples.count_with Samples.literal_example) = true
  /\ computeExamples Host.platform (Samples.count_with Samples.literal_example)
       Samples.json no_opts
     = Ok (Some [mkExample None false false (JNum 7) JUndef JUndef None (Some true)],
           mkOpts false false (JStr "count") JUndef JUndef)
  /\ Forall (fun e => invariant e = true)
       [mkExample None false false (JNum 7) JUndef JUndef None (Some true)].
Proof.
  assert (Hall : all_nodes (example_has_literal Host.platform)
                   (Samples.count_with Samples.literal_example) = true)
    by (vm_compute; reflexivity).
  assert (E : computeExamples Host.platform (Samples.count_with Samples.literal_example)
                Samples.json no_opts
              = Ok (Some [mkExample None false false (JNum 7) JUndef JUndef None
                            (Some true)],
                    mkOpts false false (JStr "count") JUndef JUndef))
    by (vm_compute; reflexivity).
  split; [exact Hall |]. split; [exact E |].
  exact (returned_examples_satisfy_invariant Host.platform
           (Samples.count_with Samples.literal_example) Samples.json no_opts _ _ Hall E).
Defined.

(** * Further properties of the generator *)

Section Payloads.

Variable P : Platform.

(** ** Media types and payloads *)

Lemma find_declares :
  forall (m : string) (l : list JsVal),
    In (JStr m) (map (fun p => _getValue P (_resolve p) ns.core_mediaType) l) ->
    exists p, find (declares P m) l = Some p /\ In p l /\ declares P m p = true.
Proof.
  intros m l. induction l as [| q l IH]; intros H; [contradiction H |].
  cbn [find]. destruct (declares P m q) eqn:Eq.
  - exists q. repeat split; [left; reflexivity | exact Eq].
  - destruct H as [H | H].
    + unfold declares, payload_media in Eq. unfold _resolve in H. rewrite H in Eq.
      cbn in Eq. rewrite String.eqb_refl in Eq. discriminate Eq.
    + destruct (IH H) as (p & E & Hin & Hd). exists p.
      repeat split; [exact E | right; exact Hin | exact Hd].
Qed.

(** X1. Every media type that [listMedia] lists for payloads selects one of
    them: [generatePayloadsExamples] called with a listed media type (a text
    that is not empty) hands a payload of the list that declares this media
    type to [generatePayloadExamples]; the loop never ends without a match. *)
Theorem listed_media_selects_a_payload :
  forall (payloads : JsVal) (listed : list JsVal) (m : string) (opts : Opts),
    listMedia P payloads = Some listed ->
    In (JStr m) listed ->
    m <> "" ->
    exists payload,
      In payload (payload_list payloads)
      /\ payload_media P payload = JStr m
      /\ generatePayloadsExamples P payloads (Some m) opts
         = generatePayloadExamples P payload (Some m) opts.
Proof.
  intros payloads listed m opts Hl Hin Hm.
  unfold listMedia in Hl.
  destruct (truthy payloads) eqn:Ht; cbn [negb] in Hl; [| discriminate Hl].
  assert (Hmap : In (JStr m)
                    (map (fun p => _getValue P (_resolve p) ns.core_mediaType)
                         (payload_list payloads))).
  { destruct payloads as [| | b | z | | t | l | fs]; cbn [payload_list];
      try (destruct (negb (_hasType P _ ns.apiContract_Payload));
           [discriminate Hl | inversion Hl; subst listed; exact Hin]).
    inversion Hl. subst listed. exact Hin. }
  destruct (find_declares m _ Hmap) as (p & Ef & Hp & Hd).
  exists p. split; [exact Hp |]. split.
  { unfold declares in Hd. destruct (payload_media P p); cbn in Hd; try discriminate Hd.
    apply String.eqb_eq in Hd. subst. reflexivity. }
  unfold generatePayloadsExamples.
  assert (Hs : str_truthy (Some m) = true).
  { cbn. destruct (String.eqb_spec m ""); [contradiction | reflexivity]. }
  rewrite Ht, Hs. cbn [negb orb andb].
  fold (payload_list payloads).
  clear Hmap Hp Hl. revert Ef.
  induction (payload_list payloads) as [| q l IH]; intros Ef; [discriminate Ef |].
  cbn [find] in Ef. unfold declares at 1, payload_media in Ef.
  destruct (strict_eq_str (_getValue P q ns.core_mediaType) m); cbn [negb].
  - inversion Ef. reflexivity.
  - apply IH. exact Ef.
Qed.

(** ** The options after a call *)

Lemma same_switches_refl : forall o, same_switches o o.
Proof. intros o. repeat split. Qed.

Lemma same_switches_trans :
  forall a b c, same_switches a b -> same_switches b c -> same_switches a c.
Proof.
  intros a b c (H1 & H2 & H3) (G1 & G2 & G3).
  repeat split; congruence.
Qed.

Lemma name_type_switches :
  forall schema opts o, name_type P schema opts = Ok o -> same_switches opts o.
Proof.
  intros schema opts o E. unfold name_type in E.
  destruct (negb (truthy (typeName opts)));
    [| inversion E; apply same_switches_refl].
  destruct (truthy (_getValue P schema ns.shacl_name));
    [| inversion E; apply same_switches_refl].
  destruct (_getValue P schema ns.shacl_name) as [| | b | z | | t | l | fs];
    try discriminate E.
  - destruct (Str.startsWith t "amf_inline_type"); inversion E; repeat split.
  - destruct (strict_eq_str (first l) "amf_inline_type"); inversion E; repeat split.
Qed.

Lemma array_items_switches :
  forall (rec : Selector) mime isJson items opts r o,
    (forall x a r' b, In x items -> rec x mime a = Ok (r', b) -> same_switches a b) ->
    array_items rec mime isJson items opts = Ok (r, o) ->
    same_switches opts o.
Proof.
  intros rec mime isJson items.
  induction items as [| x items IH]; intros opts r o Hrec E; cbn [array_items] in E.
  - inversion E. apply same_switches_refl.
  - destruct (rec x mime opts) as [[r1 o1] | |] eqn:E1; cbn [bind] in E;
      try discriminate E.
    pose proof (Hrec x opts r1 o1 (or_introl eq_refl) E1) as H1.
    destruct r1 as [r1 |].
    + destruct (if isJson then _ else _) as [r2 | |]; cbn [bind] in E;
        try discriminate E.
      inversion E. subst. exact H1.
    + apply (same_switches_trans _ _ _ H1). apply (IH _ _ _ ) with (2 := E).
      intros y a r' b Hy. apply Hrec. right. exact Hy.
Qed.

Lemma union_alternatives_switches :
  forall (rec : Selector) mime anyOf i vals opts r o,
    (forall x a r' b, In x anyOf -> rec (unwrap x) mime a = Ok (r', b) ->
                      same_switches a b) ->
    union_alternatives P rec mime anyOf i vals opts = Ok (r, o) ->
    same_switches opts o.
Proof.
  intros rec mime anyOf.
  induction anyOf as [| x anyOf IH]; intros i vals opts r o Hrec E;
    cbn [union_alternatives] in E.
  - inversion E. apply same_switches_refl.
  - unfold _resolve in E.
    destruct (rec (unwrap x) mime opts) as [[r1 o1] | |] eqn:E1; cbn [bind] in E;
      try discriminate E.
    pose proof (Hrec x opts r1 o1 (or_introl eq_refl) E1) as H1.
    assert (Hrec' : forall y a r' b, In y anyOf -> rec (unwrap y) mime a = Ok (r', b) ->
                                     same_switches a b).
    { intros y a r' b Hy. apply Hrec. right. exact Hy. }
    apply (same_switches_trans _ _ _ H1).
    destruct r1 as [[| d ds] |]; try discriminate E.
    + eapply IH; [exact Hrec' | exact E].
    + eapply IH; [exact Hrec' | exact E].
Qed.

Lemma computeExamples_fuel_switches :
  forall fuel schema mime opts r o,
    computeExamples_fuel P fuel schema mime opts = Ok (r, o) ->
    same_switches opts o.
Proof.
  induction fuel as [| fuel IH]; intros schema mime opts r o E; [discriminate E |].
  cbn [computeExamples_fuel] in E. unfold _resolve in E.
  destruct (negb (truthy schema) || _); [inversion E; apply same_switches_refl |].
  destruct (name_type P schema opts) as [o1 | |] eqn:En; cbn [bind] in E;
    try discriminate E.
  apply (same_switches_trans _ _ _ (name_type_switches _ _ _ En)).
  destruct (_ensureArray (prop schema (_getAmfKey P ns.apiContract_examples))).
  { destruct (_computeFromExamples P l mime o1); cbn [bind] in E; try discriminate E.
    inversion E. apply same_switches_refl. }
  destruct (_readJsonSchema P schema) as [js | |]; cbn [bind] in E; try discriminate E.
  destruct (truthy js).
  { destruct (_exampleFromJsonSchema P schema js); cbn [bind] in E; try discriminate E.
    inversion E. apply same_switches_refl. }
  destruct (rawOnly o1); [inversion E; apply same_switches_refl |].
  match type of E with
  | bind ?m _ = _ => destruct m as [[v o2] | |] eqn:Ea; cbn [bind] in E;
                     try discriminate E
  end.
  assert (H2 : same_switches o1 o2).
  { destruct (_hasType P schema ns.shapes_ArrayShape);
      [| inversion Ea; apply same_switches_refl].
    unfold _computeExampleArraySchape in Ea.
    destruct (_ensureArray _) as [items |];
      [| inversion Ea; apply same_switches_refl].
    destruct (mime_has mime "json") as [isJson | |]; cbn [bind] in Ea;
      try discriminate Ea.
    apply array_items_switches in Ea.
    - destruct Ea as (A1 & A2 & A3). repeat split; assumption.
    - intros x a r' b _ Hx. eapply IH. exact Hx. }
  apply (same_switches_trans _ _ _ H2).
  destruct v as [v |]; [inversion E; apply same_switches_refl |].
  match type of E with
  | bind ?m _ = _ => destruct m as [[v |] | |]; cbn [bind] in E; try discriminate E
  end; [inversion E; apply same_switches_refl |].
  destruct (_hasType P schema ns.shapes_UnionShape).
  { unfold _computeUnionExamples in E.
    destruct (_ensureArray _) as [anyOf |];
      [| inversion E; apply same_switches_refl].
    destruct (union_alternatives P (computeExamples_fuel P fuel) mime anyOf 0 [] o2)
      as [[vals o3] | |] eqn:Eu; cbn [bind] in E; try discriminate E.
    apply union_alternatives_switches in Eu.
    - destruct vals; inversion E; subst; exact Eu.
    - intros x a r' b _ Hx. eapply IH. exact Hx. }
  destruct (noAuto o2); [inversion E; apply same_switches_refl |].
  destruct (_hasType P schema ns.shapes_ScalarShape).
  { destruct (_computeJsonScalarValue P schema); cbn [bind] in E; try discriminate E.
    inversion E. apply same_switches_refl. }
  destruct (_ensureArray _) as [[| p ps] |];
    try (inversion E; apply same_switches_refl).
  destruct (_exampleFromProperties P (p :: ps) mime (typeName o2) (parentName o2))
    as [[v |] | |]; cbn [bind] in E; try discriminate E;
    inversion E; apply same_switches_refl.
Qed.

(** X2. The options object is shared with the caller and is written during
    generation (the type name and the parent name are).  Whatever the
    shape, [computeExamples] leaves the switches that the caller set as
    they were: [rawOnly], [noAuto] and [typeId]. *)
Theorem computeExamples_keeps_switches :
  forall (schema : JsVal) (mime : option string) (opts : Opts)
         (r : option (list Example)) (opts' : Opts),
    computeExamples P schema mime opts = Ok (r, opts') ->
    rawOnly opts' = rawOnly opts /\ noAuto opts' = noAuto opts
    /\ typeId opts' = typeId opts.
Proof.
  intros schema mime opts r opts' E.
  exact (computeExamples_fuel_switches _ _ _ _ _ _ E).
Qed.

(** X3. [generatePayloadExamples] writes the identifier of the payload into the
    options it was given: after a call that reached the schema of the payload
    the options carry [typeId] equal to the [@id] of the payload, whatever
    they carried before, and [rawOnly] and [noAuto] as the caller set them. *)
Theorem generatePayloadExamples_sets_typeId :
  forall (payload : JsVal) (mime : option string) (opts : Opts)
         (r : option (list Example)) (opts' : Opts),
    _hasType P payload ns.apiContract_Payload = true ->
    truthy (prop payload (_getAmfKey P ns.shapes_schema)) = true ->
    generatePayloadExamples P payload mime opts = Ok (r, opts') ->
    typeId opts' = prop payload "@id"
    /\ rawOnly opts' = rawOnly opts /\ noAuto opts' = noAuto opts.
Proof.
  intros payload mime opts r opts' Ht Hs E.
  unfold generatePayloadExamples, _resolve in E. cbv zeta in E.
  rewrite Ht, Hs in E. cbn [negb] in E.
  destruct (computeExamples_fuel_switches _ _ _ _ _ _ E) as (H1 & H2 & H3).
  cbn in H1, H2, H3. repeat split; assumption.
Qed.

End Payloads.

Section RawOnly.

Variable P : Platform.

(** ** Raw examples only *)

Lemma foldM_ext :
  forall (A S : Type) (f g : S -> A -> Res S) (l : list A) (s : S),
    (forall s x, f s x = g s x) -> foldM f s l = foldM g s l.
Proof.
  intros A S f g l. induction l as [| x l IH]; intros s H; cbn [foldM].
  - reflexivity.
  - rewrite H. destruct (g s x); cbn [bind]; try reflexivity. apply IH. exact H.
Qed.

Lemma ensureArray_truthy :
  forall v l, _ensureArray v = Some l -> truthy v = true.
Proof.
  intros v l E. unfold _ensureArray in E.
  destruct (truthy v); [reflexivity | discriminate E].
Qed.

Lemma ensureArray_falsy : forall v, _ensureArray v = None -> truthy v = false.
Proof.
  intros v E. unfold _ensureArray in E.
  destruct (truthy v); [| reflexivity]. destruct v; discriminate E.
Qed.

Lemma generateFromExample_rawOnly :
  forall example mime opts,
    rawOnly opts = true ->
    _generateFromExample P example mime opts
    = (title <- (let title := _getValue P example ns.core_name in
                 if truthy title
                 then match title with
                      | JStr t =>
                          Ok (if Str.startsWith t "example_" then JUndef else title)
                      | JArr l =>
                          Ok (if strict_eq_str (first l) "example_" then JUndef
                              else title)
                      | _ => Throw
                      end
                 else Ok title) ;;
       if truthy (example_raw P example)
       then Ok (Some (set_isScalar false
                        (set_value (example_raw P example)
                           (set_hasRaw false (titled title)))))
       else Ok None).
Proof.
  intros example mime opts H. unfold _generateFromExample, example_raw. cbv zeta.
  match goal with
  | |- bind ?m _ = bind ?m _ => destruct m as [title | |]; cbn [bind]; try reflexivity
  end.
  rewrite H. cbn [andb].
  destruct (truthy (if negb (truthy (_getValue P example ns.document_raw))
                    then _getValue P example ns.shacl_raw
                    else _getValue P example ns.document_raw)); reflexivity.
Qed.

Lemma computeFromExamples_rawOnly :
  forall examples m1 m2 opts,
    rawOnly opts = true ->
    _computeFromExamples P examples m1 opts = _computeFromExamples P examples m2 opts.
Proof.
  intros examples m1 m2 opts H. unfold _computeFromExamples.
  destruct (_processExamples P (JArr examples)) as [e1 | |]; cbn [bind]; try reflexivity.
  destruct (_listTypeExamples P e1 (typeId opts)) as [[l |] | |]; cbn [bind];
    try reflexivity.
  f_equal. apply foldM_ext. intros s x.
  rewrite (generateFromExample_rawOnly x m1 opts H).
  rewrite (generateFromExample_rawOnly x m2 opts H). reflexivity.
Qed.

(** X4. With [rawOnly] set the media type is never read: [computeExamples]
    gives the same result and the same options for any two media types,
    a missing one included, on every shape. *)
Theorem rawOnly_ignores_media :
  forall (schema : JsVal) (m1 m2 : option string) (opts : Opts),
    rawOnly opts = true ->
    computeExamples P schema m1 opts = computeExamples P schema m2 opts.
Proof.
  intros schema m1 m2 opts H. unfold computeExamples.
  cbn [computeExamples_fuel]. rewrite H. cbn [negb]. rewrite !andb_false_r.
  destruct (negb (truthy schema) || false); [reflexivity |].
  unfold _resolve.
  destruct (name_type P schema opts) as [o1 | |] eqn:En; cbn [bind]; try reflexivity.
  destruct (name_type_switches P _ _ _ En) as (H1 & _ & _). rewrite H in H1.
  destruct (_ensureArray (prop schema (_getAmfKey P ns.apiContract_examples))).
  { rewrite (computeFromExamples_rawOnly l m1 m2 o1 H1). reflexivity. }
  destruct (_readJsonSchema P schema) as [js | |]; cbn [bind]; try reflexivity.
  destruct (truthy js); [reflexivity |].
  rewrite H1. reflexivity.
Qed.

Lemma title_read :
  forall example t,
    (let title := _getValue P example ns.core_name in
     if truthy title
     then match title with
          | JStr t => Ok (if Str.startsWith t "example_" then JUndef else title)
          | JArr l => Ok (if strict_eq_str (first l) "example_" then JUndef else title)
          | _ => Throw
          end
     else Ok title) = Ok t ->
    t = example_title P example.
Proof.
  intros example t E. cbv zeta in E. unfold example_title.
  destruct (_getValue P example ns.core_name) as [| | b | z | | s | l | fs];
    cbn [truthy] in E; try (inversion E; reflexivity).
  - destruct b; [discriminate E | inversion E; reflexivity].
  - destruct (negb (z =? 0)); [discriminate E | inversion E; reflexivity].
  - destruct (negb (s =? "")%string) eqn:Es; [inversion E; reflexivity |].
    apply negb_false_iff in Es. apply String.eqb_eq in Es. subst s.
    inversion E. reflexivity.
Qed.

Lemma rawOnly_loop :
  forall (mime : option string) (opts : Opts) (l : list JsVal)
         (done res : list Example),
    rawOnly opts = true ->
    foldM (fun result shape =>
             value <- _generateFromExample P shape mime opts ;;
             match value with
             | Some value => Ok (result ++ [value])%list
             | None => Ok result
             end)
          done l = Ok res ->
    res = (done
           ++ map (raw_view P)
                  (List.filter (fun x => truthy (example_raw P x)) l))%list.
Proof.
  intros mime opts l. induction l as [| x l IH]; intros done res H E;
    cbn [foldM] in E.
  - inversion E. cbn. rewrite app_nil_r. reflexivity.
  - rewrite (generateFromExample_rawOnly x mime opts H) in E.
    match type of E with
    | bind (bind (bind ?m _) _) _ = _ =>
        destruct m as [t | |] eqn:Et; cbn [bind] in E; try discriminate E
    end.
    apply title_read in Et. subst t.
    cbn [List.filter].
    destruct (truthy (example_raw P x)) eqn:Er; cbn [bind] in E.
    + rewrite (IH _ _ H E). cbn [map]. rewrite <- app_assoc. reflexivity.
    + exact (IH _ _ H E).
Qed.

Lemma computeFromExamples_rawOnly_views :
  forall examples mime opts r,
    rawOnly opts = true ->
    _computeFromExamples P examples mime opts = Ok (Some r) ->
    Forall shows_raw_text r
    /\ exists stored kept,
         _processExamples P (JArr examples) = Ok stored
         /\ _listTypeExamples P stored (typeId opts) = Ok (Some kept)
         /\ r = map (raw_view P)
                    (List.filter (fun x => truthy (example_raw P x)) kept).
Proof.
  intros examples mime opts r H E. unfold _computeFromExamples in E.
  destruct (_processExamples P (JArr examples)) as [e1 | |]; cbn [bind] in E;
    try discriminate E.
  destruct (_listTypeExamples P e1 (typeId opts)) as [[l |] | |] eqn:El;
    cbn [bind] in E; try discriminate E.
  match type of E with
  | bind ?m _ = _ => destruct m as [res | |] eqn:Ef; cbn [bind] in E;
                     try discriminate E
  end.
  inversion E. subst r. clear E.
  apply rawOnly_loop in Ef; [| exact H]. cbn [app] in Ef. subst res.
  split.
  - apply Forall_forall. intros e He. apply in_map_iff in He.
    destruct He as (x & Ex & Hx). apply filter_In in Hx. destruct Hx as [_ Hx].
    subst e. unfold shows_raw_text, raw_view. cbn. rewrite Hx. repeat split.
  - exists e1, l. repeat split. exact El.
Qed.

(** X5. With [rawOnly] set, on a shape that has author examples or no parsed
    JSON schema, nothing is parsed or synthesized: the view models that
    [computeExamples] returns are, in order, those of the examples that the
    filter by payload kept and that have raw text, and each of them shows the
    raw text of its example as its value, with the title the author gave it,
    [hasRaw] false, no [raw] field, no union and no scalar mark; a shape
    without author examples gives no result. *)
Theorem rawOnly_shows_raw_text :
  forall (schema : JsVal) (mime : option string) (opts : Opts)
         (r : list Example) (opts' : Opts),
    rawOnly opts = true ->
    truthy (prop schema (_getAmfKey P ns.apiContract_examples)) = true
    \/ no_json_schema P schema = true ->
    computeExamples P schema mime opts = Ok (Some r, opts') ->
    truthy (prop schema (_getAmfKey P ns.apiContract_examples)) = true
    /\ Forall shows_raw_text r
    /\ exists examples stored kept,
         _ensureArray (prop schema (_getAmfKey P ns.apiContract_examples))
         = Some examples
         /\ _processExamples P (JArr examples) = Ok stored
         /\ _listTypeExamples P stored (typeId opts) = Ok (Some kept)
         /\ r = map (raw_view P)
                    (List.filter (fun x => truthy (example_raw P x)) kept).
Proof.
  intros schema mime opts r opts' H Hs E. unfold computeExamples in E.
  cbn [computeExamples_fuel] in E. unfold _resolve in E.
  destruct (negb (truthy schema) || _); [discriminate E |].
  destruct (name_type P schema opts) as [o1 | |] eqn:En; cbn [bind] in E;
    try discriminate E.
  destruct (name_type_switches P _ _ _ En) as (H1 & _ & Hid). rewrite H in H1.
  destruct (_ensureArray (prop schema (_getAmfKey P ns.apiContract_examples)))
    as [l |] eqn:Ee.
  - split; [apply (ensureArray_truthy _ _ Ee) |].
    destruct (_computeFromExamples P l mime o1) as [[res |] | |] eqn:Ec;
      cbn [bind] in E; try discriminate E.
    inversion E. subst.
    destruct (computeFromExamples_rawOnly_views _ _ _ _ H1 Ec)
      as (Hv & stored & kept & Hp & Hk & Hr).
    split; [exact Hv |].
    exists l, stored, kept. rewrite Hid in Hk. repeat split; assumption.
  - destruct Hs as [Hs | Hs];
      [rewrite (ensureArray_falsy _ Ee) in Hs; discriminate Hs |].
    unfold no_json_schema in Hs.
    destruct (_readJsonSchema P schema) as [js | |]; cbn [bind] in E;
      try discriminate E.
    destruct (truthy js); [discriminate Hs |].
    rewrite H1 in E. discriminate E.
Qed.

End RawOnly.

Section AuthorExamples.

Variable P : Platform.

(** ** The examples of a payload *)

Lemma subsequence_refl_nil : forall (A : Type) (l : list A), subsequence [] l.
Proof. intros A l. induction l; constructor; assumption. Qed.

Lemma foldM_filter :
  forall (A B : Type) (g : A -> B) (must : A -> bool)
         (f : list B -> A -> Res (list B)) (l : list A) (s r : list B),
    (forall s x s', f s x = Ok s' ->
                    s' = (s ++ [g x])%list \/ (s' = s /\ must x = false)) ->
    foldM f s l = Ok r ->
    exists kept,
      r = (s ++ kept)%list
      /\ subsequence kept (map g l)
      /\ forall x, In x l -> must x = true -> In (g x) kept.
Proof.
  intros A B g must f l. induction l as [| x l IH]; intros s r Hf E; cbn [foldM] in E.
  - inversion E. exists []. rewrite app_nil_r.
    repeat split; [constructor | intros x []].
  - destruct (f s x) as [s1 | |] eqn:E1; cbn [bind] in E; try discriminate E.
    destruct (IH s1 r Hf E) as (k & Er & Hsub & Hin).
    destruct (Hf s x s1 E1) as [H | [H Hm]]; subst s1.
    + exists (g x :: k). rewrite <- app_assoc in Er.
      repeat split; [exact Er | constructor; exact Hsub |].
      intros y [Hy | Hy] Hmy; [subst y; left; reflexivity | right; auto].
    + exists k. repeat split; [exact Er | constructor; exact Hsub |].
      intros y [Hy | Hy] Hmy; [subst y; congruence | auto].
Qed.

(** X6. The filter by payload only leaves examples out. With a payload
    identifier, [_listTypeExamples] keeps the examples in their order (each
    taken out of its one-element array), keeps every example that its source
    maps do not track to an element, and gives absent, never an empty list,
    when it keeps none. *)
Theorem listTypeExamples_leaves_out :
  forall (examples : list JsVal) (id : JsVal) (r : option (list JsVal)),
    truthy id = true ->
    _listTypeExamples P (Some examples) id = Ok r ->
    exists kept,
      subsequence kept (map unwrap examples)
      /\ (forall e, In e examples -> untracked P (unwrap e) = true ->
                    In (unwrap e) kept)
      /\ r = match kept with [] => None | _ => Some kept end.
Proof.
  intros examples id r Hid E. unfold _listTypeExamples in E.
  rewrite Hid in E. cbn [negb] in E.
  match type of E with
  | bind ?m _ = _ => destruct m as [longId | |]; cbn [bind] in E; try discriminate E
  end.
  match type of E with
  | bind ?m _ = _ => destruct m as [res | |] eqn:Ef; cbn [bind] in E;
                     try discriminate E
  end.
  apply (foldM_filter _ _ unwrap (fun e => untracked P (unwrap e))) in Ef.
  - destruct Ef as (kept & Er & Hsub & Hin). cbn [app] in Er. subst res.
    exists kept. repeat split; [exact Hsub | exact Hin |].
    inversion E. reflexivity.
  - intros s x s' Ex. unfold untracked.
    destruct (js_get (unwrap x) (_getAmfKey P ns.docSourceMaps_sources))
      as [sm | |] eqn:Es; cbn [bind] in Ex; try discriminate Ex.
    rewrite (js_get_ok _ _ _ Es) in *.
    destruct (negb (truthy (prop (unwrap x) (_getAmfKey P ns.docSourceMaps_sources))));
      [inversion Ex; left; reflexivity |].
    cbn [orb].
    match type of Ex with
    | bind (js_get ?o ?k) _ = _ =>
        destruct (js_get o k) as [tr | |] eqn:Et; cbn [bind] in Ex;
        try discriminate Ex; rewrite (js_get_ok _ _ _ Et) in *
    end.
    match type of Ex with
    | (if negb (truthy ?t) then _ else _) = _ => destruct (negb (truthy t))
    end; [inversion Ex; left; reflexivity |].
    match type of Ex with
    | (if ?b then _ else _) = _ => destruct b
    end; [inversion Ex; right; split; reflexivity |].
    match type of Ex with
    | match ?v with _ => _ end = _ => destruct v; try discriminate Ex
    end.
    match type of Ex with
    | (if ?b then _ else _) = _ => destruct b
    end; inversion Ex; [left | right; split]; reflexivity.
Qed.

(** ** Titles *)

Lemma generateFromExample_structure_title :
  forall example isJson isXml opts result e,
    _generateFromExample_structure P example isJson isXml opts result = Ok (Some e) ->
    title e = title result /\ hasTitle e = hasTitle result.
Proof.
  intros example isJson isXml opts result e E.
  unfold _generateFromExample_structure in E.
  destruct (js_get example _) as [st | |]; cbn [bind] in E; try discriminate E.
  destruct (negb (truthy st)).
  { destruct (truthy (raw result)); inversion E; split; reflexivity. }
  destruct (_hasType P (unwrap st) ns.data_Scalar).
  { destruct (_getTypedValue P (unwrap st)); cbn [bind] in E; try discriminate E.
    inversion E. split; reflexivity. }
  destruct isJson.
  { destruct (_jsonFromStructure P (unwrap st)) as [d | |]; cbn [bind] in E;
      try discriminate E.
    destruct (truthy d); inversion E. split; reflexivity. }
  destruct isXml.
  { destruct (_xmlFromStructure P (unwrap st) opts); cbn [bind] in E;
      try discriminate E.
    inversion E. split; reflexivity. }
  cbn in E. destruct (truthy (raw result)); inversion E; split; reflexivity.
Qed.

Lemma generateFromExample_title :
  forall example mime opts e,
    _generateFromExample P example mime opts = Ok (Some e) ->
    title e = (if truthy (example_title P example) then example_title P example
               else JUndef)
    /\ hasTitle e = truthy (example_title P example).
Proof.
  intros example mime opts e E. unfold _generateFromExample in E. cbv zeta in E.
  assert (Ht : forall t,
             (if truthy (_getValue P example ns.core_name)
              then match _getValue P example ns.core_name with
                   | JStr t =>
                       Ok (if Str.startsWith t "example_" then JUndef
                           else _getValue P example ns.core_name)
                   | JArr l =>
                       Ok (if strict_eq_str (first l) "example_" then JUndef
                           else _getValue P example ns.core_name)
                   | _ => Throw
                   end
              else Ok (_getValue P example ns.core_name)) = Ok t ->
             t = example_title P example).
  { intros t H. unfold example_title.
    destruct (truthy (_getValue P example ns.core_name)) eqn:Etr.
    - destruct (_getValue P example ns.core_name); try discriminate H;
        inversion H; reflexivity.
    - inversion H. subst t.
      destruct (_getValue P example ns.core_name) as [| | b | z | | s | l | fs];
        try reflexivity; try discriminate Etr.
      destruct s; [reflexivity | cbn in Etr; discriminate Etr]. }
  match type of E with
  | bind ?m _ = _ => destruct m as [t | |] eqn:Et; cbn [bind] in E;
                     try discriminate E
  end.
  specialize (Ht t eq_refl). subst t.
  set (t := example_title P example) in *.
  destruct (rawOnly opts && _); [discriminate E |].
  destruct (rawOnly opts); [inversion E; split; reflexivity |].
  destruct (mime_has mime "json") as [isJson | |]; cbn [bind] in E; try discriminate E.
  match type of E with
  | bind ?m _ = _ => destruct m as [isXml | |]; cbn [bind] in E; try discriminate E
  end.
  match type of E with
  | (if ?b then _ else _) = _ => destruct b
  end.
  2:{ apply generateFromExample_structure_title in E. exact E. }
  match type of E with
  | (if ?b then _ else _) = _ => destruct b
  end; [inversion E; split; reflexivity |].
  match type of E with
  | bind ?m _ = _ => destruct m as [[|] | |]; cbn [bind] in E; try discriminate E
  end; [inversion E; split; reflexivity |].
  apply generateFromExample_structure_title in E. exact E.
Qed.

Lemma truthy_JUndef_if :
  forall v, truthy (if truthy v then v else JUndef) = truthy v.
Proof. intros v. destruct (truthy v) eqn:E; [exact E | reflexivity]. Qed.

(** X7. Generated names are never shown. Every view model that
    [_computeFromExamples] builds from author examples has [hasTitle] true
    exactly when it has a title that is not empty, and a title that is text
    never starts with ["example_"], the prefix of the names that the parser
    generates for examples without a name. *)
Theorem generated_titles_are_hidden :
  forall (examples : list JsVal) (mime : option string) (opts : Opts)
         (r : list Example),
    _computeFromExamples P examples mime opts = Ok (Some r) ->
    Forall authored_title r.
Proof.
  intros examples mime opts r E. unfold _computeFromExamples in E.
  destruct (_processExamples P (JArr examples)) as [e1 | |]; cbn [bind] in E;
    try discriminate E.
  destruct (_listTypeExamples P e1 (typeId opts)) as [[l |] | |]; cbn [bind] in E;
    try discriminate E.
  match type of E with
  | bind ?m _ = _ => destruct m as [res | |] eqn:Ef; cbn [bind] in E;
                     try discriminate E
  end.
  inversion E. subst r. clear E.
  refine (foldM_invariant _ _ (fun r => Forall authored_title r) _ _ _ _ _ _ Ef).
  - constructor.
  - intros s x s' _ Hs Ex.
    destruct (_generateFromExample P x mime opts) as [[e |] | |] eqn:Eg;
      cbn [bind] in Ex; try discriminate Ex; inversion Ex; subst s'; [| exact Hs].
    apply Forall_app. split; [exact Hs |]. constructor; [| constructor].
    destruct (generateFromExample_title _ _ _ _ Eg) as (Ht & Hh).
    unfold authored_title. rewrite Hh, Ht. split.
    + symmetry. apply truthy_JUndef_if.
    + intros t Et. unfold example_title in *.
      destruct (_getValue P x ns.core_name) as [| | b | z | | t0 | l0 | fs];
        try (destruct (truthy _); discriminate Et).
      * destruct (Str.startsWith t0 "example_") eqn:Es.
        -- cbn in Et. discriminate Et.
        -- destruct (truthy (JStr t0)); [| discriminate Et].
           inversion Et. subst t. exact Es.
      * destruct (strict_eq_str (first l0) "example_");
          destruct (truthy _); discriminate Et.
Qed.

End AuthorExamples.

Section JsonSchema.

Variable P : Platform.

(** ** Shapes parsed from a JSON schema *)

Lemma exampleFromProperties_plain :
  forall properties mime name parentType e,
    _exampleFromProperties P properties mime name parentType = Ok (Some e) ->
    exists text, text <> "" /\ e = plain_example (JStr text).
Proof.
  intros properties mime name parentType e E.
  unfold _exampleFromProperties in E.
  destruct (mime_has mime "json") as [isJson | |]; cbn [bind] in E; try discriminate E.
  match type of E with
  | bind ?m _ = _ => destruct m as [result | |]; cbn [bind] in E; try discriminate E
  end.
  destruct (String.eqb_spec result ""); cbn [negb] in E; inversion E.
  exists result. split; [assumption | reflexivity].
Qed.

Lemma exampleFromJsonSchema_carries :
  forall schema jsonSchema r,
    _exampleFromJsonSchema P schema jsonSchema = Ok r ->
    exists e, r = [e] /\ carries_schema jsonSchema e.
Proof.
  intros schema jsonSchema r E. unfold _exampleFromJsonSchema in E.
  match type of E with
  | bind ?m _ = _ => destruct m as [[e |] | |] eqn:Em; cbn [bind] in E; try discriminate E
  end.
  - inversion E. subst r. eexists. split; [reflexivity |].
    destruct (_ensureArray (prop schema (_getAmfKey P ns.shacl_property)))
      as [[| p ps] |]; try discriminate Em.
    destruct (exampleFromProperties_plain _ _ _ _ _ Em) as (text & Ht & He).
    subst e. unfold carries_schema. cbn. repeat split. left. repeat split.
    exists text. split; [exact Ht | reflexivity].
  - inversion E. subst r. eexists. split; [reflexivity |].
    unfold carries_schema. cbn. repeat split. right. repeat split.
Qed.

(** X8. A shape without author examples that was parsed from a JSON schema is
    answered with exactly one view model, whatever its type, the media type
    and the [noAuto] and [rawOnly] switches: the schema text is the [raw]
    field of the view model when a value could be made from the declared
    properties (always as JSON), and its value otherwise. *)
Theorem json_schema_shape_gives_one_view :
  forall (schema : JsVal) (mime : option string) (opts : Opts)
         (jsonSchema : JsVal) (r : option (list Example)) (opts' : Opts),
    str_truthy mime = true \/ rawOnly opts = true ->
    _ensureArray (prop schema (_getAmfKey P ns.apiContract_examples)) = None ->
    _readJsonSchema P schema = Ok jsonSchema ->
    truthy jsonSchema = true ->
    computeExamples P schema mime opts = Ok (r, opts') ->
    exists e, r = Some [e] /\ carries_schema jsonSchema e.
Proof.
  intros schema mime opts jsonSchema r opts' Hm He Hj Ht E.
  unfold computeExamples in E. cbn [computeExamples_fuel] in E.
  unfold _resolve in E.
  assert (Hs : truthy schema = true).
  { destruct schema; try reflexivity; cbn in Hj; try discriminate Hj;
      inversion Hj; subst jsonSchema; discriminate Ht. }
  assert (G : negb (truthy schema) || (negb (str_truthy mime) && negb (rawOnly opts))
              = false).
  { rewrite Hs. destruct Hm as [Hm | Hm]; rewrite Hm; cbn; try reflexivity.
    apply andb_false_r. }
  rewrite G in E.
  destruct (name_type P schema opts) as [o1 | |]; cbn [bind] in E; try discriminate E.
  rewrite He, Hj in E. cbn [bind] in E. rewrite Ht in E.
  destruct (_exampleFromJsonSchema P schema jsonSchema) as [l | |] eqn:Ej;
    cbn [bind] in E; try discriminate E.
  inversion E. subst.
  destruct (exampleFromJsonSchema_carries _ _ _ Ej) as (e & El & Hc).
  exists e. subst l. split; [reflexivity | exact Hc].
Qed.

End JsonSchema.

Section Brackets.

(** ** Brackets around the examples of an array *)

Lemma bracket_again : forall e e', bracket e = Ok e' -> bracket e' = Ok e'.
Proof.
  intros e e' E. unfold bracket in *.
  destruct (value e) as [| | b | z | | t | l | fs] eqn:Ev;
    try (inversion E; subst e'; rewrite Ev; reflexivity);
    try discriminate E.
  all: match type of E with
       | bind ?m _ = _ => destruct m as [c | |] eqn:Ec; cbn [bind] in E;
                          try discriminate E
       end.
  all: destruct (negb (strict_eq_str c "[")) eqn:Eb;
    [ inversion E; subst e'; cbn; reflexivity
    | inversion E; subst e'; rewrite Ev; cbv beta iota; try rewrite Ec;
      cbn [bind]; rewrite Eb; reflexivity ].
Qed.

Lemma bracket_fields :
  forall e e', bracket e = Ok e' ->
               values e' = values e /\ title e' = title e /\ raw e' = raw e
               /\ hasRaw e' = hasRaw e /\ hasTitle e' = hasTitle e
               /\ hasUnion e' = hasUnion e /\ isScalar e' = isScalar e.
Proof.
  intros e e' E. unfold bracket in E.
  destruct (value e) as [| | b | z | | t | l | fs];
    try (inversion E; subst e'; repeat split); try discriminate E.
  all: match type of E with
       | bind ?m _ = _ => destruct m as [c | |]; cbn [bind] in E;
                          try discriminate E
       end.
  all: destruct (negb (strict_eq_str c "[")); inversion E; repeat split.
Qed.

Lemma bracket_item_again :
  forall e e', bracket_item e = Ok e' -> bracket_item e' = Ok e'.
Proof.
  intros e e' E. unfold bracket_item in *.
  destruct (values e) as [[| v0 rest] |] eqn:Ev; try discriminate E.
  - destruct (bracket v0) as [v0' | |] eqn:Eb; cbn [bind] in E; try discriminate E.
    inversion E. subst e'. cbn [values set_values].
    rewrite (bracket_again _ _ Eb). cbn [bind]. reflexivity.
  - destruct (bracket_fields _ _ E) as (Hv & _). rewrite Hv, Ev.
    apply (bracket_again _ _ E).
Qed.

Lemma processJsonArrayExamples_items :
  forall l acc r,
    foldM (fun done item => item <- bracket_item item ;; Ok (done ++ [item])%list)
          acc l = Ok r ->
    exists l', r = (acc ++ l')%list /\ Forall2 (fun x y => bracket_item x = Ok y) l l'.
Proof.
  induction l as [| x l IH]; intros acc r E; cbn [foldM] in E.
  - inversion E. exists []. rewrite app_nil_r. split; [reflexivity | constructor].
  - destruct (bracket_item x) as [y | |] eqn:Ey; cbn [bind] in E; try discriminate E.
    destruct (IH _ _ E) as (l' & Er & Hl). exists (y :: l').
    rewrite <- app_assoc in Er. split; [exact Er |]. constructor; assumption.
Qed.

Lemma processJsonArrayExamples_of_items :
  forall l l' acc,
    Forall2 (fun x y => bracket_item x = Ok y) l l' ->
    foldM (fun done item => item <- bracket_item item ;; Ok (done ++ [item])%list)
          acc l = Ok (acc ++ l')%list.
Proof.
  induction l as [| x l IH]; intros l' acc H; inversion H; subst; cbn [foldM].
  - rewrite app_nil_r. reflexivity.
  - rewrite H2. cbn [bind]. rewrite (IH _ _ H4). rewrite <- app_assoc. reflexivity.
Qed.

(** X9. Brackets are put once. When [_processJsonArrayExamples] comes back
    with a list, a second pass over that list changes nothing: a value that
    already starts with a bracket is left alone; and the pass keeps the number
    of view models. *)
Theorem brackets_are_put_once :
  forall (examples r : list Example),
    _processJsonArrayExamples examples = Ok r ->
    _processJsonArrayExamples r = Ok r /\ length r = length examples.
Proof.
  intros examples r E.
  change (foldM (fun done item => item <- bracket_item item ;; Ok (done ++ [item])%list)
                [] examples = Ok r) in E.
  destruct (processJsonArrayExamples_items _ _ _ E) as (l' & Er & Hl).
  cbn [app] in Er. subst l'. split.
  - change (foldM (fun done item => item <- bracket_item item ;; Ok (done ++ [item])%list)
                  [] r = Ok ([] ++ r)%list).
    apply processJsonArrayExamples_of_items.
    clear E. induction Hl; constructor; [| assumption].
    eapply bracket_item_again. eassumption.
  - symmetry. eapply Forall2_length. exact Hl.
Qed.

Lemma bracket_item_throws :
  forall e, bracket_item e = Throw <-> no_text e = true.
Proof.
  intros e. unfold bracket_item, no_text, bracket.
  destruct (values e) as [[| v0 rest] |].
  - split; reflexivity.
  - destruct (value v0) as [| | b | z | | t | l | fs]; cbn;
      try (split; intros H; discriminate H); try (split; reflexivity).
    + destruct t; cbn; [split; intros H; discriminate H |].
      destruct (negb _); cbn; split; intros H; discriminate H.
    + destruct (negb _); cbn; split; intros H; discriminate H.
    + destruct (negb _); cbn; split; intros H; discriminate H.
  - destruct (value e) as [| | b | z | | t | l | fs]; cbn;
      try (split; intros H; discriminate H); try (split; reflexivity).
    + destruct t; cbn; [split; intros H; discriminate H |].
      destruct (negb _); cbn; split; intros H; discriminate H.
    + destruct (negb _); cbn; split; intros H; discriminate H.
    + destruct (negb _); cbn; split; intros H; discriminate H.
Qed.

Lemma bracket_item_comes_back :
  forall e, bracket_item e <> OutOfFuel.
Proof.
  intros e. unfold bracket_item.
  destruct (values e) as [[| v0 rest] |]; try discriminate.
  - pose proof (bracket_returns v0) as H. destruct (bracket v0); cbn [bind];
      try discriminate. contradiction H. reflexivity.
  - apply bracket_returns.
Qed.

Lemma brackets_loop_outcome :
  forall (l acc : list Example),
    (existsb no_text l = true ->
     foldM (fun done item => item <- bracket_item item ;; Ok (done ++ [item])%list)
           acc l = Throw)
    /\ (existsb no_text l = false ->
        exists r,
          foldM (fun done item => item <- bracket_item item ;; Ok (done ++ [item])%list)
                acc l = Ok r).
Proof.
  induction l as [| x l IH]; intros acc; cbn [existsb foldM].
  - split; [discriminate | intros _; eexists; reflexivity].
  - destruct (bracket_item x) as [y | |] eqn:Ex; cbn [bind].
    + assert (Hx : no_text x = false).
      { destruct (no_text x) eqn:En; [| reflexivity].
        apply bracket_item_throws in En. congruence. }
      rewrite Hx. cbn [orb]. apply IH.
    + apply bracket_item_throws in Ex. rewrite Ex. cbn [orb].
      split; [reflexivity | discriminate].
    + exfalso. exact (bracket_item_comes_back x Ex).
Qed.

(** X10. The pass over the examples of an array raises an error exactly when
    one of the view models has no text to put in brackets: its value (for a
    union, the value of its first entry) is [null], or it is a union without
    entries. In every other case it comes back with a list. *)
Theorem brackets_fail_on_null :
  forall (examples : list Example),
    if existsb no_text examples
    then _processJsonArrayExamples examples = Throw
    else exists r, _processJsonArrayExamples examples = Ok r.
Proof.
  intros examples. destruct (brackets_loop_outcome examples []) as (H1 & H2).
  destruct (existsb no_text examples); [apply H1 | apply H2]; reflexivity.
Qed.

End Brackets.

Section JsonFromProperties.

Variable P : Platform.

(** ** The JSON object made from the properties of a type *)

Lemma set_field_keys :
  forall k v fs k',
    In k' (map fst (set_field k v fs)) <-> k' = k \/ In k' (map fst fs).
Proof.
  intros k v fs k'. induction fs as [| [k0 v0] fs IH]; cbn [set_field map fst In].
  - intuition.
  - destruct (String.eqb_spec k k0); cbn [map fst In].
    + subst k0. intuition.
    + rewrite IH. intuition.
Qed.

Lemma set_field_NoDup :
  forall k v fs, NoDup (map fst fs) -> NoDup (map fst (set_field k v fs)).
Proof.
  intros k v fs. induction fs as [| [k0 v0] fs IH]; intros H; cbn [set_field map fst].
  - constructor; [intros [] | constructor].
  - inversion H as [| ? ? Hn Hd]. subst.
    destruct (String.eqb_spec k k0); cbn [map fst].
    + subst k0. constructor; assumption.
    + constructor; [| apply IH; exact Hd].
      intros Hin. apply set_field_keys in Hin. destruct Hin as [Hin | Hin];
        [congruence | contradiction].
Qed.

Lemma foldM_prefix :
  forall (A S : Type) (I : list A -> S -> Prop) (f : S -> A -> Res S)
         (l done : list A) (s r : S),
    I done s ->
    (forall done x s s', I done s -> f s x = Ok s' -> I (done ++ [x])%list s') ->
    foldM f s l = Ok r -> I (done ++ l)%list r.
Proof.
  intros A S I f l. induction l as [| x l IH]; intros done s r Hs Hf E; cbn [foldM] in E.
  - inversion E. subst r. rewrite app_nil_r. exact Hs.
  - destruct (f s x) as [s1 | |] eqn:E1; cbn [bind] in E; try discriminate E.
    replace (done ++ x :: l)%list with ((done ++ [x]) ++ l)%list
      by (rewrite <- app_assoc; reflexivity).
    apply (IH _ s1 r); [| exact Hf | exact E].
    apply (Hf done x s s1 Hs E1).
Qed.

Lemma object_of_skip :
  forall done x result,
    object_of P done result -> ~ plain_property P x ->
    object_of P (done ++ [x]) result.
Proof.
  intros done x result (fs & E & Hn & Hk & Hp) Hx.
  exists fs. repeat split; try assumption.
  - intros k Hin. destruct (Hk k Hin) as (p & Hp1 & Hp2).
    exists p. split; [apply in_or_app; left; exact Hp1 | exact Hp2].
  - intros p Hin Hpl. apply in_app_or in Hin. destruct Hin as [Hin | [Hin | []]].
    + apply Hp; assumption.
    + subst p. contradiction.
Qed.

Lemma object_of_set :
  forall done x result v,
    object_of P (done ++ [x]) result \/ object_of P done result ->
    truthy (_getValue P x ns.shacl_name) = true ->
    object_of P (done ++ [x]) (js_set result (property_key P x) v).
Proof.
  intros done x result v H Hx.
  assert (H' : exists fs,
             result = JObj fs /\ NoDup (map fst fs)
             /\ (forall k, In k (map fst fs) ->
                           exists p, In p (done ++ [x])%list
                                     /\ truthy (_getValue P p ns.shacl_name) = true
                                     /\ k = property_key P p)
             /\ (forall p, In p done -> plain_property P p ->
                           In (property_key P p) (map fst fs))).
  { destruct H as [(fs & E & Hn & Hk & Hp) | (fs & E & Hn & Hk & Hp)];
      exists fs; repeat split; try assumption.
    - intros p Hin. apply Hp. apply in_or_app. left. exact Hin.
    - intros k Hin. destruct (Hk k Hin) as (p & Hp1 & Hp2).
      exists p. split; [apply in_or_app; left; exact Hp1 | exact Hp2]. }
  destruct H' as (fs & E & Hn & Hk & Hp). subst result. cbn [js_set].
  eexists. split; [reflexivity |]. split; [apply set_field_NoDup; exact Hn |].
  split.
  - intros k Hin. apply set_field_keys in Hin. destruct Hin as [Hin | Hin].
    + subst k. exists x. repeat split; [apply in_or_app; right; left; reflexivity
                                       | exact Hx].
    + apply Hk. exact Hin.
  - intros p Hin Hpl. apply set_field_keys.
    apply in_app_or in Hin. destruct Hin as [Hin | [Hin | []]].
    + right. apply Hp; assumption.
    + subst p. left. reflexivity.
Qed.

Lemma jsonExampleFromProperties_object :
  forall (value : JsVal -> Res JsVal) (properties : list JsVal) (v : JsVal),
    _jsonExampleFromProperties P value properties = Ok v ->
    object_of P properties v.
Proof.
  intros value properties v E. unfold _jsonExampleFromProperties in E.
  change properties with ([] ++ properties)%list.
  refine (foldM_prefix _ _ (object_of P) _ _ _ _ _ _ _ E).
  - exists []. repeat split; [constructor | intros k [] | intros p []].
  - clear E v. intros done x s s' Hs E. cbv zeta in E.
    destruct (truthy (_getValue P x ns.shacl_name)) eqn:Hn; cbn [negb] in E.
    2:{ inversion E. subst s'. apply object_of_skip; [exact Hs |].
        intros (H1 & _). congruence. }
    destruct (truthy (prop x (_getAmfKey P ns.shapes_range))) eqn:Hr; cbn [negb] in E.
    2:{ inversion E. subst s'. apply object_of_skip; [exact Hs |].
        intros (_ & H1 & _). congruence. }
    match type of E with
    | bind ?m _ = _ => destruct m as [e | |] eqn:Ee; cbn [bind] in E;
                       try discriminate E
    end.
    apply js_get_ok in Ee. subst e.
    destruct (_ensureArray _) as [examples |] eqn:Ex.
    + assert (Hskip : object_of P (done ++ [x]) s).
      { apply object_of_skip; [exact Hs |]. intros (_ & _ & H1 & _). congruence. }
      clear Hs.
      refine (foldM_invariant _ _ (object_of P (done ++ [x])) _ _ _ _ Hskip _ E).
      intros r example r' _ Hr' Er.
      destruct (js_get example _) as [st | |]; cbn [bind] in Er; try discriminate Er.
      destruct (negb (truthy st)).
      * inversion Er. apply object_of_set; [left; exact Hr' | exact Hn].
      * destruct (_jsonFromStructure P (unwrap st)) as [d | |]; cbn [bind] in Er;
          try discriminate Er.
        destruct d; inversion Er; subst r';
          try exact Hr'; apply object_of_set; try (left; exact Hr'); exact Hn.
    + destruct (value _) as [val | |]; cbn [bind] in E; try discriminate E.
      inversion E. apply object_of_set; [right; exact Hs | exact Hn].
Qed.

(** X11. The JSON value made from the properties of a type is always an object,
    also for an empty list of properties. No key occurs twice, every key is
    the name of a declared property, and every property that has a name
    (other than [__proto__]) and a range without examples of its own has its
    key in the object. *)
Theorem json_object_has_the_declared_properties :
  forall (properties : list JsVal) (v : JsVal),
    jsonExampleFromProperties P properties = Ok v ->
    exists fields,
      v = JObj fields
      /\ NoDup (map fst fields)
      /\ (forall k, In k (map fst fields) ->
                    exists p, In p properties
                              /\ truthy (_getValue P p ns.shacl_name) = true
                              /\ k = property_key P p)
      /\ (forall p, In p properties -> plain_property P p ->
                    In (property_key P p) (map fst fields)).
Proof.
  intros properties v E. exact (jsonExampleFromProperties_object _ _ _ E).
Qed.

End JsonFromProperties.

Section Names.

Variable P : Platform.

(** ** Names *)

Lemma chars_of_chars : forall l, Str.chars (Str.of_chars l) = l.
Proof. intros l. apply list_ascii_of_string_of_list_ascii. Qed.

Lemma of_chars_chars : forall s, Str.of_chars (Str.chars s) = s.
Proof. intros s. apply string_of_list_ascii_of_string. Qed.

Lemma of_chars_app :
  forall a b, Str.of_chars (a ++ b) = Str.of_chars a ++ Str.of_chars b.
Proof.
  induction a as [| c a IH]; intros b; cbn; [reflexivity |].
  unfold Str.of_chars in IH. rewrite IH. reflexivity.
Qed.

Lemma filter_twice :
  forall (A : Type) (f g : A -> bool) (l : list A),
    (forall x, g x = true -> f x = true) ->
    List.filter g (List.filter f l) = List.filter g l.
Proof.
  intros A f g l H. induction l as [| x l IH]; cbn; [reflexivity |].
  destruct (f x) eqn:Ef; cbn.
  - rewrite IH. reflexivity.
  - destruct (g x) eqn:Eg; [| exact IH].
    rewrite (H x Eg) in Ef. discriminate Ef.
Qed.

(** X12. [_normalizeXmlTagName] judges every character on its own: a name that
    was normalized is left as it is by a second normalization, the
    normalized form of two texts put together is the two normalized forms put
    together, and the stricter filter of [_appendXmlElement] gives the same
    element name on a name and on its normalized form. *)
Theorem normalized_names_are_stable :
  forall (a b : string),
    _normalizeXmlTagName (_normalizeXmlTagName a) = _normalizeXmlTagName a
    /\ _normalizeXmlTagName (a ++ b) = _normalizeXmlTagName a ++ _normalizeXmlTagName b
    /\ Str.filter name_char (_normalizeXmlTagName a) = Str.filter name_char a.
Proof.
  intros a b. unfold _normalizeXmlTagName, Str.filter. repeat split.
  - rewrite chars_of_chars. rewrite filter_twice; [reflexivity | auto].
  - rewrite chars_append, filter_app. apply of_chars_app.
  - rewrite chars_of_chars. rewrite filter_twice; [reflexivity |].
    intros x H. rewrite H. reflexivity.
Qed.

Lemma indexOf_from_after :
  forall c p s i,
    ~ In c (Str.chars p) ->
    Str.indexOf_from (String c "") (p ++ String c s) i = Some (i + String.length p)%nat.
Proof.
  intros c. induction p as [| d p IH]; intros s i H; rewrite indexOf_from_unfold.
  - cbn. destruct (Ascii.ascii_dec c c) as [_ | N]; [| contradiction].
    destruct s; cbn; f_equal; lia.
  - cbn [append String.prefix].
    destruct (Ascii.ascii_dec c d) as [E | N].
    + exfalso. apply H. left. symmetry. exact E.
    + rewrite IH; [f_equal; cbn; lia |].
      intros Hin. apply H. right. exact Hin.
Qed.

Lemma substr_after :
  forall p c s, Str.substr (String.length p + 1) (p ++ String c s) = s.
Proof.
  induction p as [| d p IH]; intros c s; cbn.
  - destruct s; reflexivity.
  - apply IH.
Qed.

(** X13. The name of a data key reads back. The local name of a key is what
    follows its first [#]: for a key made of a namespace without [#], a [#]
    and a name, [_dataNameFromKey] gives the name, whatever the name holds;
    for a compact key [prefix:name] without any [#] it gives the name. *)
Theorem data_name_reads_back :
  forall (prefix name : string),
    ~ In "#"%char (Str.chars prefix) ->
    _dataNameFromKey (prefix ++ "#" ++ name) = name
    /\ (~ In ":"%char (Str.chars prefix) -> ~ In "#"%char (Str.chars name) ->
        _dataNameFromKey (prefix ++ ":" ++ name) = name).
Proof.
  intros prefix name Hp. unfold _dataNameFromKey, Str.indexOf. split.
  - cbn [append]. rewrite (indexOf_from_after _ _ _ _ Hp). cbn [Nat.add].
    apply substr_after.
  - intros Hc Hn. cbn [append].
    rewrite (indexOf_from_lacking "#" "#"%char); [| left; reflexivity |].
    + rewrite (indexOf_from_after _ _ _ _ Hc). cbn [Nat.add]. apply substr_after.
    + rewrite chars_append. intros Hin. apply in_app_or in Hin.
      destruct Hin as [Hin | [Hin | Hin]]; [exact (Hp Hin) | discriminate Hin |
                                            exact (Hn Hin)].
Qed.

End Names.

Section ScalarKinds.

Variable P : Platform.

(** ** The kind of a scalar value *)

Lemma full_key_is_no_compact_key :
  forall iri k,
    compact_keys P ->
    Str.contains iri "#" = true ->
    iri <> k ->
    strict_eq_str (JStr iri) (_getAmfKey P k) = false.
Proof.
  intros iri k Hc Hi Hk. cbn. unfold _getAmfKey.
  destruct (String.eqb_spec iri (amfKey P k)) as [E | N]; [| reflexivity].
  exfalso. destruct (Hc k) as [H | H].
  - apply Hk. congruence.
  - rewrite <- E in H. congruence.
Qed.

Ltac one_of_them :=
  repeat (apply orb_true_iff; first [right; reflexivity | left]); reflexivity.

Lemma typeToValue_number :
  forall value name,
    compact_keys P ->
    In name ["integer"; "number"; "long"; "double"; "float"] ->
    truthy value = true ->
    _typeToValue P value (JStr (ns.xmlSchema ++ name))
    = JNum (match js_to_number P value with Some z => z | None => 0 end).
Proof.
  intros value name Hc Hn Hv. unfold _typeToValue. cbv zeta.
  assert (Hb : forall k, ns.xmlSchema ++ name <> k ->
                         strict_eq_str (JStr (ns.xmlSchema ++ name)) (_getAmfKey P k)
                         = false).
  { intros k Hk. apply full_key_is_no_compact_key; [exact Hc | | exact Hk].
    cbn in Hn. repeat (destruct Hn as [Hn | Hn]; [subst name; reflexivity |]).
    contradiction. }
  cbn in Hn.
  repeat (destruct Hn as [Hn | Hn];
          [subst name;
           rewrite !Hb by discriminate;
           match goal with
           | |- (if ?c then _ else _) = _ =>
               replace c with false by reflexivity
           end;
           match goal with
           | |- (if ?c then _ else _) = _ =>
               replace c with false by reflexivity
           end;
           match goal with
           | |- (if ?c then _ else _) = _ =>
               replace c with true by (symmetry; one_of_them)
           end;
           rewrite Hv; destruct (js_to_number P value); reflexivity |]).
  contradiction.
Qed.

Lemma typeToValue_boolean :
  forall value,
    truthy value = true ->
    _typeToValue P value (JStr (ns.xmlSchema ++ "boolean"))
    = JBool (strict_eq_str value "true").
Proof.
  intros value Hv. unfold _typeToValue. cbv zeta.
  match goal with
  | |- (if ?c then _ else _) = _ => replace c with true by (symmetry; one_of_them)
  end.
  destruct value; try reflexivity. discriminate Hv.
Qed.

(** X14. A scalar shape gets a value of the JSON kind of its datatype, wherever
    the value comes from (a declared default value, an example or the table
    of zero values): a number, never [NaN], for the XML Schema datatypes
    integer, number, long, double and float, and a boolean for boolean. *)
Theorem scalar_value_has_the_kind_of_its_datatype :
  forall (range : JsVal) (name : string) (kind : JsType),
    compact_keys P ->
    prop (unwrap (prop range (_getAmfKey P ns.shacl_datatype))) "@id"
    = JStr (ns.xmlSchema ++ name) ->
    kind_of_datatype name = Some kind ->
    exists v, _computeJsonScalarValue P range = Ok v
              /\ typeof v = kind /\ v <> JNaN.
Proof.
  intros range name kind Hc Hid Hk.
  assert (Hnames : In name ["integer"; "number"; "long"; "double"; "float"; "boolean"]).
  { unfold kind_of_datatype in Hk. cbn [In].
    repeat match type of Hk with
           | context [(name =? ?s)%string] =>
               destruct (String.eqb_spec name s); [subst name; auto 10 |]
           end.
    cbn in Hk. discriminate Hk. }
  assert (Hdt : truthy (prop range (_getAmfKey P ns.shacl_datatype)) = true).
  { destruct (prop range (_getAmfKey P ns.shacl_datatype)) as [| | b | z | | t | l | fs];
      try reflexivity; discriminate Hid. }
  assert (Hget : js_get (unwrap (prop range (_getAmfKey P ns.shacl_datatype))) "@id"
                 = Ok (JStr (ns.xmlSchema ++ name))).
  { rewrite <- Hid.
    destruct (unwrap (prop range (_getAmfKey P ns.shacl_datatype)));
      try reflexivity; discriminate Hid. }
  unfold _computeJsonScalarValue. cbv zeta.
  destruct (truthy (_getTypeScalarValue P range)) eqn:Hv; cbn [negb].
  - rewrite Hdt. cbn [negb]. rewrite Hget. cbn [bind].
    cbn [In] in Hnames.
    destruct Hnames as [H | [H | [H | [H | [H | [H | []]]]]]]; subst name;
      inversion Hk; subst kind;
      try (rewrite typeToValue_number; [| exact Hc | cbn; tauto | exact Hv];
           eexists; repeat split; discriminate);
      rewrite typeToValue_boolean by exact Hv;
      eexists; repeat split; discriminate.
  - assert (Hl : local_name name = true).
    { cbn [In] in Hnames.
      destruct Hnames as [H | [H | [H | [H | [H | [H | []]]]]]]; subst name;
        reflexivity. }
    assert (Hd : declared_datatype P range = JStr (ns.xmlSchema ++ name)).
    { unfold declared_datatype. rewrite Hid. reflexivity. }
    destruct (scalar_type_of_local P range name Hl (or_introl Hd))
      as (c & rest & En & Hu & Et).
    rewrite Et. cbn [bind]. rewrite (zero_of_capitalized c rest Hu). rewrite <- En.
    cbn [In] in Hnames.
    destruct Hnames as [H | [H | [H | [H | [H | [H | []]]]]]]; subst name;
      inversion Hk; subst kind; eexists; repeat split; discriminate.
Qed.

End ScalarKinds.

Section StructuredValues.

Variable P : Platform.

(** ** JSON from a structured value *)

Lemma set_field_in :
  forall k v fs k' x,
    In (k', x) (set_field k v fs) -> (k' = k /\ x = v) \/ In (k', x) fs.
Proof.
  intros k v fs k' x. induction fs as [| [k0 v0] fs IH]; cbn [set_field In].
  - intros [H | []]. inversion H. left. split; reflexivity.
  - destruct (String.eqb_spec k k0); cbn [In].
    + intros [H | H]; [inversion H; left; split; reflexivity | right; right; exact H].
    + intros [H | H]; [right; left; exact H |].
      destruct (IH H) as [H' | H']; [left; exact H' | right; right; exact H'].
Qed.

Lemma jsonFromStructureValue_keep :
  forall (rec : JsVal -> Res JsVal) value obj isArray key prefix obj',
    _jsonFromStructureValue P rec value obj isArray key prefix = Ok obj' ->
    obj' = obj
    \/ exists tmp, tmp <> JUndef
                   /\ obj' = (if isArray then js_push obj tmp
                              else js_set obj
                                     (let k := Str.replace_first prefix "" key in
                                      let k := match k with
                                               | String ":" rest => rest
                                               | _ => k
                                               end in
                                      match decodeURIComponent P k with
                                      | Some decoded => decoded
                                      | None => k
                                      end) tmp).
Proof.
  intros rec value obj isArray key prefix obj' E.
  unfold _jsonFromStructureValue in E.
  destruct (rec (unwrap value)) as [tmp | |]; cbn [bind] in E; try discriminate E.
  destruct tmp; try (inversion E; left; reflexivity);
    right; eexists; (split; [| destruct isArray; inversion E; reflexivity]);
    discriminate.
Qed.

(** X15. A structured value that is no scalar gives JSON of its own shape: a
    data object gives an object whose keys are the decoded names of its data
    keys, each once (the keys [@id] and [@type] and the keys of other
    vocabularies give none); a data array gives an array; any other node
    gives nothing. A member without value is left out: no field and no item
    is [undefined]. *)
Theorem structured_value_keeps_its_shape :
  forall (structure v : JsVal),
    truthy structure = true ->
    _hasType P structure ns.data_Scalar = false ->
    _jsonFromStructure P structure = Ok v ->
    shaped_like P structure v.
Proof.
  intros s v Ht Hs E. unfold _jsonFromStructure in E.
  cbn [_jsonFromStructure_fuel] in E. rewrite Ht, Hs in E. cbn [negb] in E.
  unfold shaped_like.
  set (rec := _jsonFromStructure_fuel P (depth s)) in *.
  assert (Harr : forall (A : Type) (f : JsVal -> A -> Res JsVal) (l : list A),
             (forall obj a obj', f obj a = Ok obj' ->
                                 obj' = obj
                                 \/ exists tmp, tmp <> JUndef /\ obj' = js_push obj tmp) ->
             foldM f (JArr []) l = Ok v ->
             exists items, v = JArr items /\ Forall (fun x => x <> JUndef) items).
  { intros A f l Hf Ef.
    refine (foldM_invariant _ _
              (fun r => exists items, r = JArr items
                                      /\ Forall (fun x => x <> JUndef) items)
              _ _ _ _ _ _ Ef).
    - exists []. split; [reflexivity | constructor].
    - intros r a r' _ (items & Er & Hi) Ea. subst r.
      destruct (Hf _ _ _ Ea) as [H | (tmp & Hn & H)]; subst r'.
      + exists items. split; [reflexivity | exact Hi].
      + exists (items ++ [tmp])%list. split; [reflexivity |].
        apply Forall_app. split; [exact Hi | constructor; [exact Hn | constructor]]. }
  destruct (_hasType P s ns.data_Object).
  - cbn [andb] in E.
    refine (foldM_invariant _ _
              (fun r => exists fields,
                   r = JObj fields /\ NoDup (map fst fields)
                   /\ (forall k x, In (k, x) fields ->
                                   x <> JUndef
                                   /\ exists key, data_key P s key /\ k = json_key P key))
              _ _ _ _ _ _ E).
    + exists []. repeat split; [constructor | contradiction | contradiction].
    + intros r key r' Hk (fields & Er & Hn & Hf) Ek. subst r.
      destruct (negb (Str.startsWith key (_getAmfKey P ns.data))) eqn:Hp.
      { inversion Ek. subst r'. exists fields. repeat split; try assumption;
          apply (Hf k x H). }
      apply negb_false_iff in Hp.
      destruct (jsonFromStructureValue_keep _ _ _ _ _ _ _ Ek) as [H | (tmp & Ht' & H)];
        subst r'.
      { exists fields. repeat split; try assumption; apply (Hf k x H). }
      cbn [js_set]. eexists. split; [reflexivity |].
      split; [apply set_field_NoDup; exact Hn |].
      intros k x Hin. apply set_field_in in Hin.
      destruct Hin as [[Hk1 Hx] | Hin]; [| apply Hf; exact Hin].
      subst k x. split; [exact Ht' |].
      exists key. split; [split; assumption | reflexivity].
  - destruct (_hasType P s ns.data_Array); [| inversion E; reflexivity].
    cbn [andb] in E. destruct (_hasProperty P s ns.rdfSchema_member).
    + destruct (indexed_items _) as [items | |]; cbn [bind] in E; try discriminate E.
      apply (Harr _ _ _) with (2 := E).
      intros obj a obj' Ea. apply jsonFromStructureValue_keep in Ea. exact Ea.
    + apply (Harr _ _ _) with (2 := E).
      intros obj a obj' Ea.
      destruct (negb (Str.startsWith a (_getAmfKey P ns.data)));
        [inversion Ea; left; reflexivity |].
      apply jsonFromStructureValue_keep in Ea. exact Ea.
Qed.

End StructuredValues.

Section Markup.

Variable P : Platform.

(** ** The tree of a markup example *)

Lemma createElement_ok :
  forall name el,
    createElement name = Ok el -> el = XElement name [] [] /\ xml_name name = true.
Proof.
  intros name el E. unfold createElement in E.
  destruct (xml_name name); inversion E. split; reflexivity.
Qed.

Lemma createDocument_ok :
  forall name main,
    createDocument name = Ok main -> name <> "" ->
    main = Some (XElement name [] []) /\ xml_name name = true.
Proof.
  intros name main E Hne. unfold createDocument in E.
  destruct (String.eqb_spec name ""); [contradiction |].
  destruct (Str.contains name ":"); [discriminate E |].
  destruct (createElement name) as [el | |] eqn:Ee; cbn [bind] in E;
    try discriminate E.
  destruct (createElement_ok _ _ Ee) as [Hel Hx]. subst el.
  inversion E. split; [reflexivity | exact Hx].
Qed.

Lemma appendChild_tag :
  forall n c n', appendChild n c = Ok n' -> tag_of n' = tag_of n.
Proof.
  intros n c n' E. unfold appendChild in E.
  destruct n as [[name a ch | t] |]; try discriminate E.
  destruct c; inversion E. reflexivity.
Qed.

Lemma setAttribute_tag :
  forall n k v n', setAttribute n k v = Ok n' -> tag_of n' = tag_of n.
Proof.
  intros n k v n' E. unfold setAttribute in E.
  destruct n as [[name a ch | t] |]; try discriminate E.
  destruct (xml_name k); inversion E. reflexivity.
Qed.

Lemma sync_last_tag : forall n e, tag_of (sync_last n e) = tag_of n.
Proof.
  intros n e. unfold sync_last.
  destruct n as [[name a ch | t] |]; try reflexivity. destruct e; reflexivity.
Qed.

Lemma xmlProcessDataProperty_tag :
  forall fuel node property name n',
    _xmlProcessDataProperty_fuel P fuel node property name = Ok n' ->
    tag_of n' = tag_of node.
Proof.
  intros fuel node property name n' E. destruct fuel as [| fuel]; [discriminate E |].
  cbn [_xmlProcessDataProperty_fuel] in E.
  destruct (negb (truthy property) || negb (truthy name));
    [inversion E; reflexivity |].
  destruct (as_string name) as [nm | |]; cbn [bind] in E; try discriminate E.
  destruct (createElement _) as [el0 | |]; cbn [bind] in E; try discriminate E.
  destruct (_hasType P property ns.data_Scalar).
  { destruct (_computeStructuredExampleValue P property) as [v | |]; cbn [bind] in E;
      try discriminate E.
    match type of E with
    | bind ?m _ = _ => destruct m as [e | |]; cbn [bind] in E; try discriminate E
    end.
    exact (appendChild_tag _ _ _ E). }
  destruct (_hasType P property ns.data_Array).
  { destruct (_ensureArray _) as [items |]; try discriminate E.
    match type of E with
    | bind ?m _ = _ => destruct m as [e | |]; cbn [bind] in E; try discriminate E
    end.
    exact (appendChild_tag _ _ _ E). }
  destruct (_hasType P property ns.data_Object).
  { match type of E with
    | bind ?m _ = _ => destruct m as [e | |]; cbn [bind] in E; try discriminate E
    end.
    exact (appendChild_tag _ _ _ E). }
  destruct (truthy (prop property "@value")); exact (appendChild_tag _ _ _ E).
Qed.

Lemma appendXmlElement_tag :
  forall node range n' e,
    _appendXmlElement P node range = Ok (n', e) -> tag_of n' = tag_of node.
Proof.
  intros node range n' e E. unfold _appendXmlElement in E.
  destruct (negb (truthy (_getValue P range ns.shacl_name)));
    [inversion E; reflexivity |].
  destruct (as_string _) as [nm | |]; cbn [bind] in E; try discriminate E.
  destruct (createElement _) as [el0 | |]; cbn [bind] in E; try discriminate E.
  match type of E with
  | bind ?m _ = _ => destruct m as [el | |]; cbn [bind] in E; try discriminate E
  end.
  destruct (appendChild node el) as [n1 | |] eqn:Ea; cbn [bind] in E;
    try discriminate E.
  inversion E. subst. exact (appendChild_tag _ _ _ Ea).
Qed.

Lemma appendXmlAttribute_tag :
  forall node property range serialization n',
    _appendXmlAttribute P node property range serialization = Ok n' ->
    tag_of n' = tag_of node.
Proof.
  intros node property range serialization n' E. unfold _appendXmlAttribute in E.
  destruct (negb (truthy _)); [inversion E; reflexivity |].
  match type of E with
  | bind ?m _ = _ => destruct m as [nm | |]; cbn [bind] in E; try discriminate E
  end.
  destruct (_readDataType P range) as [v | |]; cbn [bind] in E; try discriminate E.
  exact (setAttribute_tag _ _ _ _ E).
Qed.

Lemma xmlFromExamples_tag :
  forall node example name n',
    _xmlFromExamples P node example name = Ok n' -> tag_of n' = tag_of node.
Proof.
  intros node example name n' E. unfold _xmlFromExamples in E.
  destruct (js_get example _) as [st | |]; cbn [bind] in E; try discriminate E.
  destruct (negb (truthy (unwrap st))); [inversion E; reflexivity |].
  exact (xmlProcessDataProperty_tag _ _ _ _ _ E).
Qed.

Lemma xmlProcessUnionScalarProperty_same :
  forall node property shape n',
    _xmlProcessUnionScalarProperty P node property shape = Ok n' -> n' = node.
Proof.
  intros node property shape n' E. unfold _xmlProcessUnionScalarProperty in E.
  destruct (_readDataType P shape) as [t | |]; cbn [bind] in E; try discriminate E.
  destruct (createElement _) as [el0 | |]; cbn [bind] in E; try discriminate E.
  match type of E with
  | bind ?m _ = _ => destruct m as [el | |]; cbn [bind] in E; try discriminate E
  end.
  inversion E. reflexivity.
Qed.

Lemma foldM_tag :
  forall (rec : Node -> JsVal -> Res Node) (l : list JsVal) (n n' : Node),
    (forall n p n', In p l -> rec n p = Ok n' -> tag_of n' = tag_of n) ->
    foldM rec n l = Ok n' -> tag_of n' = tag_of n.
Proof.
  intros rec l n n' Hrec E.
  refine (foldM_invariant _ _ (fun r => tag_of r = tag_of n) _ _ _ _ _ _ E).
  - reflexivity.
  - intros s x s' Hx Hs Ex. rewrite (Hrec _ _ _ Hx Ex). exact Hs.
Qed.

Lemma array_properties_tag :
  forall (rec : Node -> JsVal -> Res Node) isWrapped l node n',
    (forall n p n', In p l -> rec n p = Ok n' -> tag_of n' = tag_of n) ->
    array_properties P rec isWrapped node l = Ok n' ->
    tag_of n' = tag_of node.
Proof.
  intros rec isWrapped l. induction l as [| p l IH]; intros node n' Hrec E;
    cbn [array_properties] in E.
  - inversion E. reflexivity.
  - assert (Hrec' : forall n q n', In q l -> rec n q = Ok n' -> tag_of n' = tag_of n).
    { intros n q n0 Hq. apply Hrec. right. exact Hq. }
    destruct (truthy isWrapped).
    + destruct (negb (truthy _)); [exact (IH _ _ Hrec' E) |].
      destruct (createElement _) as [el0 | |]; cbn [bind] in E; try discriminate E.
      destruct (appendChild node _) as [x | |]; cbn [bind] in E; try discriminate E.
      destruct (rec _ p) as [e1 | |]; cbn [bind] in E; try discriminate E.
      destruct (array_properties P rec isWrapped e1 l) as [e2 | |]; cbn [bind] in E;
        try discriminate E.
      exact (appendChild_tag _ _ _ E).
    + destruct (rec node p) as [n1 | |] eqn:E1; cbn [bind] in E; try discriminate E.
      rewrite (IH _ _ Hrec' E). apply (Hrec _ _ _ (or_introl eq_refl) E1).
Qed.

Lemma xmlProcessProperty_fuel_tag :
  forall fuel node property n',
    _xmlProcessProperty_fuel P fuel node property = Ok n' ->
    tag_of n' = tag_of node.
Proof.
  induction fuel as [| fuel IH]; intros node property n' E; [discriminate E |].
  cbn [_xmlProcessProperty_fuel] in E.
  destruct (negb (truthy property)); [inversion E; reflexivity |].
  destruct (_hasType P property ns.shacl_NodeShape).
  { destruct (_ensureArray _) as [l |]; [| inversion E; reflexivity].
    apply (foldM_tag _ _ _ _) with (2 := E). intros n p n0 _. apply IH. }
  destruct (negb (truthy (prop property (_getAmfKey P ns.shapes_range))));
    [inversion E; reflexivity |].
  set (range := unwrap (prop property (_getAmfKey P ns.shapes_range))) in *.
  destruct (js_get range _) as [ser | |]; cbn [bind] in E; try discriminate E.
  assert (Hrest :
    (if _hasType P range ns.shapes_UnionShape
     then
       match _ensureArray (prop range (_getAmfKey P ns.shapes_anyOf)) with
       | Some alternatives =>
           if _hasType P (first alternatives) ns.shapes_ScalarShape
           then _xmlProcessUnionScalarProperty P node property (first alternatives)
           else _xmlProcessProperty_fuel P fuel node (first alternatives)
       | None => Ok node
       end
     else
       if truthy (if truthy (unwrap ser)
                  then _getValue P (unwrap ser) ns.shapes_xmlAttribute
                  else JUndef)
       then _appendXmlAttribute P node property range (unwrap ser)
       else
         if _hasType P range ns.shacl_NodeShape
         then _appendXmlElements P (_xmlProcessProperty_fuel P fuel) node property range
         else if _hasType P range ns.shapes_ArrayShape
         then _appendXmlArray P (_xmlProcessProperty_fuel P fuel) node property range
                (if truthy (unwrap ser)
                 then _getValue P (unwrap ser) ns.shapes_xmlWrapped
                 else JBool false)
         else ' (node0, _) <- _appendXmlElement P node range ;; Ok node0) = Ok n' ->
    tag_of n' = tag_of node).
  { clear E. intros E.
    destruct (_hasType P range ns.shapes_UnionShape).
    - destruct (_ensureArray _) as [alts |]; [| inversion E; reflexivity].
      destruct (_hasType P (first alts) ns.shapes_ScalarShape).
      + rewrite (xmlProcessUnionScalarProperty_same _ _ _ _ E). reflexivity.
      + exact (IH _ _ _ E).
    - destruct (truthy (if truthy (unwrap ser) then _ else _)).
      + exact (appendXmlAttribute_tag _ _ _ _ _ E).
      + destruct (_hasType P range ns.shacl_NodeShape).
        * unfold _appendXmlElements in E.
          destruct (_appendXmlElement P node range) as [[n1 e1] | |] eqn:Ea;
            cbn [bind] in E; try discriminate E.
          pose proof (appendXmlElement_tag _ _ _ _ Ea) as H1.
          destruct (_ensureArray _) as [ps |]; [| inversion E; subst; exact H1].
          destruct (foldM _ e1 ps) as [e2 | |]; cbn [bind] in E; try discriminate E.
          inversion E. rewrite sync_last_tag. exact H1.
        * destruct (_hasType P range ns.shapes_ArrayShape).
          -- unfold _appendXmlArray in E.
             destruct (truthy (if truthy (unwrap ser) then _ else _)).
             ++ destruct (_appendXmlElement P node range) as [[n1 e1] | |] eqn:Ea;
                  cbn [bind] in E; try discriminate E.
                pose proof (appendXmlElement_tag _ _ _ _ Ea) as H1.
                destruct (appendChild n1 e1) as [x | |]; cbn [bind] in E;
                  try discriminate E.
                destruct (_ensureArray _) as [ps |]; [| inversion E; subst; exact H1].
                destruct (array_properties _ _ _ e1 ps) as [e2 | |]; cbn [bind] in E;
                  try discriminate E.
                inversion E. rewrite sync_last_tag. exact H1.
             ++ destruct (_ensureArray _) as [ps |]; [| inversion E; reflexivity].
                apply (array_properties_tag _ _ _ _ _) with (2 := E).
                intros n p n0 _. apply IH.
          -- destruct (_appendXmlElement P node range) as [[n1 e1] | |] eqn:Ea;
               cbn [bind] in E; try discriminate E.
             inversion E. subst. exact (appendXmlElement_tag _ _ _ _ Ea). }
  destruct (_ensureArray (prop range (_getAmfKey P ns.apiContract_examples)))
    as [[| example rest] |]; try exact (Hrest E).
  exact (xmlFromExamples_tag _ _ _ _ E).
Qed.

Lemma foldM_xmlProcessProperty_tag :
  forall properties node n',
    foldM (_xmlProcessProperty P) node properties = Ok n' ->
    tag_of n' = tag_of node.
Proof.
  intros properties node n' E. apply (foldM_tag _ _ _ _) with (2 := E).
  intros n p n0 _. apply xmlProcessProperty_fuel_tag.
Qed.

Lemma tag_of_element :
  forall n name, tag_of n = Some name ->
                 exists attrs children, n = Some (XElement name attrs children).
Proof.
  intros n name H. destruct n as [[nm a c | t] |]; try discriminate H.
  inversion H. subst. eexists. eexists. reflexivity.
Qed.

Lemma xmlExampleFromProperties_root :
  forall (properties : list JsVal) (typeName : string) (parentType : JsVal)
         (text : string),
    root_tag typeName parentType <> "" ->
    _xmlExampleFromProperties P properties (JStr typeName) parentType = Ok text ->
    exists attrs children,
      text = serializeToString P
               (Some (XElement (root_tag typeName parentType) attrs children))
      /\ (parent_tag parentType <> "" ->
          attrs = []
          /\ exists a c, children = [XElement (_normalizeXmlTagName typeName) a c]).
Proof.
  intros properties typeName parentType text Hroot E.
  unfold _xmlExampleFromProperties in E. cbn [as_string bind] in E.
  assert (Hp : forall p,
             (if truthy parentType
              then p0 <- as_string parentType ;; Ok (_normalizeXmlTagName p0)
              else Ok "") = Ok p ->
             p = parent_tag parentType).
  { intros p H. unfold parent_tag.
    destruct parentType as [| | b | z | | s | l | fs]; cbn in H;
      try (inversion H; reflexivity);
      try (destruct b; [discriminate H | inversion H; reflexivity]);
      try (destruct (negb (z =? 0)); [discriminate H | inversion H; reflexivity]);
      try discriminate H.
    destruct (negb (s =? "")%string) eqn:Es; inversion H; [reflexivity |].
    apply negb_false_iff in Es. apply String.eqb_eq in Es. subst s. reflexivity. }
  match type of E with
  | bind ?m _ = _ => destruct m as [p | |] eqn:Em; cbn [bind] in E; try discriminate E
  end.
  specialize (Hp p eq_refl). subst p. unfold root_tag in *.
  destruct (String.eqb_spec (parent_tag parentType) "") as [Ee | Ne]; cbn [negb] in E.
  - destruct (createDocument _) as [main | |] eqn:Em0; cbn [bind] in E;
      try discriminate E.
    destruct (createDocument_ok _ _ Em0 Hroot) as [Hmain _]. subst main.
    destruct (foldM (_xmlProcessProperty P) _ properties) as [doc | |] eqn:Ef;
      cbn [bind] in E; try discriminate E.
    apply foldM_xmlProcessProperty_tag in Ef.
    cbn in Ef. destruct (tag_of_element _ _ Ef) as (attrs & children & Ed).
    subst doc. inversion E. exists attrs, children.
    split; [reflexivity | intros H; contradiction].
  - destruct (createDocument _) as [main | |] eqn:Em0; cbn [bind] in E;
      try discriminate E.
    destruct (createDocument_ok _ _ Em0 Ne) as [Hmain _]. subst main.
    destruct (createElement _) as [el0 | |] eqn:Ee0; cbn [bind] in E;
      try discriminate E.
    destruct (createElement_ok _ _ Ee0) as [Hel _]. subst el0.
    cbn [appendChild bind] in E.
    destruct (foldM (_xmlProcessProperty P) _ properties) as [el | |] eqn:Ef;
      cbn [bind] in E; try discriminate E.
    apply foldM_xmlProcessProperty_tag in Ef. cbn in Ef.
    destruct (tag_of_element _ _ Ef) as (a & c & Ed). subst el.
    cbn in E. inversion E. exists [], [XElement (_normalizeXmlTagName typeName) a c].
    split; [reflexivity |]. intros _. split; [reflexivity |].
    exists a, c. reflexivity.
Qed.

(** X16. The root element of an example made from the properties of a type is
    named after the type: the serialized tree has a root whose tag is the
    normalized parent type when there is one and the normalized type name
    otherwise, whatever the properties add to it; with a parent type the root
    has no attribute and one child, an element with the normalized type name
    as its tag. *)
Theorem xml_root_is_named_after_the_type :
  forall (properties : list JsVal) (typeName : string) (parentType : JsVal)
         (text : string),
    root_tag typeName parentType <> "" ->
    _xmlExampleFromProperties P properties (JStr typeName) parentType = Ok text ->
    exists attrs children,
      text = serializeToString P
               (Some (XElement (root_tag typeName parentType) attrs children))
      /\ (parent_tag parentType <> "" ->
          attrs = []
          /\ exists a c, children = [XElement (_normalizeXmlTagName typeName) a c]).
Proof.
  intros properties typeName parentType text Hroot E.
  exact (xmlExampleFromProperties_root properties typeName parentType text Hroot E).
Qed.

End Markup.

Section Unions.

Variable P : Platform.

(** ** Unions in a markup example *)

Lemma scalar_first_union_same :
  forall node property n',
    scalar_first_union P property = true ->
    _xmlProcessProperty P node property = Ok n' -> n' = node.
Proof.
  intros node property n' H E. unfold scalar_first_union in H.
  repeat match type of H with
         | _ && _ = true => apply andb_true_iff in H; destruct H as [H ?]
         end.
  repeat match goal with
         | G : negb _ = true |- _ => apply negb_true_iff in G
         end.
  unfold _xmlProcessProperty in E. cbn [_xmlProcessProperty_fuel] in E.
  repeat match goal with
         | G : _ = true |- _ => rewrite G in E
         | G : _ = false |- _ => rewrite G in E
         end.
  cbn [negb] in E.
  destruct (js_get _ _) as [ser | |]; cbn [bind] in E; try discriminate E.
  match goal with
  | G : truthy (prop ?r ?k) = false |- _ =>
      assert (He : _ensureArray (prop r k) = None)
        by (unfold _ensureArray; rewrite G; reflexivity)
  end.
  rewrite He in E.
  destruct (_ensureArray (prop _ (_getAmfKey P ns.shapes_anyOf))) as [alts |];
    [| discriminate].
  match goal with
  | G : _hasType P (first alts) _ = true |- _ => rewrite G in E
  end.
  exact (xmlProcessUnionScalarProperty_same P _ _ _ _ E).
Qed.

Lemma foldM_without :
  forall (A S : Type) (skip : A -> bool) (f : S -> A -> Res S) (l : list A) (s r : S),
    (forall s x s', skip x = true -> f s x = Ok s' -> s' = s) ->
    foldM f s l = Ok r ->
    foldM f s (List.filter (fun x => negb (skip x)) l) = Ok r.
Proof.
  intros A S skip f l. induction l as [| x l IH]; intros s r H E; cbn [foldM] in E.
  - exact E.
  - destruct (f s x) as [s1 | |] eqn:E1; cbn [bind] in E; try discriminate E.
    cbn [List.filter]. destruct (skip x) eqn:Ex; cbn [negb].
    + rewrite (H _ _ _ Ex E1) in E. apply IH; assumption.
    + cbn [foldM]. rewrite E1. cbn [bind]. apply IH; assumption.
Qed.

(** X17. A property whose type is a union that starts with a scalar shape
    leaves no trace in a markup example: its element is made and is appended
    to nothing. When an example is made from a list of properties, the same
    example is made from the list without these properties. *)
Theorem scalar_first_unions_are_left_out :
  forall (properties : list JsVal) (typeName parentType : JsVal) (text : string),
    _xmlExampleFromProperties P properties typeName parentType = Ok text ->
    _xmlExampleFromProperties P
      (List.filter (fun p => negb (scalar_first_union P p)) properties)
      typeName parentType = Ok text.
Proof.
  intros properties typeName parentType text E.
  unfold _xmlExampleFromProperties in *.
  destruct (as_string typeName) as [t | |]; cbn [bind] in *; try discriminate E.
  match type of E with
  | bind ?m _ = _ => destruct m as [p | |]; cbn [bind] in *; try discriminate E
  end.
  destruct (negb (p =? "")%string).
  - destruct (createDocument p) as [main | |]; cbn [bind] in *; try discriminate E.
    destruct (createElement _) as [el0 | |]; cbn [bind] in *; try discriminate E.
    destruct (appendChild _ _) as [x | |]; cbn [bind] in *; try discriminate E.
    destruct (foldM (_xmlProcessProperty P) _ properties) as [el | |] eqn:Ef;
      cbn [bind] in E; try discriminate E.
    rewrite (foldM_without _ _ (scalar_first_union P) _ _ _ _
               (fun s x s' => scalar_first_union_same s x s') Ef).
    exact E.
  - destruct (createDocument _) as [main | |]; cbn [bind] in *; try discriminate E.
    destruct (foldM (_xmlProcessProperty P) _ properties) as [doc | |] eqn:Ef;
      cbn [bind] in E; try discriminate E.
    rewrite (foldM_without _ _ (scalar_first_union P) _ _ _ _
               (fun s x s' => scalar_first_union_same s x s') Ef).
    exact E.
Qed.

End Unions.

Section Wrappers.

Variable P : Platform.

(** ** The two models of a list of examples *)

(** X18. The examples of a shape give the same view models in the two models
    of the parser: as a list of examples, and (since AMF 4) as the one
    [NamedExamples] node that holds this list. *)
Theorem named_examples_wrapper_is_transparent :
  forall (wrapper : JsVal) (examples : list JsVal) (mime : option string)
         (opts : Opts),
    _hasType P wrapper ns.document_NamedExamples = true ->
    prop wrapper (_getAmfKey P ns.apiContract_examples) = JArr examples ->
    plain_list P examples = true ->
    _computeFromExamples P [wrapper] mime opts
    = _computeFromExamples P examples mime opts.
Proof.
  intros wrapper examples mime opts Ht Hp Hl.
  unfold _computeFromExamples, _processExamples.
  cbn [length Nat.eqb first nth andb]. rewrite Ht, Hp.
  unfold plain_list in Hl. apply negb_true_iff in Hl. rewrite Hl.
  reflexivity.
Qed.

End Wrappers.

Section RawMarkup.

Variable P : Platform.

(** ** Raw text for a markup target *)

(** X19. Raw markup is shown as it is. For a media type that names XML and
    not JSON, with [rawOnly] unset, an example whose raw text starts with a
    tag (white space aside) gives a view model with the raw text, unchanged,
    as its value, with [hasRaw] false and no [raw] field; its structured value
    is not read. *)
Theorem raw_markup_is_shown_as_it_is :
  forall (example : JsVal) (media text : string) (opts : Opts),
    rawOnly opts = false ->
    Str.contains media "json" = false ->
    Str.contains media "xml" = true ->
    text_or_falsy (_getValue P example ns.core_name) = true ->
    example_raw P example = JStr text ->
    starts_with_tag text = true ->
    _generateFromExample P example (Some media) opts
    = Ok (Some (set_isScalar false
                  (set_value (JStr text)
                     (set_hasRaw false (titled (example_title P example)))))).
Proof.
  intros example media text opts Hr Hj Hx Ht He Hs.
  unfold _generateFromExample. cbv zeta.
  rewrite (example_title_read P example Ht). cbn [bind].
  unfold example_raw in He. cbv zeta in He. rewrite He.
  assert (Htr : truthy (JStr text) = true).
  { destruct text; [discriminate Hs | reflexivity]. }
  rewrite Hr, Htr. cbn [andb negb mime_has bind]. rewrite Hj. cbn [bind].
  rewrite Hx. cbn [bind as_string].
  unfold starts_with_tag in Hs.
  destruct (Str.head (Str.trim text)) as [c |]; [| discriminate Hs].
  destruct (Ascii.eqb_spec c "<"%char) as [Ec | Nc].
  - subst c. reflexivity.
  - exfalso. destruct c as [[] [] [] [] [] [] [] []]; try discriminate Hs.
    apply Nc. reflexivity.
Qed.

End RawMarkup.

Section Synthesis.

Variable P : Platform.

(** ** Properties always give JSON *)

(** X21. For a media type that names JSON the properties of a type always give
    a view model, also when no property has a name or a range: the value is
    the text of the object made from the properties, [hasRaw] is false and
    there is no title. *)
Theorem properties_always_give_json :
  forall (properties : list JsVal) (media : string) (name parentType v : JsVal),
    Str.contains media "json" = true ->
    jsonExampleFromProperties P properties = Ok v ->
    JSON_stringify P v <> "" ->
    truthy v = true
    /\ _exampleFromProperties P properties (Some media) name parentType
       = Ok (Some (mkExample (Some false) false false
                             (JStr (JSON_stringify P v)) JUndef JUndef None None)).
Proof.
  intros properties media name parentType v Hm Ev Hs.
  destruct (jsonExampleFromProperties_object P _ _ _ Ev) as (fs & Ef & _).
  subst v. split; [reflexivity |].
  unfold _exampleFromProperties. cbn [mime_has bind]. rewrite Hm.
  rewrite Ev. cbn [bind truthy].
  destruct (String.eqb_spec (JSON_stringify P (JObj fs)) ""); [contradiction |].
  reflexivity.
Qed.

(** ** The root of a markup example of a structured value *)

Lemma foldM_data_tag :
  forall (structure : JsVal) (keys : list string) (node n' : Node),
    foldM (fun main key =>
             if negb (Str.startsWith key (_getAmfKey P ns.data)) then Ok main
             else _xmlProcessDataProperty P main (unwrap (prop structure key))
                    (JStr (_dataNameFromKey key)))
          node keys = Ok n' ->
    tag_of n' = tag_of node.
Proof.
  intros structure keys node n' E.
  refine (foldM_invariant _ _ (fun r => tag_of r = tag_of node) _ _ _ _ _ _ E).
  - reflexivity.
  - intros s x s' _ Hs Ex.
    destruct (negb (Str.startsWith x (_getAmfKey P ns.data)));
      [inversion Ex; subst; exact Hs |].
    rewrite (xmlProcessDataProperty_tag P _ _ _ _ _ Ex). exact Hs.
Qed.

(** X22. The markup example of a structured value has a root named after the
    type: the text is the pretty-printed document, after the XML declaration,
    of a tree whose root has the normalized type name of the options as its
    tag, and [unknown-type] when the options have no type name. *)
Theorem structure_root_is_named_after_the_type :
  forall (structure : JsVal) (opts : Opts) (text : string),
    structure_root_tag opts <> "" ->
    _xmlFromStructure P structure opts = Ok text ->
    exists attrs children,
      text = formatXml P
               (xml_header
                ++ serializeToString P
                     (Some (XElement (structure_root_tag opts) attrs children))).
Proof.
  intros structure opts text Hn E. unfold _xmlFromStructure in E.
  unfold structure_root_tag in *.
  destruct (js_or (typeName opts) (JStr UNKNOWN_TYPE)) as [| | b | z | | t | l | fs];
    cbn [as_string bind] in E; try discriminate E.
  destruct (createDocument _) as [main | |] eqn:Em; cbn [bind] in E;
    try discriminate E.
  destruct (createDocument_ok _ _ Em Hn) as [Hmain _]. subst main.
  destruct (data_keys structure) as [keys | |]; cbn [bind] in E; try discriminate E.
  match type of E with
  | bind ?m _ = _ => destruct m as [doc | |] eqn:Ef; cbn [bind] in E;
                     try discriminate E
  end.
  apply foldM_data_tag in Ef.
  cbn in Ef. destruct (tag_of_element _ _ Ef) as (attrs & children & Ed).
  subst doc. inversion E. exists attrs, children. reflexivity.
Qed.

End Synthesis.

Section EmptyList.

Variable P : Platform.

(** ** An empty list of examples *)

(** X23. With [rawOnly] set, a shape whose author examples have no raw text
    is answered with an empty list of view models, not with an absent
    result: the examples are there, and none of them gives a view model. *)
Theorem rawOnly_without_raw_text_gives_an_empty_list :
  forall (schema : JsVal) (mime : option string) (opts : Opts)
         (examples : list JsVal) (selected : option (list JsVal))
         (kept : list JsVal),
    truthy schema = true ->
    rawOnly opts = true ->
    readable_name P schema = true ->
    _ensureArray (prop schema (_getAmfKey P ns.apiContract_examples)) = Some examples ->
    _processExamples P (JArr examples) = Ok selected ->
    _listTypeExamples P selected (typeId opts) = Ok (Some kept) ->
    Forall (fun example =>
              truthy (example_raw P example) = false
              /\ text_or_falsy (_getValue P example ns.core_name) = true) kept ->
    exists opts', computeExamples P schema mime opts = Ok (Some [], opts').
Proof.
  intros schema mime opts examples selected kept Hs Hr Hn He Hp Hl Hk.
  unfold computeExamples. cbn [computeExamples_fuel].
  rewrite Hs, Hr. cbn [negb orb]. rewrite andb_false_r. unfold _resolve.
  destruct (name_type_readable P schema opts Hn) as (o1 & En & Hr1 & _ & Hid).
  rewrite En. cbn [bind]. rewrite He.
  unfold _computeFromExamples. rewrite Hp. cbn [bind]. rewrite Hid, Hl. cbn [bind].
  rewrite Hr in Hr1.
  assert (Hf : forall acc,
             foldM (fun result shape =>
                      value <- _generateFromExample P shape mime o1 ;;
                      match value with
                      | Some value => Ok (result ++ [value])%list
                      | None => Ok result
                      end) acc kept = Ok acc).
  { clear Hl.
    induction Hk as [| x l [Hx Ht] Hl' IH]; intros acc; cbn [foldM]; [reflexivity |].
    rewrite (generateFromExample_rawOnly P x mime o1 Hr1). cbv zeta.
    rewrite (example_title_read P x Ht). cbn [bind]. rewrite Hx. cbn [bind].
    apply IH. }
  rewrite Hf. cbn [bind]. exists o1. reflexivity.
Qed.

End EmptyList.

Section Collections.

(** ** The child tag of a collection *)

Lemma take_append : forall p s, Str.take (String.length p) (p ++ s) = p.
Proof.
  induction p as [| c p IH]; intros s; cbn.
  - destruct s; reflexivity.
  - rewrite IH. reflexivity.
Qed.

Lemma length_append :
  forall a b, String.length (a ++ b) = (String.length a + String.length b)%nat.
Proof. induction a as [| c a IH]; intros b; cbn; [reflexivity | rewrite IH; reflexivity]. Qed.

Lemma append_snoc :
  forall a (c : ascii) b, (a ++ String c "") ++ b = a ++ String c b.
Proof. induction a as [| d a IH]; intros c b; cbn; [reflexivity | rewrite IH; reflexivity]. Qed.

(** X24. The members of a data array are rendered under the tag of the array
    without its ending: a tag that ends in [es] loses these two letters,
    whatever comes before them (so [names] gives [nam]); any other tag that
    ends in [s] loses the [s]. *)
Theorem collection_tags_lose_their_ending :
  forall (stem : string) (c : ascii),
    singular (stem ++ "es") = stem
    /\ (if Ascii.eqb c "e" then True
        else singular (stem ++ String c "s") = stem ++ String c "").
Proof.
  intros stem c. unfold singular, Str.last. split.
  - rewrite length_append. cbn [String.length].
    replace (String.length stem + 2 - 2)%nat with (String.length stem) by lia.
    rewrite substr_append. cbn [String.eqb Ascii.eqb]. cbn.
    apply take_append.
  - destruct (Ascii.eqb_spec c "e") as [Ec | Nc]; [exact I |].
    rewrite length_append. cbn [String.length].
    replace (String.length stem + 2 - 2)%nat with (String.length stem) by lia.
    rewrite substr_append.
    assert (H1 : (String c "s" =? "es")%string = false).
    { cbn [String.eqb]. destruct (Ascii.eqb_spec c "e"); [contradiction | reflexivity]. }
    rewrite H1.
    replace (String.length stem + 2 - 1)%nat with (String.length (stem ++ String c ""))
      by (rewrite length_append; cbn; lia).
    replace (stem ++ String c "s") with ((stem ++ String c "") ++ "s")
      by apply append_snoc.
    rewrite substr_append. cbn [String.eqb]. rewrite Ascii.eqb_refl.
    apply take_append.
Qed.

End Collections.

Section ArraysInMarkup.

Variable P : Platform.

(** ** The markup example of an array *)

Lemma unanswered_steps :
  forall schema,
    unanswered P schema = true ->
    truthy schema = true
    /\ _ensureArray (prop schema (_getAmfKey P ns.apiContract_examples)) = None
    /\ exists js, _readJsonSchema P schema = Ok js /\ truthy js = false.
Proof.
  intros schema H. unfold unanswered in H.
  apply andb_true_iff in H. destruct H as [H Hj].
  apply andb_true_iff in H. destruct H as [Ht He].
  apply negb_true_iff in He. repeat split; [exact Ht | |].
  - unfold _ensureArray. rewrite He. reflexivity.
  - unfold no_json_schema in Hj.
    destruct (_readJsonSchema P schema) as [js | |]; try discriminate Hj.
    exists js. split; [reflexivity | apply negb_true_iff; exact Hj].
Qed.

Lemma named_type_steps :
  forall schema name opts,
    named_type P schema name ->
    truthy (typeName opts) = false ->
    name_type P schema opts = Ok (with_typeName (JStr name) opts).
Proof.
  intros schema name opts (Hn & He & Hi) Ht. unfold name_type.
  rewrite Ht, Hn. cbn [negb].
  assert (Hs : truthy (JStr name) = true).
  { destruct name; [contradiction | reflexivity]. }
  rewrite Hs, Hi. reflexivity.
Qed.

Lemma object_in_markup :
  forall fuel item properties name media opts r opts',
    object_with P item properties ->
    named_type P item name ->
    truthy (typeName opts) = false ->
    rawOnly opts = false -> noAuto opts = false ->
    Str.contains media "json" = false -> Str.contains media "xml" = true ->
    computeExamples_fuel P (S fuel) item (Some media) opts = Ok (r, opts') ->
    exists text,
      _xmlExampleFromProperties P properties (JStr name) (parentName opts) = Ok text
      /\ r = (if (text =? "")%string then None
              else if (formatXml P (xml_header ++ text) =? "")%string then None
                   else Some [plain_example (JStr (formatXml P (xml_header ++ text)))]).
Proof.
  intros fuel item properties name media opts r opts'
         (Hu & Ha & Hx & Hun & Hsc & Hne & Hp) Hn Ht Hr Hno Hj Hm E.
  destruct (unanswered_steps _ Hu) as (Htr & He & js & Ejs & Hjs).
  assert (Hmed : str_truthy (Some media) = true).
  { destruct media; [discriminate Hm | reflexivity]. }
  cbn [computeExamples_fuel] in E. unfold _resolve in E.
  rewrite Htr, Hmed in E. cbn [negb orb andb] in E.
  rewrite (named_type_steps _ _ _ Hn Ht) in E. cbn [bind] in E.
  rewrite He, Ejs in E. cbn [bind] in E. rewrite Hjs in E.
  cbn [rawOnly with_typeName] in E. rewrite Hr, Ha in E. cbn [bind] in E.
  rewrite Hx in E. cbn [bind] in E. rewrite Hun in E.
  cbn [noAuto with_typeName] in E. rewrite Hno, Hsc, Hp in E.
  destruct properties as [| p ps]; [contradiction |].
  cbn [typeName parentName with_typeName] in E.
  unfold _exampleFromProperties in E. cbn [mime_has bind] in E.
  rewrite Hj in E. cbn [bind] in E. rewrite Hm in E.
  assert (Hor : js_or (JStr name) (JStr UNKNOWN_TYPE) = JStr name).
  { unfold js_or. destruct Hn as (_ & Hne' & _).
    destruct name; [contradiction | reflexivity]. }
  rewrite Hor in E.
  destruct (_xmlExampleFromProperties P (p :: ps) (JStr name) (parentName opts))
    as [text | |]; cbn [bind] in E; try discriminate E.
  exists text. split; [reflexivity |].
  destruct (text =? "")%string eqn:Et; cbn [negb bind] in E.
  - rewrite Et in E. cbn [negb bind] in E. inversion E. reflexivity.
  - destruct (formatXml P (xml_header ++ text) =? "")%string; cbn [negb bind] in E;
      inversion E; reflexivity.
Qed.

(** X25. The markup example of an array of objects has the array as its root
    and the object as the one child of the root. When [computeExamples]
    gives view models for an array shape named [A] whose item is an object
    shape named [I] (no author examples, options without a type name, a media
    type that names XML), it gives one view model, whose value is the
    pretty-printed document of a root with tag [A] that holds one element with
    tag [I] (both names normalized). *)
Theorem markup_of_an_array_is_rooted_at_the_array :
  forall (schema item : JsVal) (properties : list JsVal) (A I media : string)
         (opts : Opts) (r : list Example) (opts' : Opts),
    array_with_item P schema item ->
    named_type P schema A ->
    object_with P item properties ->
    named_type P item I ->
    _normalizeXmlTagName A <> "" ->
    truthy (typeName opts) = false ->
    rawOnly opts = false -> noAuto opts = false ->
    Str.contains media "json" = false -> Str.contains media "xml" = true ->
    computeExamples P schema (Some media) opts = Ok (Some r, opts') ->
    exists attrs children,
      r = [plain_example
             (JStr (formatXml P
                      (xml_header
                       ++ serializeToString P
                            (Some (XElement (_normalizeXmlTagName A) []
                                     [XElement (_normalizeXmlTagName I)
                                               attrs children])))))].
Proof.
  intros schema item properties A I media opts r opts'
         (Hu & Ha & Hx & Hun & Hsc & Hp & Hi) HA Hobj HI HnA Ht Hr Hno Hj Hm E.
  destruct (unanswered_steps _ Hu) as (Htr & He & js & Ejs & Hjs).
  assert (Hmed : str_truthy (Some media) = true).
  { destruct media; [discriminate Hm | reflexivity]. }
  unfold computeExamples in E.
  assert (Hd : exists fuel, depth schema = S fuel).
  { destruct schema as [| | b | z | | t | l | fs]; cbn [depth];
      try (cbn in Hi; discriminate Hi); eexists; reflexivity. }
  destruct Hd as (fuel & Hd).
  cbn [computeExamples_fuel] in E. unfold _resolve in E.
  rewrite Htr, Hmed in E. cbn [negb orb andb] in E.
  rewrite (named_type_steps _ _ _ HA Ht) in E. cbn [bind] in E.
  rewrite He, Ejs in E. cbn [bind] in E. rewrite Hjs in E.
  cbn [rawOnly with_typeName] in E. rewrite Hr, Ha in E.
  unfold _computeExampleArraySchape in E. rewrite Hi in E.
  cbn [mime_has bind] in E. rewrite Hj in E. cbn [array_items] in E.
  match type of E with
  | bind (bind ?m _) _ = _ =>
      destruct m as [[r1 o1] | |] eqn:Eitem; cbn [bind] in E; try discriminate E
  end.
  rewrite Hd in Eitem.
  apply object_in_markup with (properties := properties) (name := I) in Eitem;
    try assumption; try reflexivity.
  destruct Eitem as (text & Etext & Er1).
  cbn [parentName typeName with_typeName with_parentName] in Etext.
  assert (Hroot : root_tag I (JStr A) = _normalizeXmlTagName A).
  { unfold root_tag, parent_tag.
    destruct (String.eqb_spec (_normalizeXmlTagName A) ""); [contradiction | reflexivity]. }
  destruct (xmlExampleFromProperties_root P properties I (JStr A) text)
    as (attrs & children & Es & Hc); [rewrite Hroot; exact HnA | exact Etext |].
  destruct (Hc HnA) as (Hat & a & c & Hch). subst attrs children.
  rewrite Hroot in Es.
  destruct r1 as [r1 |].
  - cbn [bind] in E. inversion E. subst r1 o1.
    destruct (text =? "")%string; [discriminate Er1 |].
    destruct (formatXml P (xml_header ++ text) =? "")%string; [discriminate Er1 |].
    inversion Er1. exists a, c. rewrite Es. reflexivity.
  - cbn [bind] in E. rewrite Hx in E. cbn [bind] in E. rewrite Hun in E.
    destruct (noAuto o1); [discriminate E |].
    rewrite Hsc, Hp in E. discriminate E.
Qed.

End ArraysInMarkup.

Section Ranges.

Variable P : Platform.

(** ** The value of a property by its range *)

(** X26. The value synthesized for a property has the JSON kind of its range:
    the scalar value for a scalar shape, an object for an object shape and
    for a union (the object of its first object alternative), an array
    without [undefined] entries for an array shape, [null] for a nil shape,
    and nothing for any other range or when the range has no properties or
    items to go by. *)
Theorem property_value_has_the_kind_of_its_range :
  forall (range name v : JsVal),
    _computeJsonProperyValue P range name = Ok v ->
    value_of_range P range v.
Proof.
  intros range name v E. unfold _computeJsonProperyValue in E.
  cbn [_computeJsonProperyValue_fuel] in E. unfold value_of_range.
  destruct (_hasType P range ns.shapes_ScalarShape); [exact E |].
  destruct (_hasType P range ns.shapes_UnionShape).
  { cbn [orb]. unfold _computeJsonUnionValue in E.
    destruct (_ensureArray _) as [alts |]; [| inversion E; left; reflexivity].
    induction alts as [| item rest IH]; [inversion E; left; reflexivity |].
    unfold _resolve in *.
    destruct (truthy name && _); [exact (IH E) |].
    destruct (_hasType P (unwrap item) ns.shacl_NodeShape); [| exact (IH E)].
    destruct (_ensureArray (prop (unwrap item) _)) as [data |]; [| exact (IH E)].
    destruct (jsonExampleFromProperties_object P _ _ _ E) as (fs & Ef & _).
    right. exists fs. exact Ef. }
  destruct (_hasType P range ns.shacl_NodeShape).
  { cbn [orb]. unfold _computeJsonObjectValue in E.
    destruct (_ensureArray _) as [[| p ps] |]; try (inversion E; left; reflexivity).
    destruct (jsonExampleFromProperties_object P _ _ _ E) as (fs & Ef & _).
    right. exists fs. exact Ef. }
  cbn [orb].
  destruct (_hasType P range ns.shapes_ArrayShape).
  { unfold _computeJsonArrayValue in E.
    destruct (_ensureArray _) as [items |]; [| inversion E; left; reflexivity].
    match type of E with
    | bind ?m _ = _ => destruct m as [res | |] eqn:Ef; cbn [bind] in E;
                       try discriminate E
    end.
    inversion E. right. exists res. split; [reflexivity |].
    refine (foldM_invariant _ _ (fun r => Forall (fun x => x <> JUndef) r)
              _ _ _ _ _ _ Ef).
    - constructor.
    - intros s x s' _ Hs Ex.
      match type of Ex with
      | bind ?m _ = _ => destruct m as [val | |]; cbn [bind] in Ex;
                         try discriminate Ex
      end.
      destruct val; inversion Ex; subst s'; try exact Hs;
        apply Forall_app; (split; [exact Hs |]);
        constructor; try constructor; discriminate. }
  destruct (_hasType P range ns.shapes_NilShape); inversion E; reflexivity.
Qed.

(** ** The literal of a structured scalar *)

(** X27. A structured scalar with a typed literal that is not empty gives a
    value of the JSON kind of the type of the literal: a number, never
    [NaN], for the numeric XML Schema datatypes, and a boolean for boolean
    ([true] for the text [true] only). *)
Theorem typed_literal_has_the_kind_of_its_type :
  forall (structure : JsVal) (text name : string) (kind : JsType),
    compact_keys P ->
    prop (unwrap (prop structure (_getAmfKey P ns.data_value))) "@value" = JStr text ->
    prop (unwrap (prop structure (_getAmfKey P ns.data_value))) "@type"
    = JStr (ns.xmlSchema ++ name) ->
    text <> "" ->
    kind_of_datatype name = Some kind ->
    exists v, _getTypedValue P structure = Ok v
              /\ typeof v = kind /\ v <> JNaN
              /\ (kind = TBoolean -> v = JBool (text =? "true")%string).
Proof.
  intros structure text name kind Hc Hv Hty Hne Hk.
  assert (Hnames : In name ["integer"; "number"; "long"; "double"; "float"; "boolean"]).
  { unfold kind_of_datatype in Hk. cbn [In].
    repeat match type of Hk with
           | context [(name =? ?s)%string] =>
               destruct (String.eqb_spec name s); [subst name; auto 10 |]
           end.
    cbn in Hk. discriminate Hk. }
  unfold _getTypedValue. cbv zeta.
  set (shape := unwrap (prop structure (_getAmfKey P ns.data_value))) in *.
  assert (Hobj : exists fs, shape = JObj fs).
  { destruct shape; try discriminate Hv. eexists. reflexivity. }
  destruct Hobj as (fs & Efs).
  assert (Htr : truthy (prop structure (_getAmfKey P ns.data_value)) = true).
  { destruct (prop structure (_getAmfKey P ns.data_value)) as [| | b | z | | t | l | fs0];
      try reflexivity; cbn in Efs; discriminate Efs. }
  rewrite Htr. cbn [negb]. rewrite Efs. cbn [typeof js_get bind].
  rewrite <- Efs. rewrite Hv, Hty.
  assert (Ht1 : truthy (JStr text) = true).
  { destruct text; [contradiction | reflexivity]. }
  assert (Ht2 : truthy (JStr (ns.xmlSchema ++ name)) = true) by reflexivity.
  rewrite Ht1, Ht2. cbn [negb bind unwrap].
  cbn [In] in Hnames.
  destruct Hnames as [H | [H | [H | [H | [H | [H | []]]]]]]; subst name;
    inversion Hk; subst kind;
    try (rewrite (typeToValue_number P); [| exact Hc | cbn; tauto | exact Ht1];
         eexists; repeat split; discriminate).
  rewrite (typeToValue_boolean P) by exact Ht1.
  eexists. repeat split; discriminate.
Qed.

End Ranges.

Section Members.

Variable P : Platform.

(** ** Scalar members in markup *)

Lemma name_char_is_xml_name_char :
  forall c, (name_char c || Ascii.eqb c "_") = true -> xml_name_char c = true.
Proof. intros c; by_bits c. Qed.

Lemma letter_is_name_start_char :
  forall c, (Str.is_lower c || Str.is_upper c || Ascii.eqb c "_") = true ->
            name_start_char c = true.
Proof. intros c; by_bits c. Qed.

(** A normalized name that starts with a letter or an underscore is an XML
    name. *)
Lemma normalized_element_name :
  forall name,
    element_name (_normalizeXmlTagName name) = true ->
    xml_name (_normalizeXmlTagName name) = true.
Proof.
  intros name H.
  assert (Hall : forall c, In c (Str.chars (_normalizeXmlTagName name)) ->
                           (name_char c || Ascii.eqb c "_") = true).
  { intros c Hc. apply filter_chars in Hc. destruct Hc as [_ Hc]. exact Hc. }
  destruct (_normalizeXmlTagName name) as [| c rest]; [discriminate H |].
  cbn [xml_name]. apply andb_true_iff. split.
  - apply letter_is_name_start_char. exact H.
  - apply forallb_forall. intros d Hd. apply name_char_is_xml_name_char.
    apply Hall. right. exact Hd.
Qed.

(** X28. A scalar member of a structured value becomes an element of its own.
    For a data scalar whose literal is text without a type of its own,
    [_xmlProcessDataProperty] appends to the node, after the children that
    are there, one element with the normalized name as its tag and the
    literal as its only text; the node keeps its tag, its attributes and its
    children. The normalized name is one that the DOM accepts for an
    element. *)
Theorem scalar_member_becomes_an_element :
  forall (tag : string) (attrs : list (string * string)) (children : list XmlNode)
         (property : JsVal) (literals : list JsVal) (name text : string),
    _hasType P property ns.data_Scalar = true ->
    _ensureArray (prop property (_getAmfKey P ns.data_value)) = Some literals ->
    prop (first literals) "@value" = JStr text ->
    truthy (prop (first literals) "@type") = false ->
    _ensureArray (prop property (_getAmfKey P ns.shacl_datatype)) = None ->
    element_name (_normalizeXmlTagName name) = true ->
    _xmlProcessDataProperty P (Some (XElement tag attrs children)) property (JStr name)
    = Ok (Some (XElement tag attrs
                  (children ++ [XElement (_normalizeXmlTagName name) []
                                         [XText text]]))).
Proof.
  intros tag attrs children property literals name text Ht Hl Hv Hty Hd Hn.
  assert (Hobj : exists fs, property = JObj fs).
  { destruct property as [| | b | z | | t | l | fs];
      try (cbn in Hl; discriminate Hl).
    eexists. reflexivity. }
  destruct Hobj as (fs & Ep).
  assert (Htr : truthy property = true) by (subst property; reflexivity).
  assert (Hnm : truthy (JStr name) = true).
  { destruct name; [discriminate Hn | reflexivity]. }
  assert (Hget : js_get (first literals) "@value" = Ok (JStr text)).
  { rewrite <- Hv. destruct (first literals); try reflexivity; discriminate Hv. }
  unfold _xmlProcessDataProperty. cbn [_xmlProcessDataProperty_fuel].
  rewrite Htr, Hnm. cbn [negb orb as_string bind].
  unfold createElement. rewrite (normalized_element_name name Hn). cbn [bind].
  rewrite Ht.
  unfold _computeStructuredExampleValue. cbn [_computeStructuredExampleValue_fuel].
  rewrite Htr. cbn [negb]. rewrite Ep. rewrite <- Ep.
  rewrite Ht, Hl, Hget. cbn [bind]. rewrite Hty. cbn [negb]. rewrite Hd.
  cbn [bind strict_eq_str orb js_to_string appendChild app].
  reflexivity.
Qed.

End Members.

Section Printer.

Variable P : Platform.

(** ** The pretty printer *)

Lemma split_chars_nonempty :
  forall sep l cur, Str.split_chars sep cur l <> [].
Proof.
  intros sep l. induction l as [| c l IH]; intros cur; cbn [Str.split_chars].
  - discriminate.
  - destruct (Ascii.eqb c sep); [discriminate | apply IH].
Qed.

Lemma append_assoc3 :
  forall a b c : string, a ++ (b ++ c) = (a ++ b) ++ c.
Proof.
  induction a as [| x a IH]; intros b c; cbn; [reflexivity |].
  rewrite IH. reflexivity.
Qed.

(** X29. Whatever the regular expressions match, the text that [formatXml]
    returns ends in a line feed: every line of the text is written back
    followed by one, the last line included. The pretty-printed text is never
    empty, so that an example that was pretty-printed is never dropped as an
    empty value. *)
Theorem formatted_text_ends_its_last_line :
  forall (xml : string),
    (exists body, formatXml P xml = body ++ nl) /\ formatXml P xml <> "".
Proof.
  intros xml.
  assert (H : exists body, formatXml P xml = body ++ nl).
  { unfold formatXml. cbv zeta.
    match goal with
    | |- context [Str.split ?sep ?text] =>
        destruct (exists_last (split_chars_nonempty sep (Str.chars text) []))
          as (lines & last & El);
        unfold Str.split; rewrite El
    end.
    rewrite fold_left_app. cbn [fold_left].
    match goal with
    | |- context [fold_left ?f lines ?init] =>
        destruct (fold_left f lines init) as [[formatted indent] lastType]
    end.
    destruct (regex_test P _ last).
    - exists (formatted ++ last). apply append_assoc3.
    - match goal with
      | |- context [if ?a then single else _] =>
          destruct a; [| match goal with
                         | |- context [if ?b then closing else _] =>
                             destruct b; [| match goal with
                                            | |- context [if ?c then opening else _] =>
                                                destruct c
                                            end]
                         end]
      end;
        destruct lastType; cbn;
        first [ eexists; rewrite !append_assoc3; reflexivity
              | eexists; rewrite <- append_assoc3; rewrite !append_assoc3; reflexivity ]. }
  split; [exact H |].
  destruct H as (body & E). rewrite E. destruct body; discriminate.
Qed.

End Printer.

(** * Closed examples of the further properties *)

Lemma listed_media_selects_a_payload_example :
  listMedia Host.platform Cases.two_payloads
  = Some [JStr "application/xml"; JStr "application/json"]
  /\ exists payload,
      In payload (payload_list Cases.two_payloads)
      /\ payload_media Host.platform payload = JStr "application/json"
      /\ generatePayloadsExamples Host.platform Cases.two_payloads
           (Some "application/json") no_opts
         = generatePayloadExamples Host.platform payload
             (Some "application/json") no_opts.
Proof.
  split; [reflexivity |].
  apply (listed_media_selects_a_payload Host.platform Cases.two_payloads
           [JStr "application/xml"; JStr "application/json"]
           "application/json" no_opts).
  - reflexivity.
  - right. left. reflexivity.
  - discriminate.
Defined.

Lemma computeExamples_keeps_switches_example :
  computeExamples Host.platform (Samples.array_of Samples.text_or_integer)
    Samples.json (Samples.for_payload "amf://id#payload")
  = Ok (Some [mkExample (Some false) false true JUndef JUndef JUndef
                (Some [mkExample (Some false) true false
                         (JStr ("[" ++ dquote ++ dquote ++ "]"))
                         (JStr "text") JUndef None (Some true);
                       mkExample (Some false) true false
                         (JNum 0)
                         (JStr "Union #2") JUndef None (Some true)])
                None],
        mkOpts false false (JStr "text") JUndef (JStr "amf://id#payload"))
  /\ rawOnly (mkOpts false false (JStr "text") JUndef (JStr "amf://id#payload"))
     = rawOnly (Samples.for_payload "amf://id#payload")
  /\ noAuto (mkOpts false false (JStr "text") JUndef (JStr "amf://id#payload"))
     = noAuto (Samples.for_payload "amf://id#payload")
  /\ typeId (mkOpts false false (JStr "text") JUndef (JStr "amf://id#payload"))
     = typeId (Samples.for_payload "amf://id#payload").
Proof.
  assert (E : computeExamples Host.platform
                (Samples.array_of Samples.text_or_integer)
                Samples.json (Samples.for_payload "amf://id#payload")
              = Ok (Some [mkExample (Some false) false true JUndef JUndef JUndef
                            (Some [mkExample (Some false) true false
                                     (JStr ("[" ++ dquote ++ dquote ++ "]"))
                                     (JStr "text") JUndef None (Some true);
                                   mkExample (Some false) true false
                                     (JNum 0)
                                     (JStr "Union #2") JUndef None (Some true)])
                            None],
                    mkOpts false false (JStr "text") JUndef (JStr "amf://id#payload"))).
  { vm_compute. reflexivity. }
  split; [exact E |].
  exact (computeExamples_keeps_switches Host.platform _ _ _ _ _ E).
Defined.

Lemma generatePayloadExamples_sets_typeId_example :
  generatePayloadExamples Host.platform
    (Samples.payload "application/json" Samples.count) Samples.json
    (mkOpts false true JUndef JUndef (JStr "old"))
  = Ok (None, mkOpts false true (JStr "count") JUndef (JStr "amf://id#payload"))
  /\ typeId (mkOpts false true (JStr "count") JUndef (JStr "amf://id#payload"))
     = prop (Samples.payload "application/json" Samples.count) "@id"
  /\ rawOnly (mkOpts false true (JStr "count") JUndef (JStr "amf://id#payload"))
     = rawOnly (mkOpts false true JUndef JUndef (JStr "old"))
  /\ noAuto (mkOpts false true (JStr "count") JUndef (JStr "amf://id#payload"))
     = noAuto (mkOpts false true JUndef JUndef (JStr "old")).
Proof.
  assert (E : generatePayloadExamples Host.platform
                (Samples.payload "application/json" Samples.count) Samples.json
                (mkOpts false true JUndef JUndef (JStr "old"))
              = Ok (None,
                    mkOpts false true (JStr "count") JUndef (JStr "amf://id#payload"))).
  { vm_compute. reflexivity. }
  split; [exact E |].
  apply (generatePayloadExamples_sets_typeId Host.platform
           (Samples.payload "application/json" Samples.count) Samples.json
           (mkOpts false true JUndef JUndef (JStr "old")) None
           (mkOpts false true (JStr "count") JUndef (JStr "amf://id#payload")));
    [reflexivity | reflexivity | exact E].
Defined.

Lemma rawOnly_ignores_media_example :
  computeExamples Host.platform (Cases.count_with_raw "7") Samples.json Cases.raw_only
  = computeExamples Host.platform (Cases.count_with_raw "7") None Cases.raw_only.
Proof.
  apply (rawOnly_ignores_media Host.platform (Cases.count_with_raw "7")
           Samples.json None Cases.raw_only).
  reflexivity.
Defined.

(** Two examples, the first one without raw text: the second one is
    shown, with its title. *)
Lemma rawOnly_shows_raw_text_example :
  computeExamples Host.platform
    (Cases.count_with_examples [Samples.hollow_example; Cases.named_example "seven" "7"])
    None Cases.raw_only
  = Ok (Some [mkExample (Some false) true false (JStr "7") (JStr "seven") JUndef None
                        (Some false)],
        mkOpts true false (JStr "count") JUndef JUndef)
  /\ truthy (prop (Cases.count_with_examples
                     [Samples.hollow_example; Cases.named_example "seven" "7"])
                  (_getAmfKey Host.platform ns.apiContract_examples)) = true
  /\ Forall shows_raw_text
       [mkExample (Some false) true false (JStr "7") (JStr "seven") JUndef None
                  (Some false)]
  /\ exists examples stored kept,
       _ensureArray (prop (Cases.count_with_examples
                             [Samples.hollow_example; Cases.named_example "seven" "7"])
                          (_getAmfKey Host.platform ns.apiContract_examples))
       = Some examples
       /\ _processExamples Host.platform (JArr examples) = Ok stored
       /\ _listTypeExamples Host.platform stored (typeId Cases.raw_only) = Ok (Some kept)
       /\ [mkExample (Some false) true false (JStr "7") (JStr "seven") JUndef None
                     (Some false)]
          = map (raw_view Host.platform)
                (List.filter (fun x => truthy (example_raw Host.platform x)) kept).
Proof.
  assert (E : computeExamples Host.platform
                (Cases.count_with_examples
                   [Samples.hollow_example; Cases.named_example "seven" "7"])
                None Cases.raw_only
              = Ok (Some [mkExample (Some false) true false (JStr "7") (JStr "seven")
                                    JUndef None (Some false)],
                    mkOpts true false (JStr "count") JUndef JUndef)).
  { vm_compute. reflexivity. }
  split; [exact E |].
  apply (rawOnly_shows_raw_text Host.platform
           (Cases.count_with_examples
              [Samples.hollow_example; Cases.named_example "seven" "7"])
           None Cases.raw_only _ (mkOpts true false (JStr "count") JUndef JUndef));
    [reflexivity | left; reflexivity | exact E].
Defined.

Lemma listTypeExamples_leaves_out_example :
  exists kept,
    subsequence kept
      (map unwrap [JArr [Samples.tracked_example "7" "amf://id#other"];
                   Samples.raw_example "8"])
    /\ (forall e,
           In e [JArr [Samples.tracked_example "7" "amf://id#other"];
                 Samples.raw_example "8"] ->
           untracked Host.platform (unwrap e) = true -> In (unwrap e) kept)
    /\ Some [Samples.raw_example "8"]
       = match kept with [] => None | _ => Some kept end.
Proof.
  apply (listTypeExamples_leaves_out Host.platform
           [JArr [Samples.tracked_example "7" "amf://id#other"];
            Samples.raw_example "8"]
           (JStr "amf://id#payload") (Some [Samples.raw_example "8"])).
  - reflexivity.
  - vm_compute. reflexivity.
Defined.

Lemma generated_titles_are_hidden_example :
  Forall authored_title
    [mkExample (Some true) false false (JStr "7") JUndef (JStr "7") None (Some false);
     mkExample (Some true) true false (JStr "8") (JStr "Bob") (JStr "8") None
               (Some false)].
Proof.
  apply (generated_titles_are_hidden Host.platform
           [Cases.named_example "example_1" "7"; Cases.named_example "Bob" "8"]
           Samples.json no_opts).
  vm_compute. reflexivity.
Defined.

Lemma json_schema_shape_gives_one_view_example :
  exists e,
    Some [mkExample (Some true) false false
            (JStr (Host.stringify (JObj [("p", JStr "")])))
            JUndef (JStr "{}") None None]
    = Some [e]
    /\ carries_schema (JStr "{}") e.
Proof.
  apply (json_schema_shape_gives_one_view Host.platform Samples.schema_backed
           Samples.xml Samples.only_stored (JStr "{}") _
           (mkOpts false true (JStr "Thing") JUndef JUndef)).
  - left. reflexivity.
  - reflexivity.
  - reflexivity.
  - reflexivity.
  - vm_compute. reflexivity.
Defined.

Lemma brackets_are_put_once_example :
  _processJsonArrayExamples
    [mkExample (Some false) false false (JStr "[0]") JUndef JUndef None None;
     mkExample (Some false) false false (JStr "[1]") JUndef JUndef None None]
  = Ok [mkExample (Some false) false false (JStr "[0]") JUndef JUndef None None;
        mkExample (Some false) false false (JStr "[1]") JUndef JUndef None None]
  /\ length [mkExample (Some false) false false (JStr "[0]") JUndef JUndef None None;
             mkExample (Some false) false false (JStr "[1]") JUndef JUndef None None]
     = length [plain_example (JNum 0); plain_example (JStr "[1]")].
Proof.
  apply (brackets_are_put_once [plain_example (JNum 0); plain_example (JStr "[1]")]).
  vm_compute. reflexivity.
Defined.

Lemma json_object_has_the_declared_properties_example :
  exists fields,
    JObj [("p", JStr "")] = JObj fields
    /\ NoDup (map fst fields)
    /\ (forall k, In k (map fst fields) ->
                  exists p,
                    In p [Samples.property_of (Samples.scalar "name" Samples.string_iri);
                          JObj [Samples.named "q"]]
                    /\ truthy (_getValue Host.platform p ns.shacl_name) = true
                    /\ k = property_key Host.platform p)
    /\ (forall p,
           In p [Samples.property_of (Samples.scalar "name" Samples.string_iri);
                 JObj [Samples.named "q"]] ->
           plain_property Host.platform p ->
           In (property_key Host.platform p) (map fst fields)).
Proof.
  apply (json_object_has_the_declared_properties Host.platform
           [Samples.property_of (Samples.scalar "name" Samples.string_iri);
            JObj [Samples.named "q"]]).
  vm_compute. reflexivity.
Defined.

Lemma data_name_reads_back_example :
  _dataNameFromKey (ns.data ++ "first#name") = "first#name"
  /\ _dataNameFromKey ("data:city") = "city".
Proof.
  assert (H : ~ In "#"%char (Str.chars "http://a.ml/vocabularies/data")).
  { cbn. intuition discriminate. }
  assert (G : ~ In "#"%char (Str.chars "data")).
  { cbn. intuition discriminate. }
  split.
  - exact (proj1 (data_name_reads_back "http://a.ml/vocabularies/data"
                    "first#name" H)).
  - apply (proj2 (data_name_reads_back "data" "city" G)).
    + cbn. intuition discriminate.
    + cbn. intuition discriminate.
Defined.

Lemma scalar_value_has_the_kind_of_its_datatype_example :
  exists v,
    _computeJsonScalarValue Host.platform (Cases.count_with_default "twelve") = Ok v
    /\ typeof v = TNumber /\ v <> JNaN.
Proof.
  apply (scalar_value_has_the_kind_of_its_datatype Host.platform
           (Cases.count_with_default "twelve") "integer" TNumber).
  - intros k. left. reflexivity.
  - reflexivity.
  - reflexivity.
Defined.

Lemma structured_value_keeps_its_shape_example :
  shaped_like Host.platform Cases.city (JObj [("city", JStr "Paris")]).
Proof.
  apply (structured_value_keeps_its_shape Host.platform Cases.city).
  - reflexivity.
  - reflexivity.
  - vm_compute. reflexivity.
Defined.

Lemma xml_root_is_named_after_the_type_example :
  exists attrs children,
    "<People><Person><name> </name></Person></People>"
    = serializeToString Host.platform
        (Some (XElement (root_tag "Per son" (JStr "People")) attrs children))
    /\ (parent_tag (JStr "People") <> "" ->
        attrs = []
        /\ exists a c, children = [XElement (_normalizeXmlTagName "Per son") a c]).
Proof.
  apply (xml_root_is_named_after_the_type Host.platform
           [Samples.property_of (Samples.scalar "name" Samples.string_iri)]
           "Per son" (JStr "People")).
  - vm_compute. discriminate.
  - vm_compute. reflexivity.
Defined.

Lemma scalar_first_unions_are_left_out_example :
  _xmlExampleFromProperties Host.platform
    (List.filter (fun p => negb (scalar_first_union Host.platform p))
       [Samples.property_of Samples.text_or_integer;
        Samples.property_of (Samples.scalar "name" Samples.string_iri)])
    (JStr "T") JUndef
  = Ok "<T><name> </name></T>".
Proof.
  apply (scalar_first_unions_are_left_out Host.platform
           [Samples.property_of Samples.text_or_integer;
            Samples.property_of (Samples.scalar "name" Samples.string_iri)]
           (JStr "T") JUndef).
  vm_compute. reflexivity.
Defined.

Lemma named_examples_wrapper_is_transparent_example :
  _computeFromExamples Host.platform
    [Cases.wrapped [Samples.raw_example "7"; Samples.raw_example "8"]]
    Samples.json no_opts
  = _computeFromExamples Host.platform
      [Samples.raw_example "7"; Samples.raw_example "8"] Samples.json no_opts.
Proof.
  apply (named_examples_wrapper_is_transparent Host.platform
           (Cases.wrapped [Samples.raw_example "7"; Samples.raw_example "8"])
           [Samples.raw_example "7"; Samples.raw_example "8"]
           Samples.json no_opts); reflexivity.
Defined.

Lemma raw_markup_is_shown_as_it_is_example :
  _generateFromExample Host.platform (Samples.raw_example " <a/>")
    (Some "application/xml") no_opts
  = Ok (Some (set_isScalar false
                (set_value (JStr " <a/>")
                   (set_hasRaw false
                      (titled (example_title Host.platform
                                 (Samples.raw_example " <a/>"))))))).
Proof.
  apply (raw_markup_is_shown_as_it_is Host.platform (Samples.raw_example " <a/>")
           "application/xml" " <a/>" no_opts); reflexivity.
Defined.

Lemma properties_always_give_json_example :
  truthy (JObj []) = true
  /\ _exampleFromProperties Host.platform [] (Some "application/json") JUndef JUndef
     = Ok (Some (mkExample (Some false) false false
                           (JStr (JSON_stringify Host.platform (JObj [])))
                           JUndef JUndef None None)).
Proof.
  apply (properties_always_give_json Host.platform [] "application/json"
           JUndef JUndef (JObj [])).
  - reflexivity.
  - reflexivity.
  - vm_compute. discriminate.
Defined.

Lemma structure_root_is_named_after_the_type_example :
  exists attrs children,
    formatXml Host.platform
      (xml_header ++ "<unknown-type><city>Paris</city></unknown-type>")
    = formatXml Host.platform
        (xml_header
         ++ serializeToString Host.platform
              (Some (XElement (structure_root_tag no_opts) attrs children))).
Proof.
  apply (structure_root_is_named_after_the_type Host.platform Cases.city no_opts).
  - vm_compute. discriminate.
  - vm_compute. reflexivity.
Defined.

Lemma rawOnly_without_raw_text_gives_an_empty_list_example :
  exists opts',
    computeExamples Host.platform Samples.count_with_hollow_example Samples.json
      Cases.raw_only = Ok (Some [], opts').
Proof.
  apply (rawOnly_without_raw_text_gives_an_empty_list Host.platform
           Samples.count_with_hollow_example Samples.json Cases.raw_only
           [Samples.hollow_example] (Some [Samples.hollow_example])
           [Samples.hollow_example]); try reflexivity.
  repeat constructor.
Defined.

Lemma markup_of_an_array_is_rooted_at_the_array_example :
  exists attrs children,
    [plain_example
       (JStr (formatXml Host.platform
                (xml_header ++ "<People><Person><name> </name></Person></People>")))]
    = [plain_example
         (JStr (formatXml Host.platform
                  (xml_header
                   ++ serializeToString Host.platform
                        (Some (XElement (_normalizeXmlTagName "People") []
                                 [XElement (_normalizeXmlTagName "Person")
                                           attrs children])))))].
Proof.
  apply (markup_of_an_array_is_rooted_at_the_array Host.platform
           Cases.people Cases.person
           [Samples.property_of (Samples.scalar "name" Samples.string_iri)]
           "People" "Person" "application/xml" no_opts _
           (mkOpts false false (JStr "Person") (JStr "People") JUndef)).
  - repeat split; reflexivity.
  - repeat split; try reflexivity. discriminate.
  - repeat split; try reflexivity. discriminate.
  - repeat split; try reflexivity. discriminate.
  - vm_compute. discriminate.
  - reflexivity.
  - reflexivity.
  - reflexivity.
  - reflexivity.
  - reflexivity.
  - vm_compute. reflexivity.
Defined.

Lemma property_value_has_the_kind_of_its_range_example :
  value_of_range Host.platform
    (Samples.array_of (Samples.scalar "n" ns.xmlSchema_integer))
    (JArr [JNum 0]).
Proof.
  apply (property_value_has_the_kind_of_its_range Host.platform
           (Samples.array_of (Samples.scalar "n" ns.xmlSchema_integer)) JUndef).
  vm_compute. reflexivity.
Defined.

Lemma typed_literal_has_the_kind_of_its_type_example :
  exists v,
    _getTypedValue Host.platform
      (Cases.typed_literal "yes" ns.xmlSchema_boolean) = Ok v
    /\ typeof v = TBoolean /\ v <> JNaN
    /\ (TBoolean = TBoolean -> v = JBool ("yes" =? "true")%string).
Proof.
  apply (typed_literal_has_the_kind_of_its_type Host.platform
           (Cases.typed_literal "yes" ns.xmlSchema_boolean) "yes" "boolean" TBoolean).
  - intros k. left. reflexivity.
  - reflexivity.
  - reflexivity.
  - discriminate.
  - reflexivity.
Defined.

Lemma scalar_member_becomes_an_element_example :
  _xmlProcessDataProperty Host.platform (Some (XElement "address" [] []))
    (JObj [Samples.types [ns.data_Scalar]; Samples.literal ns.data_value "Paris"])
    (JStr "ci ty")
  = Ok (Some (XElement "address" []
                ([] ++ [XElement (_normalizeXmlTagName "ci ty") [] [XText "Paris"]]))).
Proof.
  apply (scalar_member_becomes_an_element Host.platform "address" [] []
           (JObj [Samples.types [ns.data_Scalar]; Samples.literal ns.data_value "Paris"])
           [JObj [("@value", JStr "Paris")]] "ci ty" "Paris"); reflexivity.
Defined.
